(** * gossipy: the node protocol engine ([gossipy/node.py])

    A shallow embedding of the gossip nodes of [gossipy/node.py]: the base
    [GossipNode] and its variants [ChordNode], [SamplingBasedNode],
    [PartitioningBasedNode] and [All2AllGossipNode].

    Python methods mutate [self] and the process-wide [CACHE] and may raise.
    They are embedded in a state-and-exception monad [Py]: a computation
    takes the state and returns either a value or the exception raised,
    together with the state reached at that point (a Python exception does
    not roll anything back). *)

From Stdlib Require Import ZArith QArith_base Lia.
From stdpp Require Import base option list gmap strings.

Local Open Scope Z_scope.

(** ** Python values, exceptions and the monad *)

Inductive Exn : Type :=
| ValueError (reason : string)
| TypeError
| ZeroDivisionError
| CacheMiss.

Inductive Result (A : Type) : Type :=
| Ok (a : A)
| Raise (e : Exn).
Arguments Ok {A} a.
Arguments Raise {A} e.

Definition Py (S A : Type) : Type := S -> Result A * S.

Definition ret {S A : Type} (a : A) : Py S A := fun s => (Ok a, s).

Definition raise {S A : Type} (e : Exn) : Py S A := fun s => (Raise e, s).

Definition bind {S A B : Type} (m : Py S A) (k : A -> Py S B) : Py S B :=
  fun s => match m s with
           | (Ok a, s') => k a s'
           | (Raise e, s') => (Raise e, s')
           end.

Definition gets {S A : Type} (f : S -> A) : Py S A := fun s => (Ok (f s), s).

Definition modify {S : Type} (f : S -> S) : Py S unit := fun s => (Ok tt, f s).

Definition lift_result {S A : Type} (r : Result A) : Py S A := fun s => (r, s).

Declare Scope py_scope.
Delimit Scope py_scope with py.
Notation "x <~ c1 ;; c2" := (bind c1 (fun x => c2))
  (at level 100, c1 at next level, right associativity) : py_scope.
Notation "c1 ;;; c2" := (bind c1 (fun _ => c2))
  (at level 100, right associativity) : py_scope.

(** [a % b] on Python ints: floor modulo, [ZeroDivisionError] when [b] is 0. *)
Definition py_mod (a b : Z) : Result Z :=
  if b =? 0 then Raise ZeroDivisionError else Ok (a mod b).

(** [int(x)] on a float: truncation toward zero.  A finite float is a
    rational, so the sample is carried as a [Q]. *)
Definition py_int (x : Q) : Z := Z.quot (Qnum x) (Z.pos (Qden x)).

(** ** Messages ([gossipy.core]) *)

Definition NodeId : Type := Z.
Definition CacheKey : Type := N.

Module MessageType.
Inductive t : Type := PUSH | PULL | REPLY | PUSH_PULL.
Definition eqb (a b : t) : bool :=
  match a, b with
  | PUSH, PUSH | PULL, PULL | REPLY, REPLY | PUSH_PULL, PUSH_PULL => true
  | _, _ => false
  end.
End MessageType.

#[export] Instance MessageType_eq_dec : EqDecision MessageType.t.
Proof. solve_decision. Defined.

(** The protocol argument of [send].  Python does not restrict the argument
    to the members of the enumeration: [Other] stands for any value that is
    none of them, which is what the [else] branches of [send] receive. *)
Module AntiEntropyProtocol.
Inductive t : Type := PUSH | PULL | PUSH_PULL | Other (tag : Z).
End AntiEntropyProtocol.

(** The components of a message's [value] tuple: a cache key, an integer
    (partition id or sample size), or [None]. *)
Inductive PyVal : Type :=
| KeyV (k : CacheKey)
| IntV (z : Z)
| NoneV.

#[export] Instance PyVal_eq_dec : EqDecision PyVal.
Proof. solve_decision. Defined.

Record Message : Type := mkMessage {
  timestamp : Z;
  sender : NodeId;
  receiver : NodeId;
  type : MessageType.t;
  value : option (list PyVal)
}.

Record ChordMessage : Type := mkChordMessage {
  chord_msg : Message;
  limit : NodeId
}.

(** [ChordMessage(t, sender, peer, limit, type, value)] *)
Definition ChordMessage_new (t : Z) (s p l : NodeId) (ty : MessageType.t)
    (v : option (list PyVal)) : ChordMessage :=
  mkChordMessage (mkMessage t s p ty v) l.

(** [msg.value[0] if msg.value else None]: [None] and the empty tuple are
    both falsy. *)
Definition value0 (v : option (list PyVal)) : PyVal :=
  match v with
  | Some (x :: _) => x
  | _ => NoneV
  end.

(** ** The collaborators of the node engine *)

(** Modelled from the spec: the Cache collaborator ([gossipy.CACHE], whose
    class is not among the sources).  [put(value) -> CacheKey];
    [pop(key) -> value] fails with CacheMiss if [key] is unknown or already
    popped.  Keys come from a counter, so that a key is valid until exactly
    one [pop] consumes it and is never handed out again. *)
Record Cache (V : Type) : Type := mkCache {
  store : gmap CacheKey V;
  next_key : CacheKey
}.
Arguments mkCache {V} store next_key.
Arguments store {V} c.
Arguments next_key {V} c.

Definition Cache_put {V : Type} (v : V) (c : Cache V) : CacheKey * Cache V :=
  (next_key c, mkCache (<[next_key c := v]> (store c)) (next_key c + 1)%N).

Definition Cache_pop {V : Type} (k : PyVal) (c : Cache V) : option (V * Cache V) :=
  match k with
  | KeyV k =>
      match store c !! k with
      | Some v => Some (v, mkCache (delete k (store c)) (next_key c))
      | None => None
      end
  | _ => None
  end.

(** Whether a payload component is a key that the cache still holds. *)
Definition Cache_live {V : Type} (k : PyVal) (c : Cache V) : bool :=
  match k with
  | KeyV k => bool_decide (is_Some (store c !! k))
  | _ => false
  end.

(** The snapshot that a payload component names in the cache. *)
Definition snapshot_of {V : Type} (c : Cache V) (k : PyVal) (v : V) : Prop :=
  exists key : CacheKey, k = KeyV key /\ store c !! key = Some v.

(** [numpy.random]: the generator is a state [G]; [randint_draw lo hi] is
    the value [randint(lo, hi)] returns when [lo < hi], in [[lo, hi)], and
    [normal_draw loc scale] is the float that [normal(loc, scale)] returns. *)
Class NumpyRandom (G : Type) : Type := {
  randint_draw : Z -> Z -> G -> Z * G;
  normal_draw : Q -> Q -> G -> Q * G;
  randint_draw_range :
    forall (lo hi : Z) (g : G), lo < hi -> lo <= (randint_draw lo hi g).1 < hi
}.

Definition randint {G : Type} `{NumpyRandom G} (lo hi : Z) : Py G Z :=
  if lo <? hi then fun g => let (v, g') := randint_draw lo hi g in (Ok v, g')
  else raise (ValueError "low >= high").

Definition normal {G : Type} `{NumpyRandom G} (loc scale : Q) : Py G Q :=
  if Qle_bool 0 scale then fun g => let (x, g') := normal_draw loc scale g in (Ok x, g')
  else raise (ValueError "scale < 0").

(** [ModelHandler.__call__(recv_model, data)]: the numeric merge and update
    of the local model, a collaborator of the engine. *)
Class ModelHandler (H D : Type) : Type := {
  mh_call : H -> H -> D -> H
}.

(** [WeightedTMH.__call__(recv_models, data, weights)]: the multi-source
    merge. *)
Class WeightedTMH (H D W : Type) : Type := {
  wtmh_call : H -> list H -> D -> W -> H
}.

(** [SamplingTMH]: its [sample_size] attribute,
    [TorchModelSampling.sample(sample_size, recv_model.model)] and
    [__call__(recv_model, data, sample)]. *)
Class SamplingTMH (H D Smp : Type) : Type := {
  sample_size : H -> Z;
  TorchModelSampling_sample : PyVal -> H -> Smp;
  stmh_call : H -> H -> D -> Smp -> H
}.

(** The numeric merge of one partition slice with the incoming one. *)
Class SliceMerge (P D : Type) : Type := {
  slice_merge : P -> P -> D -> P
}.

(** Modelled from the spec: PartitionedTMH ([gossipy.model.handler], not
    among the sources).  The model is split into [n_parts] disjoint slices;
    [__call__(recv_model, data, pid)] merges only the named partition slice
    into the local model, leaving all other partitions untouched. *)
Record PartitionedTMH (P : Type) : Type := mkPartitionedTMH {
  partitions : list P
}.
Arguments mkPartitionedTMH {P} partitions.
Arguments partitions {P} p.

Definition n_parts {P : Type} (h : PartitionedTMH P) : Z :=
  Z.of_nat (length (partitions h)).

Definition PartitionedTMH_call {P D : Type} `{SliceMerge P D}
    (h recv : PartitionedTMH P) (d : D) (pid : PyVal) : PartitionedTMH P :=
  match pid with
  | IntV z =>
      if 0 <=? z then
        match partitions h !! Z.to_nat z, partitions recv !! Z.to_nat z with
        | Some a, Some b =>
            mkPartitionedTMH (<[Z.to_nat z := slice_merge a b d]> (partitions h))
        | _, _ => h
        end
      else h
  | _ => h
  end.

(** [P2PNetwork]: [size()] and [get_peers(idx)]. *)
Record P2PNetwork : Type := mkP2PNetwork {
  P2PNetwork_size : Z;
  P2PNetwork_get_peers : NodeId -> list NodeId
}.

(** ** Python dictionaries

    [local_cache] is a [dict]: insertion ordered, one entry per key;
    assigning to a key that is present replaces the value where it stands,
    assigning to a new key appends. *)
Definition dict (V : Type) : Type := list (NodeId * V).

Fixpoint dict_get {V : Type} (k : NodeId) (d : dict V) : option V :=
  match d with
  | [] => None
  | (k', v) :: d' => if k =? k' then Some v else dict_get k d'
  end.

Fixpoint dict_set {V : Type} (k : NodeId) (v : V) (d : dict V) : dict V :=
  match d with
  | [] => [(k, v)]
  | (k', v') :: d' => if k =? k' then (k, v) :: d' else (k', v') :: dict_set k v d'
  end.

Definition dict_values {V : Type} (d : dict V) : list V := d.*2.

Definition dict_keys {V : Type} (d : dict V) : list NodeId := d.*1.

(** Truthiness of a dict: non-empty. *)
Definition dict_truthy {V : Type} (d : dict V) : bool :=
  match d with [] => false | _ => true end.

Fixpoint mapM {S A B : Type} (f : A -> Py S B) (l : list A) : Py S (list B) :=
  match l with
  | [] => ret []
  | a :: l' => (b <~ f a ;; bs <~ mapM f l' ;; ret (b :: bs))%py
  end.

(** ** The nodes *)

Record GossipNode (H D : Type) : Type := mkGossipNode {
  idx : NodeId;
  data : D * option D;
  round_len : Z;
  model_handler : H;
  sync : bool;
  delta : Z;
  p2p_net : P2PNetwork
}.
Arguments mkGossipNode {H D} idx data round_len model_handler sync delta p2p_net.
Arguments idx {H D} g.
Arguments data {H D} g.
Arguments round_len {H D} g.
Arguments model_handler {H D} g.
Arguments sync {H D} g.
Arguments delta {H D} g.
Arguments p2p_net {H D} g.

Definition set_model_handler {H D : Type} (h : H) (n : GossipNode H D) : GossipNode H D :=
  mkGossipNode (idx n) (data n) (round_len n) h (sync n) (delta n) (p2p_net n).

Record ChordNode (H D : Type) : Type := mkChordNode {
  chord_base : GossipNode H D;
  finger : list Z;
  chord_local_cache : dict PyVal
}.
Arguments mkChordNode {H D} chord_base finger chord_local_cache.
Arguments chord_base {H D} c.
Arguments finger {H D} c.
Arguments chord_local_cache {H D} c.

Record All2AllGossipNode (H D : Type) : Type := mkAll2AllGossipNode {
  a2a_base : GossipNode H D;
  a2a_local_cache : dict PyVal
}.
Arguments mkAll2AllGossipNode {H D} a2a_base a2a_local_cache.
Arguments a2a_base {H D} a.
Arguments a2a_local_cache {H D} a.

(** What a method sees: its own node, the process-wide [CACHE] and the
    state of the random generator. *)
Record World (H N G : Type) : Type := mkWorld {
  self : N;
  CACHE : Cache H;
  RNG : G
}.
Arguments mkWorld {H N G} self CACHE RNG.
Arguments self {H N G} w.
Arguments CACHE {H N G} w.
Arguments RNG {H N G} w.

Section Engine.
Context {H D G : Type}.

Definition set_self {N N' : Type} (n : N') (w : World H N G) : World H N' G :=
  mkWorld n (CACHE w) (RNG w).

Definition set_CACHE {N : Type} (c : Cache H) (w : World H N G) : World H N G :=
  mkWorld (self w) c (RNG w).

(** [CACHE.pop(key)] *)
Definition CACHE_pop {N : Type} (k : PyVal) : Py (World H N G) H :=
  fun w => match Cache_pop k (CACHE w) with
           | Some (v, c) => (Ok v, set_CACHE c w)
           | None => (Raise CacheMiss, w)
           end.

(** Modelled from the spec: [ModelHandler.caching(ownerId) -> CacheKey]
    snapshots the current model into Cache ([gossipy.model.handler] is not
    among the sources). *)
Definition ModelHandler_caching {N : Type} (h : H) (owner : NodeId)
    : Py (World H N G) CacheKey :=
  fun w => let (k, c) := Cache_put h (CACHE w) in (Ok k, set_CACHE c w).

(** A draw from the generator, inside a method. *)
Definition with_rng {N A : Type} (m : Py G A) : Py (World H N G) A :=
  fun w => let (r, g) := m (RNG w) in (r, mkWorld (self w) (CACHE w) g).

(** [super().method(...)]: run a method of the base class on the base part
    of [self]. *)
Definition super {N A : Type} (up : N -> GossipNode H D)
    (down : GossipNode H D -> N -> N)
    (m : Py (World H (GossipNode H D) G) A) : Py (World H N G) A :=
  fun w => let (r, w') := m (set_self (up (self w)) w) in
           (r, set_self (down (self w') (self w)) w').

(** *** GossipNode *)

(** [GossipNode.__init__] *)
Definition GossipNode_init `{NumpyRandom G} (idx : NodeId) (data : D * option D)
    (round_len : Z) (model_handler : H) (p2p_net : P2PNetwork) (sync : bool)
    : Py G (GossipNode H D) :=
  (delta <~ (if sync then randint 0 round_len
             else (x <~ normal (inject_Z round_len) (round_len # 10) ;;
                   ret (py_int x))) ;;
   ret (mkGossipNode idx data round_len model_handler sync delta p2p_net))%py.

(** [GossipNode.timed_out] *)
Definition GossipNode_timed_out (n : GossipNode H D) (t : Z) : Result bool :=
  if sync n then
    match py_mod t (round_len n) with
    | Ok r => Ok (r =? delta n)
    | Raise e => Raise e
    end
  else
    match py_mod t (delta n) with
    | Ok r => Ok (r =? 0)
    | Raise e => Raise e
    end.

(** [GossipNode.send] *)
Definition GossipNode_send (t : Z) (peer : NodeId) (protocol : AntiEntropyProtocol.t)
    : Py (World H (GossipNode H D) G) Message :=
  match protocol with
  | AntiEntropyProtocol.PUSH =>
      (n <~ gets self ;;
       key <~ ModelHandler_caching (model_handler n) (idx n) ;;
       ret (mkMessage t (idx n) peer MessageType.PUSH (Some [KeyV key])))%py
  | AntiEntropyProtocol.PULL =>
      (n <~ gets self ;;
       ret (mkMessage t (idx n) peer MessageType.PULL None))%py
  | AntiEntropyProtocol.PUSH_PULL =>
      (n <~ gets self ;;
       key <~ ModelHandler_caching (model_handler n) (idx n) ;;
       ret (mkMessage t (idx n) peer MessageType.PUSH_PULL (Some [KeyV key])))%py
  | AntiEntropyProtocol.Other _ => raise (ValueError "Unknown protocol")
  end.

Definition is_push_reply_pushpull (ty : MessageType.t) : bool :=
  MessageType.eqb ty MessageType.PUSH || MessageType.eqb ty MessageType.REPLY
  || MessageType.eqb ty MessageType.PUSH_PULL.

Definition is_pull_pushpull (ty : MessageType.t) : bool :=
  MessageType.eqb ty MessageType.PULL || MessageType.eqb ty MessageType.PUSH_PULL.

(** [GossipNode.receive] *)
Definition GossipNode_receive `{ModelHandler H D} (t : Z) (msg : Message)
    : Py (World H (GossipNode H D) G) (option Message) :=
  let msg_type := type msg in
  let recv_model := value0 (value msg) in
  ((if is_push_reply_pushpull msg_type then
      (recv_model <~ CACHE_pop recv_model ;;
       modify (fun w => set_self
         (set_model_handler
            (mh_call (model_handler (self w)) recv_model (data (self w)).1)
            (self w)) w))
    else ret tt) ;;;
   (if is_pull_pushpull msg_type then
      (n <~ gets self ;;
       key <~ ModelHandler_caching (model_handler n) (idx n) ;;
       ret (Some (mkMessage t (idx n) (sender msg) MessageType.REPLY (Some [KeyV key]))))
    else ret None))%py.
End Engine.

(** ** [math.log2]

    [log2] of the [math] module hands its argument, converted to a binary64
    float, to the C library and returns a binary64 float; it raises on an
    argument [<= 0].  The float returned is an input of the model, carried
    as a rational like the Gaussian sample: the code only truncates it. *)
Class MathLog2 : Type := {
  math_log2 : Z -> Q
}.

(** [int(log2(n))] for a network size [n]. *)
Definition py_int_log2 `{MathLog2} (n : Z) : Result Z :=
  if n <=? 0 then Raise (ValueError "math domain error")
  else Ok (py_int (math_log2 n)).

(** The binary64 floats [c / 2^52] with [c >= 0]: a significand [s] of at
    most 53 bits scaled by a power of two.  These are zero and the floats
    that are multiples of [2^-52], among them every float [>= 1]; the
    exponent is left unbounded above, the logarithms compared being below
    64. *)
Definition binary64 (c : Z) : Prop :=
  exists s e : Z, 0 <= s < 2 ^ 53 /\ 0 <= e /\ c = s * 2 ^ e.

(** The accuracy contract of a correctly rounded [log2]: the float [r]
    returned for [n >= 1] is a binary64 nearest to the real logarithm, no
    other float being closer.  For floats [c / 2^52] and [c' / 2^52] the
    midpoint is [(c + c') / 2^53], and [(c + c') / 2^53 <= log2 n] is the
    comparison of integers [2^(c + c') <= n^(2^53)]. *)
Definition log2_nearest (n : Z) (r : Q) : Prop :=
  exists c : Z,
    binary64 c /\ Qeq r (c # 2 ^ 52) /\
    forall c' : Z, binary64 c' ->
      (c' < c -> 2 ^ (c + c') <= n ^ 2 ^ 53) /\
      (c < c' -> n ^ 2 ^ 53 <= 2 ^ (c + c')).

(** [a, b = value]: unpacking a pair. *)
Definition unpack2 {S : Type} (v : option (list PyVal)) : Py S (PyVal * PyVal) :=
  match v with
  | None => raise TypeError
  | Some [a; b] => ret (a, b)
  | Some _ => raise (ValueError "unpack")
  end.

Section Variants.
Context {H D W G : Type}.

(** *** ChordNode *)

(** One iteration of the loop of [ChordNode.__init__], on the loop state
    [(pow2, cur, finger)]. *)
Definition finger_step (idx size : Z) (st : Z * Z * list Z) (i : nat)
    : Z * Z * list Z :=
  let '(pow2, _, fing) := st in
  let cur := idx + pow2 in
  let pow2 := pow2 + pow2 in
  let cur := if size <=? cur then cur - size else cur in
  (pow2, cur, <[i := cur]> fing).

(** [ChordNode.__init__] *)
Definition ChordNode_init `{NumpyRandom G} `{MathLog2}
    (idx : NodeId) (data : D * option D)
    (round_len : Z) (model_handler : H) (p2p_net : P2PNetwork) (sync : bool)
    : Py G (ChordNode H D) :=
  (base <~ GossipNode_init idx data round_len model_handler p2p_net sync ;;
   lg <~ lift_result (py_int_log2 (P2PNetwork_size p2p_net)) ;;
   let m := Z.to_nat (lg + 1) in
   let fing := replicate m 1 in
   let pow2 := 1 in
   let cur := idx in
   let '(_, _, fing) :=
     foldl (finger_step idx (P2PNetwork_size p2p_net)) (pow2, cur, fing) (seq 0 m) in
   ret (mkChordNode base (reverse fing) []))%py.

Definition chord_set_model_handler (h : H) (n : ChordNode H D) : ChordNode H D :=
  mkChordNode (set_model_handler h (chord_base n)) (finger n) (chord_local_cache n).

Definition chord_set_local_cache (lc : dict PyVal) (n : ChordNode H D) : ChordNode H D :=
  mkChordNode (chord_base n) (finger n) lc.

(** [ChordNode.timed_out] *)
Definition ChordNode_timed_out `{WeightedTMH H D W} (t : Z) (weights : W)
    : Py (World H (ChordNode H D) G) bool :=
  (n <~ gets self ;;
   tout <~ lift_result (GossipNode_timed_out (chord_base n) t) ;;
   (if tout && dict_truthy (chord_local_cache n) then
      (models <~ mapM CACHE_pop (dict_values (chord_local_cache n)) ;;
       modify (fun w => set_self
         (chord_set_model_handler
            (wtmh_call (model_handler (chord_base (self w))) models
               (data (chord_base (self w))).1 weights)
            (self w)) w) ;;;
       modify (fun w => set_self (chord_set_local_cache [] (self w)) w))
    else ret tt) ;;;
   ret tout)%py.

(** [ChordNode.get_peers] *)
Definition ChordNode_get_peers (n : ChordNode H D) : list Z := finger n.

(** [ChordNode.send] *)
Definition ChordNode_send (t : Z) (sender peer : NodeId)
    (protocol : AntiEntropyProtocol.t) (limit : NodeId)
    : Py (World H (ChordNode H D) G) ChordMessage :=
  match protocol with
  | AntiEntropyProtocol.PUSH =>
      (n <~ gets self ;;
       key <~ ModelHandler_caching (model_handler (chord_base n)) sender ;;
       ret (ChordMessage_new t sender peer limit MessageType.PUSH (Some [KeyV key])))%py
  | _ => raise (ValueError "ChordNode only supports PUSH protocol.")
  end.

(** [ChordNode.receive] *)
Definition ChordNode_receive (t : Z) (msg : ChordMessage)
    : Py (World H (ChordNode H D) G) (option ChordMessage) :=
  let sender := sender (chord_msg msg) in
  let msg_type := type (chord_msg msg) in
  let recv_model := value0 (value (chord_msg msg)) in
  if MessageType.eqb msg_type MessageType.PUSH then
    (n <~ gets self ;;
     match dict_get sender (chord_local_cache n) with
     | Some stale =>
         if idx (chord_base n) =? limit msg
         then (_ <~ CACHE_pop stale ;; ret tt)
         else ret tt
     | None => ret tt
     end ;;;
     modify (fun w => set_self
       (chord_set_local_cache
          (dict_set sender recv_model (chord_local_cache (self w))) (self w)) w) ;;;
     ret None)%py
  else ret None.

(** *** SamplingBasedNode *)

(** [SamplingBasedNode.send] *)
Definition SamplingBasedNode_send {Smp : Type} `{SamplingTMH H D Smp}
    (t : Z) (peer : NodeId) (protocol : AntiEntropyProtocol.t)
    : Py (World H (GossipNode H D) G) Message :=
  match protocol with
  | AntiEntropyProtocol.PUSH =>
      (n <~ gets self ;;
       key <~ ModelHandler_caching (model_handler n) (idx n) ;;
       ret (mkMessage t (idx n) peer MessageType.PUSH
              (Some [KeyV key; IntV (sample_size (model_handler n))])))%py
  | AntiEntropyProtocol.PULL =>
      (n <~ gets self ;;
       ret (mkMessage t (idx n) peer MessageType.PULL None))%py
  | AntiEntropyProtocol.PUSH_PULL =>
      (n <~ gets self ;;
       key <~ ModelHandler_caching (model_handler n) (idx n) ;;
       ret (mkMessage t (idx n) peer MessageType.PUSH_PULL
              (Some [KeyV key; IntV (sample_size (model_handler n))])))%py
  | AntiEntropyProtocol.Other _ => raise (ValueError "Unknown protocol")
  end.

(** [SamplingBasedNode.receive] *)
Definition SamplingBasedNode_receive {Smp : Type} `{SamplingTMH H D Smp}
    (t : Z) (msg : Message) : Py (World H (GossipNode H D) G) (option Message) :=
  let msg_type := type msg in
  ((if is_push_reply_pushpull msg_type then
      (p <~ unpack2 (value msg) ;;
       let '(recv_model, sample_size) := p in
       recv_model <~ CACHE_pop recv_model ;;
       let sample := TorchModelSampling_sample sample_size recv_model in
       modify (fun w => set_self
         (set_model_handler
            (stmh_call (model_handler (self w)) recv_model (data (self w)).1 sample)
            (self w)) w))
    else ret tt) ;;;
   (if is_pull_pushpull msg_type then
      (n <~ gets self ;;
       key <~ ModelHandler_caching (model_handler n) (idx n) ;;
       ret (Some (mkMessage t (idx n) (sender msg) MessageType.REPLY
                    (Some [KeyV key; IntV (sample_size (model_handler n))]))))
    else ret None))%py.

(** *** All2AllGossipNode *)

(** [All2AllGossipNode.__init__] *)
Definition All2AllGossipNode_init `{NumpyRandom G} (idx : NodeId)
    (data : D * option D) (round_len : Z) (model_handler : H)
    (p2p_net : P2PNetwork) (sync : bool) : Py G (All2AllGossipNode H D) :=
  (base <~ GossipNode_init idx data round_len model_handler p2p_net sync ;;
   ret (mkAll2AllGossipNode base []))%py.

Definition a2a_set_model_handler (h : H) (n : All2AllGossipNode H D)
    : All2AllGossipNode H D :=
  mkAll2AllGossipNode (set_model_handler h (a2a_base n)) (a2a_local_cache n).

Definition a2a_set_local_cache (lc : dict PyVal) (n : All2AllGossipNode H D)
    : All2AllGossipNode H D :=
  mkAll2AllGossipNode (a2a_base n) lc.

Definition a2a_set_base (b : GossipNode H D) (n : All2AllGossipNode H D)
    : All2AllGossipNode H D :=
  mkAll2AllGossipNode b (a2a_local_cache n).

(** [All2AllGossipNode.timed_out] *)
Definition All2AllGossipNode_timed_out `{WeightedTMH H D W} (t : Z) (weights : W)
    : Py (World H (All2AllGossipNode H D) G) bool :=
  (n <~ gets self ;;
   tout <~ lift_result (GossipNode_timed_out (a2a_base n) t) ;;
   (if tout && dict_truthy (a2a_local_cache n) then
      (models <~ mapM CACHE_pop (dict_values (a2a_local_cache n)) ;;
       modify (fun w => set_self
         (a2a_set_model_handler
            (wtmh_call (model_handler (a2a_base (self w))) models
               (data (a2a_base (self w))).1 weights)
            (self w)) w) ;;;
       modify (fun w => set_self (a2a_set_local_cache [] (self w)) w))
    else ret tt) ;;;
   ret tout)%py.

(** [All2AllGossipNode.get_peers] *)
Definition All2AllGossipNode_get_peers (n : All2AllGossipNode H D) : list NodeId :=
  P2PNetwork_get_peers (p2p_net (a2a_base n)) (idx (a2a_base n)).

(** [All2AllGossipNode.send] *)
Definition All2AllGossipNode_send (t : Z) (peer : NodeId)
    (protocol : AntiEntropyProtocol.t)
    : Py (World H (All2AllGossipNode H D) G) Message :=
  match protocol with
  | AntiEntropyProtocol.PUSH =>
      super a2a_base a2a_set_base (GossipNode_send t peer protocol)
  | _ => raise (ValueError "All2AllNode only supports PUSH protocol.")
  end.

(** [All2AllGossipNode.receive] *)
Definition All2AllGossipNode_receive (t : Z) (msg : Message)
    : Py (World H (All2AllGossipNode H D) G) (option Message) :=
  let sender := sender msg in
  let msg_type := type msg in
  let recv_model := value0 (value msg) in
  if MessageType.eqb msg_type MessageType.PUSH then
    (n <~ gets self ;;
     match dict_get sender (a2a_local_cache n) with
     | Some stale => (_ <~ CACHE_pop stale ;; ret tt)
     | None => ret tt
     end ;;;
     modify (fun w => set_self
       (a2a_set_local_cache
          (dict_set sender recv_model (a2a_local_cache (self w))) (self w)) w) ;;;
     ret None)%py
  else ret None.
End Variants.

Section Partitioning.
Context {P D G : Type} `{SliceMerge P D} `{NumpyRandom G}.

(** *** PartitioningBasedNode *)

(** [PartitioningBasedNode.send] *)
Definition PartitioningBasedNode_send (t : Z) (peer : NodeId)
    (protocol : AntiEntropyProtocol.t)
    : Py (World (PartitionedTMH P) (GossipNode (PartitionedTMH P) D) G) Message :=
  match protocol with
  | AntiEntropyProtocol.PUSH =>
      (n <~ gets self ;;
       pid <~ with_rng (randint 0 (n_parts (model_handler n))) ;;
       key <~ ModelHandler_caching (model_handler n) (idx n) ;;
       ret (mkMessage t (idx n) peer MessageType.PUSH (Some [KeyV key; IntV pid])))%py
  | AntiEntropyProtocol.PULL =>
      (n <~ gets self ;;
       ret (mkMessage t (idx n) peer MessageType.PULL None))%py
  | AntiEntropyProtocol.PUSH_PULL =>
      (n <~ gets self ;;
       pid <~ with_rng (randint 0 (n_parts (model_handler n))) ;;
       key <~ ModelHandler_caching (model_handler n) (idx n) ;;
       ret (mkMessage t (idx n) peer MessageType.PUSH_PULL (Some [KeyV key; IntV pid])))%py
  | AntiEntropyProtocol.Other _ => raise (ValueError "Unknown protocol")
  end.

(** [PartitioningBasedNode.receive] *)
Definition PartitioningBasedNode_receive (t : Z) (msg : Message)
    : Py (World (PartitionedTMH P) (GossipNode (PartitionedTMH P) D) G)
         (option Message) :=
  let msg_type := type msg in
  ((if is_push_reply_pushpull msg_type then
      (p <~ unpack2 (value msg) ;;
       let '(recv_model, pid) := p in
       recv_model <~ CACHE_pop recv_model ;;
       modify (fun w => set_self
         (set_model_handler
            (PartitionedTMH_call (model_handler (self w)) recv_model
               (data (self w)).1 pid)
            (self w)) w))
    else ret tt) ;;;
   (if is_pull_pushpull msg_type then
      (n <~ gets self ;;
       pid <~ with_rng (randint 0 (n_parts (model_handler n))) ;;
       key <~ ModelHandler_caching (model_handler n) (idx n) ;;
       ret (Some (mkMessage t (idx n) (sender msg) MessageType.REPLY
                    (Some [KeyV key; IntV pid]))))
    else ret None))%py.
End Partitioning.


(** ** Runs

    Between two firings the scheduler hands the node the messages addressed
    to it, one after another; a raised exception ends the run. *)
Fixpoint forM_ {S A B : Type} (f : A -> Py S B) (l : list A) : Py S unit :=
  match l with
  | [] => ret tt
  | a :: l' => (f a ;;; forM_ f l')%py
  end.

(** The senders of the PUSH messages of a run. *)
Definition push_senders (ms : list Message) : list NodeId :=
  sender <$> filter (fun m => type m = MessageType.PUSH) ms.

(** The keys that the PUSH messages of a run carry. *)
Definition push_keys (ms : list Message) : list PyVal :=
  (fun m => value0 (value m)) <$> filter (fun m => type m = MessageType.PUSH) ms.

(** The table that [ChordNode.__init__] is specified to hold before the
    final reversal. *)
Definition finger_spec (idx size : Z) (m : nat) : list Z :=
  (fun i : nat => (idx + 2 ^ Z.of_nat i) mod size) <$> seq 0 m.

(** The value the loop writes at position [i]. *)
Definition finger_entry (idx size : Z) (i : nat) : Z :=
  if size <=? idx + 2 ^ Z.of_nat i then idx + 2 ^ Z.of_nat i - size
  else idx + 2 ^ Z.of_nat i.

(** ** Concrete collaborators, for running the engine on examples *)

(** A generator that reads its variates off a tape. *)
Definition tape_randint (lo hi : Z) (g : list Q) : Z * list Q :=
  match g with
  | [] => (lo, [])
  | z :: g' => (lo + Qnum z mod (hi - lo), g')
  end.

Definition tape_normal (loc scale : Q) (g : list Q) : Q * list Q :=
  match g with
  | [] => (loc, [])
  | z :: g' => (Qplus loc (Qmult scale z), g')
  end.

#[export] Instance TapeRandom : NumpyRandom (list Q).
Proof.
  refine {| randint_draw := tape_randint; normal_draw := tape_normal |}.
  intros lo hi g Hlt. destruct g as [|z g']; simpl; [lia|].
  pose proof (Z.mod_pos_bound (Qnum z) (hi - lo)). lia.
Defined.

(** [math.log2] as CPython returns it on an IEEE 754 platform, recorded at
    the network sizes of the examples: it is exact at a power of two, and at
    [2^49 - 1] it returns [49.0], the logarithm [48.999999999999997...]
    being nearer to 49 than to the float below 49. *)
Definition log2_table : list (Z * Q) :=
  [(2, 1%Q); (4, 2%Q); (8, 3%Q); (2 ^ 49 - 1, 49%Q)].

Definition table_log2 (n : Z) : Q :=
  match list_find (fun p : Z * Q => p.1 = n) log2_table with
  | Some (_, (_, r)) => r
  | None => 0%Q
  end.

#[export] Instance RecordedLog2 : MathLog2 := {| math_log2 := table_log2 |}.


(** A model that is one integer: merging adds. *)
#[export] Instance SumHandler : ModelHandler Z Z := {|
  mh_call h recv d := h + recv + d
|}.

#[export] Instance SumWeighted : WeightedTMH Z Z (list Z) := {|
  wtmh_call h recvs d ws := h + foldr Z.add 0 recvs + d
|}.

#[export] Instance SumSampling : SamplingTMH Z Z Z := {|
  sample_size h := 1;
  TorchModelSampling_sample sz h := h;
  stmh_call h recv d smp := h + recv + d
|}.

#[export] Instance SumSlice : SliceMerge Z Z := {|
  slice_merge a b d := a + b
|}.

Definition net4 : P2PNetwork := mkP2PNetwork 4 (fun _ => []).

Definition net8 : P2PNetwork := mkP2PNetwork 8 (fun _ => []).

(** A synchronous node with round length 10 and delta 3, and an asynchronous
    one with delta 4. *)
Definition node_sync : GossipNode Z Z := mkGossipNode 0 (5, None) 10 7 true 3 net4.

Definition node_async : GossipNode Z Z := mkGossipNode 1 (5, None) 10 7 false 4 net4.

(** A cache holding two snapshots, and worlds around it. *)
Definition cache2 : Cache Z := mkCache (<[1%N := 200]> (<[0%N := 100]> ∅)) 2%N.

Definition world_base : World Z (GossipNode Z Z) (list Q) :=
  mkWorld node_sync cache2 [].

Definition world_a2a : World Z (All2AllGossipNode Z Z) (list Q) :=
  mkWorld (mkAll2AllGossipNode node_sync [(1, KeyV 0%N)]) cache2 [].

Definition world_chord : World Z (ChordNode Z Z) (list Q) :=
  mkWorld (mkChordNode node_sync [0; 2; 1] [(1, KeyV 0%N)]) cache2 [].

Definition msg_push : Message :=
  mkMessage 12 1 0 MessageType.PUSH (Some [KeyV 1%N]).

Definition msg_pull : Message := mkMessage 12 1 0 MessageType.PULL None.

Definition msg_push_pull : Message :=
  mkMessage 12 1 0 MessageType.PUSH_PULL (Some [KeyV 0%N]).

(** A node whose model has four partitions, and a cached snapshot of a peer. *)
Definition world_part : World (PartitionedTMH Z) (GossipNode (PartitionedTMH Z) Z) (list Q) :=
  mkWorld (mkGossipNode 0 (5, None) 10 (mkPartitionedTMH [10; 20; 30; 40]) true 3 net4)
          (mkCache (<[0%N := mkPartitionedTMH [1; 2; 3; 4]]> ∅) 1%N)
          [3 # 1]%Q.

Definition msg_part : Message :=
  mkMessage 12 1 0 MessageType.PUSH_PULL (Some [KeyV 0%N; IntV 2]).

(** ** Further methods of the nodes *)

(** [ChordNode.next_timed_out] *)
Definition ChordNode_next_timed_out {H D : Type} (n : ChordNode H D) (t : Z)
    : Result Z :=
  match py_mod t (delta (chord_base n)) with
  | Ok tmp => let tmp := delta (chord_base n) - tmp in Ok tmp
  | Raise e => Raise e
  end.

(** Every key the cache holds was handed out by its counter. *)
Definition Cache_wf {V : Type} (c : Cache V) : Prop :=
  forall k : CacheKey, is_Some (store c !! k) -> (k < next_key c)%N.

(** The key carried by the last PUSH of sender [s] in a run, if any. *)
Definition last_key_of (s : NodeId) (ms : list Message) : option PyVal :=
  last ((fun m => value0 (value m)) <$>
        filter (fun m => type m = MessageType.PUSH /\ sender m = s) ms).

(** The elements of a list in the order of their first occurrence. *)
Definition first_occurrences (l : list NodeId) : list NodeId :=
  reverse (remove_dups (reverse l)).

(** An asynchronous ChordNode with delta 4. *)
Definition chord_async : ChordNode Z Z := mkChordNode node_async [1; 3; 2] [].

(** A second base node, a peer of [node_sync]. *)
Definition node_peer : GossipNode Z Z := mkGossipNode 1 (9, None) 10 20 true 6 net4.





(** What one delivered message does to a local cache, and the insertion of
    a key that is not yet present. *)
Definition lc_step (lc : dict PyVal) (m : Message) : dict PyVal :=
  if decide (type m = MessageType.PUSH)
  then dict_set (sender m) (value0 (value m)) lc
  else lc.

Definition add_new (acc : list NodeId) (x : NodeId) : list NodeId :=
  if decide (x ∈ acc) then acc else acc ++ [x].

(** Two ChordNodes and two All2AllGossipNodes with empty local caches. *)
Definition chord_a : ChordNode Z Z := mkChordNode node_sync [0; 2; 1] [].

Definition chord_b : ChordNode Z Z := mkChordNode node_peer [1; 3; 2] [].

Definition a2a_a : All2AllGossipNode Z Z := mkAll2AllGossipNode node_sync [].

Definition a2a_b : All2AllGossipNode Z Z := mkAll2AllGossipNode node_peer [].

(** A cache with three snapshots and three pushes, two of them by sender 2. *)
Definition cache3 : Cache Z :=
  mkCache (<[2%N := 300]> (<[1%N := 200]> (<[0%N := 100]> ∅))) 3%N.

Definition run3 : list (Z * Message) :=
  [(11, mkMessage 10 2 0 MessageType.PUSH (Some [KeyV 0%N]));
   (12, mkMessage 10 1 0 MessageType.PUSH (Some [KeyV 1%N]));
   (13, mkMessage 12 2 0 MessageType.PUSH (Some [KeyV 2%N]))].

(** A partitioned model without any partition. *)
Definition world_part_empty
    : World (PartitionedTMH Z) (GossipNode (PartitionedTMH Z) Z) (list Q) :=
  mkWorld (mkGossipNode 0 (5, None) 10 (mkPartitionedTMH []) true 3 net4)
          (mkCache ∅ 0%N) [3 # 1]%Q.



(** ** Data dispatching ([gossipy.data]) and the generation of the nodes

    The data module raises exceptions that the engine does not: its
    computations return an [Outcome]. *)

Inductive PyExn : Type :=
| EngineExn (e : Exn)
| AssertionError (reason : string)
| IndexError
| KeyError.

Inductive Outcome (A : Type) : Type :=
| Done (a : A)
| Fail (e : PyExn).
Arguments Done {A} a.
Arguments Fail {A} e.

Definition PyX (S A : Type) : Type := S -> Outcome A * S.

Definition retX {S A : Type} (a : A) : PyX S A := fun s => (Done a, s).

Definition bindX {S A B : Type} (m : PyX S A) (k : A -> PyX S B) : PyX S B :=
  fun s => match m s with
           | (Done a, s') => k a s'
           | (Fail e, s') => (Fail e, s')
           end.

Definition liftO {S A : Type} (o : Outcome A) : PyX S A := fun s => (o, s).

Definition liftPy {S A : Type} (m : Py S A) : PyX S A :=
  fun s => match m s with
           | (Ok a, s') => (Done a, s')
           | (Raise e, s') => (Fail (EngineExn e), s')
           end.

Declare Scope pyx_scope.
Delimit Scope pyx_scope with pyx.
Notation "x <~ c1 ;; c2" := (bindX c1 (fun x => c2))
  (at level 100, c1 at next level, right associativity) : pyx_scope.

Definition bindO {A B : Type} (o : Outcome A) (k : A -> Outcome B) : Outcome B :=
  match o with
  | Done a => k a
  | Fail e => Fail e
  end.

Fixpoint mapO {A B : Type} (f : A -> Outcome B) (l : list A) : Outcome (list B) :=
  match l with
  | [] => Done []
  | a :: l' => bindO (f a) (fun b => bindO (mapO f l') (fun bs => Done (b :: bs)))
  end.

(** [assert cond, reason] *)
Definition py_assert (cond : bool) (reason : string) : Outcome unit :=
  if cond then Done tt else Fail (AssertionError reason).

(** [a // b] on Python ints. *)
Definition py_floordiv (a b : Z) : Outcome Z :=
  if b =? 0 then Fail (EngineExn ZeroDivisionError) else Done (a / b).

(** [range(a, b)] *)
Definition py_range (a b : Z) : list Z := seqZ a (b - a).

(** [l[j]] on a list or an array: a negative index counts from the end. *)
Definition py_getitem {A : Type} (l : list A) (j : Z) : Outcome A :=
  let len := Z.of_nat (length l) in
  let j' := if j <? 0 then j + len else j in
  if (0 <=? j') && (j' <? len) then
    match l !! Z.to_nat j' with
    | Some x => Done x
    | None => Fail IndexError
    end
  else Fail IndexError.

(** [a[range(lo, hi)]] on a numpy array: the elements at these indices. *)
Definition np_take (a : list Z) (js : list Z) : Outcome (list Z) :=
  mapO (py_getitem a) js.

(** [numpy.random.seed] and [numpy.random.permutation]: seeding puts the
    generator in the state of the seed; [permutation(k)] is a rearrangement
    of [range(k)]. *)
Class NumpyPermutation (G : Type) : Type := {
  seed_state : Z -> G;
  permutation_draw : Z -> G -> list Z * G;
  permutation_draw_perm :
    forall (k : Z) (g : G), 0 <= k -> (permutation_draw k g).1 ≡ₚ seqZ 0 k
}.

Definition permutation {G : Type} `{NumpyPermutation G} (k : Z) : PyX G (list Z) :=
  if k <? 0 then liftO (Fail (EngineExn (ValueError "negative dimensions")))
  else fun g => let (p, g') := permutation_draw k g in (Done p, g').

(** [DataHandler]: what the dispatcher uses of it, the sizes of the training
    and evaluation labels, [size()], [at(ids)] and [at(ids, True)]. *)
Class DataHandler (DH D : Type) : Type := {
  dh_size : DH -> Z;
  dh_ytr_len : DH -> Z;
  dh_yte_len : DH -> Z;
  dh_at : DH -> list Z -> D;
  dh_at_eval : DH -> list Z -> option D
}.

(** [ModelHandler.copy()] *)
Class ModelHandlerCopy (H : Type) : Type := {
  mh_copy : H -> H
}.

(** [AssignmentHandler.uniform(y, n)], on the number of labels [y.shape[0]]. *)
Definition AssignmentHandler_uniform {G : Type} `{NumpyPermutation G}
    (ylen n : Z) : PyX G (list (list Z)) :=
  (ex_client <~ liftO (py_floordiv ylen n) ;;
   idx <~ permutation ylen ;;
   liftO (mapO (fun i => np_take idx (py_range (ex_client * i) (ex_client * (i + 1))))
               (py_range 0 n)))%pyx.

Record DataDispatcher (DH : Type) : Type := mkDataDispatcher {
  dd_data_handler : DH;
  dd_n : Z;
  dd_eval_on_user : bool;
  dd_tr_assignments : option (list (list Z));
  dd_te_assignments : option (list (list Z))
}.
Arguments mkDataDispatcher {DH} _ _ _ _ _.
Arguments dd_data_handler {DH} d.
Arguments dd_n {DH} d.
Arguments dd_eval_on_user {DH} d.
Arguments dd_tr_assignments {DH} d.
Arguments dd_te_assignments {DH} d.

(** [[[] for _ in range(n)]] *)
Definition empty_assignments (n : Z) : list (list Z) :=
  (fun _ => []) <$> py_range 0 n.

(** [DataDispatcher.assign]: [AssignmentHandler(seed)] seeds the generator. *)
Definition DataDispatcher_assign {DH D G : Type} `{DataHandler DH D}
    `{NumpyPermutation G} (dd : DataDispatcher DH) (seed : Z)
    : PyX G (DataDispatcher DH) :=
  fun _ =>
    (tr <~ AssignmentHandler_uniform (dh_ytr_len (dd_data_handler dd)) (dd_n dd) ;;
     te <~ (if dd_eval_on_user dd
            then AssignmentHandler_uniform (dh_yte_len (dd_data_handler dd)) (dd_n dd)
            else retX (empty_assignments (dd_n dd))) ;;
     retX (mkDataDispatcher (dd_data_handler dd) (dd_n dd) (dd_eval_on_user dd)
             (Some tr) (Some te)))%pyx (seed_state seed).

(** [DataDispatcher.__init__] *)
Definition DataDispatcher_init {DH D G : Type} `{DataHandler DH D}
    `{NumpyPermutation G} (data_handler : DH) (n : Z) (eval_on_user : bool)
    (auto_assign : bool) : PyX G (DataDispatcher DH) :=
  (_ <~ liftO (py_assert (n <=? dh_size data_handler) "") ;;
   let n := if n <=? 1 then dh_size data_handler else n in
   let dd := mkDataDispatcher data_handler n eval_on_user None None in
   if auto_assign then DataDispatcher_assign dd 42 else retX dd)%pyx.

(** [DataDispatcher.set_assignments] *)
Definition DataDispatcher_set_assignments {DH : Type} (dd : DataDispatcher DH)
    (tr_assignments : list (list Z)) (te_assignments : option (list (list Z)))
    : Outcome (DataDispatcher DH) :=
  let te_truthy := match te_assignments with Some (_ :: _) => true | _ => false end in
  bindO (py_assert (Z.of_nat (length tr_assignments) =? dd_n dd) "") (fun _ =>
  bindO (py_assert (negb te_truthy ||
                    (Z.of_nat (length (default [] te_assignments)) =? dd_n dd)) "")
        (fun _ =>
  Done (mkDataDispatcher (dd_data_handler dd) (dd_n dd) (dd_eval_on_user dd)
          (Some tr_assignments)
          (Some (if te_truthy then default [] te_assignments
                 else empty_assignments (dd_n dd)))))).

(** [DataDispatcher.__getitem__] *)
Definition DataDispatcher_getitem {DH D : Type} `{DataHandler DH D}
    (dd : DataDispatcher DH) (idx : Z) : Outcome (D * option D) :=
  bindO (py_assert ((0 <=? idx) && (idx <? dd_n dd)) "Index out of range.") (fun _ =>
  match dd_tr_assignments dd with
  | None => Fail (EngineExn TypeError)
  | Some tr =>
      bindO (py_getitem tr idx) (fun tr_ids =>
      let train := dh_at (dd_data_handler dd) tr_ids in
      match dd_te_assignments dd with
      | None => Fail (EngineExn TypeError)
      | Some te =>
          bindO (py_getitem te idx) (fun te_ids =>
          Done (train, dh_at_eval (dd_data_handler dd) te_ids))
      end)
  end).

(** [DataDispatcher.size] *)
Definition DataDispatcher_size {DH : Type} (dd : DataDispatcher DH) : Z := dd_n dd.

(** The loop of [GossipNode.generate], and [generate] itself; [cls] is the
    constructor of the class on which the class method is called. *)
Fixpoint generate_loop {H D DH G N : Type} `{DataHandler DH D} `{ModelHandlerCopy H}
    (cls : NodeId -> D * option D -> Z -> H -> P2PNetwork -> bool -> Py G N)
    (data_dispatcher : DataDispatcher DH) (p2p_net : P2PNetwork) (model_proto : H)
    (round_len : Z) (sync : bool) (idxs : list Z) (nodes : dict N)
    : PyX G (dict N) :=
  match idxs with
  | [] => retX nodes
  | idx :: rest =>
      (data <~ liftO (DataDispatcher_getitem data_dispatcher idx) ;;
       node <~ liftPy (cls idx data round_len (mh_copy model_proto) p2p_net sync) ;;
       generate_loop cls data_dispatcher p2p_net model_proto round_len sync rest
         (dict_set idx node nodes))%pyx
  end.

Definition generate {H D DH G N : Type} `{DataHandler DH D} `{ModelHandlerCopy H}
    (cls : NodeId -> D * option D -> Z -> H -> P2PNetwork -> bool -> Py G N)
    (data_dispatcher : DataDispatcher DH) (p2p_net : P2PNetwork) (model_proto : H)
    (round_len : Z) (sync : bool) : PyX G (dict N) :=
  generate_loop cls data_dispatcher p2p_net model_proto round_len sync
    (py_range 0 (P2PNetwork_size p2p_net)) [].

(** Concrete collaborators of the data module: a data handler that is the
    pair of the sizes of its training and evaluation sets and hands out the
    ids asked for; a generator whose permutation reverses. *)
#[export] Instance SizesHandler : DataHandler (Z * Z) (list Z) := {|
  dh_size dh := dh.1;
  dh_ytr_len dh := dh.1;
  dh_yte_len dh := dh.2;
  dh_at dh ids := ids;
  dh_at_eval dh ids := Some ids
|}.

#[export] Instance TapePermutation : NumpyPermutation (list Q).
Proof.
  refine {| seed_state s := [inject_Z s];
            permutation_draw k g := (reverse (seqZ 0 k), tail g) |}.
  intros k g _. simpl. apply reverse_Permutation.
Defined.

#[export] Instance IdCopy : ModelHandlerCopy Z := {| mh_copy h := h |}.





(** A data handler with ten training and four evaluation examples, and a
    dispatcher over five clients whose assignments are set by hand. *)
Definition sizes_10_4 : Z * Z := (10, 4).

Definition dd_unassigned : DataDispatcher (Z * Z) :=
  mkDataDispatcher sizes_10_4 2 true None None.

Definition dd_by_hand : DataDispatcher (Z * Z) :=
  mkDataDispatcher sizes_10_4 2 true (Some [[0; 1; 2]; [3; 4]]) (Some [[]; [0]]).

Definition net2 : P2PNetwork := mkP2PNetwork 2 (fun _ => []).

(** What holds of the node generated for index [i]. *)
Definition generated_for {H D DH : Type} `{DataHandler DH D}
    `{ModelHandlerCopy H} (dd : DataDispatcher DH) (net : P2PNetwork) (proto : H)
    (R : Z) (s : bool) (i : Z) (node : GossipNode H D) : Prop :=
  idx node = i /\ round_len node = R /\ sync node = s /\
  model_handler node = mh_copy proto /\ p2p_net node = net /\
  DataDispatcher_getitem dd i = Done (data node) /\
  (s = true -> 0 <= delta node < R).

(** The loop of [get_FEMNIST], on the per-client numbers of training and of
    evaluation examples that it has loaded; the loop state is
    [(sum_tr, sum_te, tr_assignment, te_assignment)]. *)
Definition get_FEMNIST_step (ids_tr ids_te : list Z)
    (st : Z * Z * list (list Z) * list (list Z)) (i : Z)
    : Outcome (Z * Z * list (list Z) * list (list Z)) :=
  let '(sum_tr, sum_te, tr_assignment, te_assignment) := st in
  bindO (py_getitem ids_tr i) (fun ntr =>
  bindO (py_getitem ids_te i) (fun nte =>
  Done (sum_tr, sum_te,
        tr_assignment ++ [py_range sum_tr (sum_tr + ntr)],
        te_assignment ++ [py_range sum_te (sum_te + nte)]))).

Fixpoint foldO {A B : Type} (f : A -> B -> Outcome A) (l : list B) (a : A)
    : Outcome A :=
  match l with
  | [] => Done a
  | b :: l' => bindO (f a b) (foldO f l')
  end.

(** The two assignments that [get_FEMNIST] returns. *)
Definition get_FEMNIST_assignments (ids_tr ids_te : list Z)
    : Outcome (list (list Z) * list (list Z)) :=
  bindO (foldO (get_FEMNIST_step ids_tr ids_te)
               (py_range 0 (Z.of_nat (length ids_tr))) (0, 0, [], []))
        (fun st => let '(_, _, tr_assignment, te_assignment) := st in
                   Done (tr_assignment, te_assignment)).

(** The loop of [load_recsys_dataset] over the lines of the ratings file,
    each line taken after its parsing into (user, item, rating); the loop
    state is made of [ratings], [umap], [imap], [ucnt] and [icnt]. *)
Record RecSys (R : Type) : Type := mkRecSys {
  ratings : dict (list (Z * R));
  umap : dict Z;
  imap : dict Z;
  ucnt : Z;
  icnt : Z
}.
Arguments mkRecSys {R} ratings umap imap ucnt icnt.
Arguments ratings {R} r.
Arguments umap {R} r.
Arguments imap {R} r.
Arguments ucnt {R} r.
Arguments icnt {R} r.

(** [d[k]] on a dict: KeyError when the key is missing. *)
Definition py_dict_get {V : Type} (d : dict V) (k : Z) : Outcome V :=
  match dict_get k d with
  | Some v => Done v
  | None => Fail KeyError
  end.

Definition load_recsys_line {R : Type} (st : RecSys R) (line : Z * Z * R)
    : Outcome (RecSys R) :=
  let '(u, i, r) := line in
  bindO (match dict_get u (umap st) with
         | Some _ => Done st
         | None =>
             let umap1 := dict_set u (ucnt st) (umap st) in
             bindO (py_dict_get umap1 u) (fun uu =>
             Done (mkRecSys (dict_set uu [] (ratings st)) umap1 (imap st)
                     (ucnt st + 1) (icnt st)))
         end) (fun st =>
  let st := match dict_get i (imap st) with
            | Some _ => st
            | None => mkRecSys (ratings st) (umap st)
                        (dict_set i (icnt st) (imap st)) (ucnt st) (icnt st + 1)
            end in
  bindO (py_dict_get (umap st) u) (fun uu =>
  bindO (py_dict_get (ratings st) uu) (fun l =>
  bindO (py_dict_get (imap st) i) (fun ii =>
  Done (mkRecSys (dict_set uu (l ++ [(ii, r)]) (ratings st)) (umap st) (imap st)
          (ucnt st) (icnt st)))))).

(** [load_recsys_dataset(name)], given the parsed lines of the file. *)
Definition load_recsys_dataset {R : Type} (name : string) (lines : list (Z * Z * R))
    : Outcome (dict (list (Z * R)) * Z * Z) :=
  if bool_decide (name ∈ ["ml-100k"; "ml-1m"; "ml-10m"; "ml-20m"]) then
    bindO (foldO load_recsys_line lines (mkRecSys [] [] [] 0 0))
          (fun st => Done (ratings st, ucnt st, icnt st))
  else Fail (EngineExn (ValueError "Unknown dataset")).

(** The number of ratings held by a table of ratings. *)
Definition n_ratings {R : Type} (d : dict (list (Z * R))) : nat :=
  sum_list (length <$> dict_values d).

(** What the loop keeps true after the lines [ls]. *)
Definition recsys_inv {R : Type} (st : RecSys R) (ls : list (Z * Z * R)) : Prop :=
  (NoDup (dict_keys (umap st)) /\
   (forall u, u ∈ dict_keys (umap st) <-> u ∈ (fun l : Z * Z * R => l.1.1) <$> ls) /\
   Z.of_nat (length (umap st)) = ucnt st /\
   (forall u v, dict_get u (umap st) = Some v -> 0 <= v < ucnt st)) /\
  (NoDup (dict_keys (imap st)) /\
   (forall i, i ∈ dict_keys (imap st) <-> i ∈ (fun l : Z * Z * R => l.1.2) <$> ls) /\
   Z.of_nat (length (imap st)) = icnt st /\
   (forall i v, dict_get i (imap st) = Some v -> 0 <= v < icnt st)) /\
  dict_keys (ratings st) = seqZ 0 (ucnt st) /\
  n_ratings (ratings st) = length ls /\
  (forall k l it r, dict_get k (ratings st) = Some l -> (it, r) ∈ l ->
                    0 <= it < icnt st).



(** Unfolding the monad in a goal. *)
Ltac py_run := unfold bind, ret, raise, gets, modify, lift_result; simpl.

(** ** Timing *)

Section Timing.
Context {H D : Type}.

Lemma py_mod_nonzero (a b : Z) : b <> 0 -> py_mod a b = Ok (a mod b).
Proof. intros Hb. unfold py_mod. destruct (Z.eqb_spec b 0); [lia | done]. Qed.

(** C6: a synchronous node with round length R and delta d in [0, R) times
    out at tick t >= 0 exactly when t mod R = d; an asynchronous node with
    delta d >= 1 times out at t exactly when t mod d = 0. *)
Theorem timed_out_predicate (n : GossipNode H D) (t : Z) :
  0 <= t ->
  (sync n = true -> 0 <= delta n < round_len n ->
   exists b : bool, GossipNode_timed_out n t = Ok b /\
                    (b = true <-> t mod round_len n = delta n)) /\
  (sync n = false -> 1 <= delta n ->
   exists b : bool, GossipNode_timed_out n t = Ok b /\
                    (b = true <-> t mod delta n = 0)).
Proof.
  intros _. unfold GossipNode_timed_out. split; intros -> Hd.
  - rewrite py_mod_nonzero by lia. eexists; split; [reflexivity|].
    apply Z.eqb_eq.
  - rewrite py_mod_nonzero by lia. eexists; split; [reflexivity|].
    apply Z.eqb_eq.
Qed.
End Timing.

Lemma timed_out_predicate_witness :
  (exists b : bool, GossipNode_timed_out node_sync 13 = Ok b /\
                    (b = true <-> 13 mod 10 = 3)) /\
  (exists b : bool, GossipNode_timed_out node_async 12 = Ok b /\
                    (b = true <-> 12 mod 4 = 0)).
Proof.
  split.
  - apply (proj1 (timed_out_predicate node_sync 13 ltac:(lia)));
      [reflexivity | simpl; lia].
  - apply (proj2 (timed_out_predicate node_async 12 ltac:(lia)));
      [reflexivity | simpl; lia].
Defined.

(** ** The float logarithm

    What a correctly rounded [log2] returns, truncated: the comparisons of
    the contract are between powers whose exponents are of the order of
    [2^53], so they are settled by Bernoulli's inequality and never by
    evaluation. *)

Section FloatLog2.

(** Bernoulli's inequality on integers, from above and from below. *)
Lemma bernoulli_up (a m : Z) :
  0 <= a -> 0 <= m -> a ^ m * (a + m) <= a * (a + 1) ^ m.
Proof.
  intros Ha Hm. revert m Hm. apply natlike_ind.
  - rewrite !Z.pow_0_r. lia.
  - intros m Hm IH. rewrite !Z.pow_succ_r by lia.
    assert (0 <= a ^ m) by (apply Z.pow_nonneg; lia).
    generalize dependent (a ^ m). generalize ((a + 1) ^ m). intros y x IH Hx.
    nia.
Qed.

Lemma bernoulli_down (a m : Z) :
  1 <= a -> 0 <= m -> a ^ m * (a - m) <= a * (a - 1) ^ m.
Proof.
  intros Ha Hm. revert m Hm. apply natlike_ind.
  - rewrite !Z.pow_0_r. lia.
  - intros m Hm IH. rewrite !Z.pow_succ_r by lia.
    assert (0 <= a ^ m) by (apply Z.pow_nonneg; lia).
    generalize dependent (a ^ m). generalize ((a - 1) ^ m). intros y x IH Hx.
    nia.
Qed.

(** [(1 - 1/a)^m < 1/2] once [m >= a], and [(1 - 1/a)^m >= 1/2] at [a = 2 m]. *)
Lemma pow_pred_below_half (a m : Z) :
  1 <= a <= m -> 2 * (a - 1) ^ m < a ^ m.
Proof.
  intros Ham.
  pose proof (bernoulli_up a m ltac:(lia) ltac:(lia)) as Hup.
  assert (Hsq : ((a - 1) * (a + 1)) ^ m < (a * a) ^ m)
    by (apply Z.pow_lt_mono_l; nia).
  rewrite !Z.pow_mul_l in Hsq.
  assert (Hx : 0 < a ^ m) by (apply Z.pow_pos_nonneg; lia).
  assert (Hy : 0 <= (a - 1) ^ m) by (apply Z.pow_nonneg; lia).
  generalize dependent (a ^ m). generalize dependent ((a - 1) ^ m).
  generalize ((a + 1) ^ m). intros z y Hy x Hup Hsq Hx.
  assert (2 * x <= z) by nia.
  nia.
Qed.

Lemma pow_pred_above_half (m : Z) :
  1 <= m -> (2 * m) ^ m <= 2 * (2 * m - 1) ^ m.
Proof.
  intros Hm.
  pose proof (bernoulli_down (2 * m) m ltac:(lia) ltac:(lia)) as Hdn.
  assert (Hx : 0 < (2 * m) ^ m) by (apply Z.pow_pos_nonneg; lia).
  generalize dependent ((2 * m) ^ m). generalize ((2 * m - 1) ^ m).
  intros y x Hdn Hx. nia.
Qed.

Lemma pow_below_half (n a m : Z) :
  0 <= n < a -> a <= m -> 2 * n ^ m < a ^ m.
Proof.
  intros Hn Ham.
  pose proof (pow_pred_below_half a m ltac:(lia)) as Hhalf.
  assert (Hmono : n ^ m <= (a - 1) ^ m) by (apply Z.pow_le_mono_l; lia).
  generalize dependent (n ^ m). generalize dependent ((a - 1) ^ m).
  generalize (a ^ m). intros. lia.
Qed.

Lemma pow_below_half_even (n m : Z) :
  0 <= n <= 2 * (m - 1) -> 1 <= m -> 2 * n ^ m < (2 * m) ^ m.
Proof.
  intros Hn Hm.
  pose proof (pow_pred_below_half m m ltac:(lia)) as Hhalf.
  assert (Hmono : n ^ m <= (2 * (m - 1)) ^ m) by (apply Z.pow_le_mono_l; lia).
  rewrite Z.pow_mul_l in Hmono |- *.
  assert (Hp : 0 < 2 ^ m) by (apply Z.pow_pos_nonneg; lia).
  generalize dependent (n ^ m). generalize dependent ((m - 1) ^ m).
  generalize dependent (2 ^ m). generalize (m ^ m). intros. nia.
Qed.

(** Below [2^49 - 1] the logarithm is more than half a unit in the last
    place under the next integer: with [k = floor(log2 n)],
    [n ^ (2^48) < 2 ^ ((k + 1) * 2^48 - 1)]. *)
Lemma log2_clear_of_next (n : Z) :
  1 <= n < 2 ^ 49 - 1 ->
  n ^ 2 ^ 48 < 2 ^ ((Z.log2 n + 1) * 2 ^ 48 - 1).
Proof.
  intros Hn.
  destruct (Z.log2_spec n ltac:(lia)) as [_ Hhi].
  pose proof (Z.log2_nonneg n) as Hk0.
  assert (Hk : Z.log2 n < 49) by (apply Z.log2_lt_pow2; lia).
  replace (Z.succ (Z.log2 n)) with (Z.log2 n + 1) in Hhi by lia.
  generalize dependent (Z.log2 n). intros k Hhi Hk0 Hk.
  assert (Hhalf : 2 * n ^ 2 ^ 48 < (2 ^ (k + 1)) ^ 2 ^ 48).
  { destruct (Z.eq_dec k 48) as [->|Hne].
    - apply (pow_below_half_even n (2 ^ 48)); lia.
    - apply pow_below_half; [lia|].
      apply Z.pow_le_mono_r; lia. }
  assert (Hpm : (2 ^ (k + 1)) ^ 2 ^ 48 = 2 * 2 ^ ((k + 1) * 2 ^ 48 - 1)).
  { clear Hhalf. rewrite <- Z.pow_mul_r, <- Z.pow_succ_r by lia. f_equal. lia. }
  rewrite Hpm in Hhalf. clear -Hhalf.
  generalize dependent (n ^ 2 ^ 48). generalize (2 ^ ((k + 1) * 2 ^ 48 - 1)).
  intros. lia.
Qed.

Lemma binary64_nonneg (c : Z) : binary64 c -> 0 <= c.
Proof.
  intros (s & e & Hs & He & ->).
  assert (0 < 2 ^ e) by (apply Z.pow_pos_nonneg; lia). nia.
Qed.

Lemma binary64_integer (k : Z) : 0 <= k < 2 ^ 53 -> binary64 (k * 2 ^ 52).
Proof. intros Hk. exists k, 52. lia. Qed.

(** The float [2^-47] below an integer of [[1, 64]]. *)
Lemma binary64_below_integer (k : Z) :
  1 <= k <= 64 -> binary64 (k * 2 ^ 52 - 32).
Proof. intros Hk. exists (k * 2 ^ 47 - 1), 5. lia. Qed.

(** Above 32, floats are at least [2^-47] apart. *)
Lemma binary64_gap (k c : Z) :
  32 < k -> binary64 c -> c < k * 2 ^ 52 -> c <= k * 2 ^ 52 - 32.
Proof.
  intros Hk (s & e & Hs & He & ->) Hlt.
  destruct (Z.le_gt_cases 5 e) as [He5|He5].
  - replace e with (5 + (e - 5)) in * by lia.
    rewrite Z.pow_add_r in * by lia.
    assert (0 < 2 ^ (e - 5)) by (apply Z.pow_pos_nonneg; lia).
    replace (s * (2 ^ 5 * 2 ^ (e - 5))) with (32 * (s * 2 ^ (e - 5))) in * by ring.
    generalize dependent (s * 2 ^ (e - 5)). intros q Hlt. lia.
  - assert (2 ^ e <= 2 ^ 4) by (apply Z.pow_le_mono_r; lia).
    assert (0 < 2 ^ e) by (apply Z.pow_pos_nonneg; lia).
    generalize dependent (2 ^ e). intros p Hlt Hp Hp0. nia.
Qed.

Lemma pow2_le_inv (a b : Z) : 0 <= a -> 2 ^ a <= 2 ^ b -> a <= b.
Proof.
  intros Ha Hle. destruct (Z.le_gt_cases a b) as [|Hgt]; [done|].
  destruct (Z.le_gt_cases 0 b) as [Hb|Hb].
  - pose proof (Z.pow_lt_mono_r 2 b a ltac:(lia) ltac:(lia) ltac:(lia)). lia.
  - rewrite (Z.pow_neg_r 2 b) in Hle by lia.
    pose proof (Z.pow_pos_nonneg 2 a ltac:(lia) Ha). lia.
Qed.

(** [int] of a float given as a fraction over [2^52]. *)
Lemma py_int_dyadic (r : Q) (c k : Z) :
  Qeq r (c # 2 ^ 52) -> 0 <= k -> k * 2 ^ 52 <= c < (k + 1) * 2 ^ 52 ->
  py_int r = k.
Proof.
  unfold Qeq, py_int. destruct r as [a b]. simpl. intros Heq Hk Hc.
  change (Z.pos (2 ^ 52)) with (2 ^ 52) in Heq.
  rewrite Z.quot_div_nonneg by nia.
  symmetry. apply Z.div_unique with (r := a - k * Z.pos b); nia.
Qed.

(** A correctly rounded [log2], truncated, is the integer logarithm for
    every argument below [2^49 - 1]. *)
Lemma int_log2_nearest (n : Z) (r : Q) :
  1 <= n < 2 ^ 49 - 1 -> log2_nearest n r -> py_int r = Z.log2 n.
Proof.
  intros Hn (c & Hb & Hr & Hnear).
  pose proof (binary64_nonneg c Hb) as Hc0.
  destruct (Z.log2_spec n ltac:(clear -Hn; lia)) as [Hlo _].
  pose proof (Z.log2_nonneg n) as Hk0.
  assert (Hk : Z.log2 n < 49) by (apply Z.log2_lt_pow2; clear -Hn; lia).
  pose proof (log2_clear_of_next n Hn) as Hnext.
  generalize dependent (Z.log2 n). intros k Hlo Hk0 Hk Hnext.
  apply (py_int_dyadic r c k Hr Hk0). split.
  - destruct (Z.le_gt_cases (k * 2 ^ 52) c) as [|Hlt]; [done|]. exfalso.
    destruct (Hnear (k * 2 ^ 52) (binary64_integer k ltac:(clear -Hk0 Hk; lia)))
      as [_ Hup].
    specialize (Hup Hlt).
    assert (Hpow : 2 ^ (k * 2 ^ 53) <= n ^ 2 ^ 53).
    { clear -Hlo Hk0. rewrite Z.pow_mul_r by lia. apply Z.pow_le_mono_l. lia. }
    assert (Hle : k * 2 ^ 53 <= c + k * 2 ^ 52).
    { clear -Hpow Hup Hk0. apply pow2_le_inv; [clear -Hk0; lia|].
      etransitivity; eassumption. }
    clear -Hle Hlt. lia.
  - destruct (Z.le_gt_cases ((k + 1) * 2 ^ 52) c) as [Hge|]; [|done]. exfalso.
    destruct (Hnear ((k + 1) * 2 ^ 52 - 32)
                (binary64_below_integer (k + 1) ltac:(clear -Hk0 Hk; lia)))
      as [Hdn _].
    specialize (Hdn ltac:(clear -Hge; lia)).
    assert (Hmono : 2 ^ ((k + 1) * 2 ^ 53 - 32) <= 2 ^ (c + ((k + 1) * 2 ^ 52 - 32))).
    { clear -Hge Hk0. apply Z.pow_le_mono_r; lia. }
    assert (Hsplit : n ^ 2 ^ 53 = (n ^ 2 ^ 48) ^ 32).
    { clear. rewrite <- Z.pow_mul_r by lia. reflexivity. }
    assert (Hsplit2 : 2 ^ ((k + 1) * 2 ^ 53 - 32)
                      = (2 ^ ((k + 1) * 2 ^ 48 - 1)) ^ 32).
    { clear -Hk0. rewrite <- Z.pow_mul_r by lia. f_equal. lia. }
    assert (Hlt : (n ^ 2 ^ 48) ^ 32 < (2 ^ ((k + 1) * 2 ^ 48 - 1)) ^ 32).
    { apply Z.pow_lt_mono_l; [clear; lia|]. split; [|done].
      apply Z.pow_nonneg. clear -Hn. lia. }
    rewrite <- Hsplit, <- Hsplit2 in Hlt.
    clear -Hlt Hmono Hdn.
    generalize dependent (n ^ 2 ^ 53).
    generalize dependent (2 ^ ((k + 1) * 2 ^ 53 - 32)).
    generalize (2 ^ (c + ((k + 1) * 2 ^ 52 - 32))). intros. lia.
Qed.

(** The logarithm of a power of two is a float: every rounding returns it. *)
Lemma log2_nearest_pow2 (k : Z) :
  0 <= k < 2 ^ 53 -> log2_nearest (2 ^ k) (inject_Z k).
Proof.
  intros Hk. exists (k * 2 ^ 52). split; [by apply binary64_integer|].
  split.
  { unfold Qeq, inject_Z. simpl. change (Z.pos (2 ^ 52)) with (2 ^ 52). lia. }
  intros c' Hc'. pose proof (binary64_nonneg c' Hc') as Hc0.
  rewrite <- Z.pow_mul_r by lia.
  split; intros Hlt; apply Z.pow_le_mono_r; lia.
Qed.

(** At [2^49 - 1] the logarithm is within half a unit in the last place of
    49: the correctly rounded result is 49.0. *)
Lemma log2_nearest_overshoot : log2_nearest (2 ^ 49 - 1) 49.
Proof.
  exists (49 * 2 ^ 52). split; [apply binary64_integer; lia|].
  split; [reflexivity|].
  intros c' Hc'. pose proof (binary64_nonneg c' Hc') as Hc0. split; intros Hlt.
  - pose proof (binary64_gap 49 c' ltac:(lia) Hc' Hlt) as Hgap.
    assert (Hhalf : 2 ^ (49 * 2 ^ 48 - 1) <= (2 ^ 49 - 1) ^ 2 ^ 48).
    { clear. assert (E : 2 * 2 ^ 48 - 1 = 2 ^ 49 - 1) by lia.
      pose proof (pow_pred_above_half (2 ^ 48) ltac:(lia)) as Hhalf.
      assert (Hpm : (2 * 2 ^ 48) ^ 2 ^ 48 = 2 * 2 ^ (49 * 2 ^ 48 - 1)).
      { clear. rewrite <- (Z.pow_succ_r 2 48), <- Z.pow_mul_r, <- Z.pow_succ_r by lia.
        f_equal. }
      rewrite Hpm in Hhalf. clear Hpm.
      rewrite E in Hhalf. clear E.
      generalize dependent ((2 ^ 49 - 1) ^ 2 ^ 48).
      generalize (2 ^ (49 * 2 ^ 48 - 1)). intros. lia. }
    assert (Hpow : (2 ^ (49 * 2 ^ 48 - 1)) ^ 32 <= ((2 ^ 49 - 1) ^ 2 ^ 48) ^ 32).
    { apply Z.pow_le_mono_l. split; [|done]. apply Z.pow_nonneg. clear. lia. }
    rewrite <- !Z.pow_mul_r in Hpow by (clear; lia).
    etransitivity; [|exact Hpow].
    apply Z.pow_le_mono_r; clear -Hgap Hc0; lia.
  - assert (Hle : (2 ^ 49 - 1) ^ 2 ^ 53 <= (2 ^ 49) ^ 2 ^ 53)
      by (apply Z.pow_le_mono_l; clear; lia).
    rewrite <- Z.pow_mul_r in Hle by (clear; lia).
    etransitivity; [exact Hle|]. apply Z.pow_le_mono_r; clear -Hlt; lia.
Qed.


(** A predicate that holds at 0 and fails at [b] stops holding somewhere. *)
Lemma last_true (P : Z -> Prop) (b : Z) :
  (forall i, P i \/ ~ P i) -> 0 <= b -> P 0 -> ~ P b ->
  exists i, 0 <= i < b /\ P i /\ ~ P (i + 1).
Proof.
  intros Hdec Hb. revert b Hb. apply (natlike_ind (fun b => P 0 -> ~ P b -> _)).
  - intros H0 Hn0. done.
  - intros b Hb IH H0 Hnb. destruct (Hdec b) as [Hpb|Hnpb].
    + exists b. split; [lia|]. split; [done|]. by replace (b + 1) with (Z.succ b) by lia.
    + destruct (IH H0 Hnpb) as (i & Hi & HPi & HnPi). exists i. split; [lia|done].
Qed.

(** From [2^j] on, floats are multiples of [2^(j - 52)]. *)
Lemma binary64_multiple (j c : Z) :
  0 <= j -> binary64 c -> 2 ^ (j + 52) <= c -> exists q, c = q * 2 ^ j.
Proof.
  intros Hj (s & e & Hs & He & ->) Hle.
  destruct (Z.le_gt_cases j e) as [Hje|Hje].
  - exists (s * 2 ^ (e - j)). rewrite <- Z.mul_assoc, <- Z.pow_add_r by lia.
    do 2 f_equal. lia.
  - exfalso.
    assert (2 ^ e <= 2 ^ (j - 1)) by (apply Z.pow_le_mono_r; lia).
    assert (Hp : 2 ^ (j + 52) = 2 ^ 53 * 2 ^ (j - 1)).
    { rewrite <- Z.pow_add_r by lia. f_equal. lia. }
    assert (0 < 2 ^ (j - 1)) by (apply Z.pow_pos_nonneg; lia).
    assert (0 < 2 ^ e) by (apply Z.pow_pos_nonneg; lia).
    rewrite Hp in Hle. generalize dependent (2 ^ e). generalize dependent (2 ^ (j - 1)).
    intros. nia.
Qed.

(** The contract can be met: every integer of [[1, 2^53)] has a nearest
    float logarithm. *)
Lemma log2_nearest_exists (n : Z) :
  1 <= n < 2 ^ 53 -> exists r : Q, log2_nearest n r.
Proof.
  intros Hn.
  destruct (Z.log2_spec n ltac:(lia)) as [Hlo Hhi].
  pose proof (Z.log2_nonneg n) as Hk0.
  assert (Hk : Z.log2 n < 53) by (apply Z.log2_lt_pow2; lia).
  replace (Z.succ (Z.log2 n)) with (Z.log2 n + 1) in Hhi by lia.
  generalize dependent (Z.log2 n). intros k Hlo Hhi Hk0 Hk.
  destruct (Z.eq_dec k 0) as [->|Hk1].
  { assert (n = 1) as -> by (change (2 ^ (0 + 1)) with 2 in Hhi; lia).
    exists (inject_Z 0). exact (log2_nearest_pow2 0 ltac:(lia)). }
  destruct (Z.log2_spec k ltac:(lia)) as [Hjlo Hjhi].
  pose proof (Z.log2_nonneg k) as Hj0.
  assert (Hj : Z.log2 k < 6) by (apply Z.log2_lt_pow2; lia).
  replace (Z.succ (Z.log2 k)) with (Z.log2 k + 1) in Hjhi by lia.
  generalize dependent (Z.log2 k). intros j Hjlo Hjhi Hj0 Hj.
  assert (Hu : 0 < 2 ^ j) by (apply Z.pow_pos_nonneg; lia).
  assert (HI : 2 ^ j * 2 ^ (52 - j) = 2 ^ 52)
    by (rewrite <- Z.pow_add_r by lia; f_equal; lia).
  assert (HI0 : 0 < 2 ^ (52 - j)) by (apply Z.pow_pos_nonneg; lia).
  rewrite Z.pow_add_r in Hjhi by lia. change (2 ^ 1) with 2 in Hjhi.
  set (u := 2 ^ j) in *. set (I := 2 ^ (52 - j)) in *.
  set (cand := fun i : Z => k * 2 ^ 52 + i * u).
  set (Below := fun c : Z => 2 ^ (2 * c) <= n ^ 2 ^ 53).
  assert (Hcand : forall i, 0 <= i <= I -> binary64 (cand i)).
  { intros i Hi. subst cand. simpl. rewrite <- HI.
    destruct (Z.eq_dec (k * I + i) (2 ^ 53)) as [Heq|Hne].
    - exists 1, (53 + j). split; [lia|]. split; [lia|].
      rewrite Z.pow_add_r by lia. fold u. rewrite <- Heq. ring.
    - exists (k * I + i), j. fold u. split; [|split; [lia | ring]].
      assert (k * I + i <= 2 ^ 53); [|lia].
      clearbody u I. nia. }
  assert (Hmult : forall c', binary64 c' -> k * 2 ^ 52 <= c' ->
                             exists q, c' = q * u).
  { intros c' Hc' Hle. apply binary64_multiple; [done..|].
    rewrite Z.pow_add_r by lia. fold u. clearbody u. nia. }
  destruct (last_true (fun i => Below (cand i)) I) as (i & Hi & Hbel & Hnbel).
  { intros i. subst Below. simpl. destruct (Z_le_dec (2 ^ (2 * cand i)) (n ^ 2 ^ 53));
      [by left | by right]. }
  { lia. }
  { subst Below cand. simpl. rewrite Z.mul_0_l, Z.add_0_r.
    replace (2 * (k * 2 ^ 52)) with (k * 2 ^ 53) by lia.
    rewrite Z.pow_mul_r by lia. apply Z.pow_le_mono_l. clear -Hlo Hk0. lia. }
  { subst Below cand. simpl. rewrite <- HI.
    replace (2 * (k * (u * I) + I * u)) with ((k + 1) * 2 ^ 53).
    2:{ clear -HI. replace (2 ^ 53) with (2 * 2 ^ 52) by done. rewrite <- HI. ring. }
    rewrite Z.pow_mul_r by lia. apply Z.lt_nge.
    apply Z.pow_lt_mono_l; clear -Hhi Hn; lia. }
  set (lo := cand i) in *. set (hi := cand (i + 1)) in *.
  assert (Hlohi : hi = lo + u) by (subst lo hi cand; simpl; ring).
  assert (Hlo_b : binary64 lo) by (apply Hcand; lia).
  assert (Hhi_b : binary64 hi) by (apply Hcand; lia).
  assert (Hlo_ge : k * 2 ^ 52 <= lo) by (subst lo cand; simpl; clearbody u; nia).
  assert (Hgap : forall c', binary64 c' -> (lo < c' -> hi <= c') /\ (c' < hi -> c' <= lo)).
  { intros c' Hc'.
    destruct (Z.le_gt_cases (k * 2 ^ 52) c') as [Hge|Hlt]; [|lia].
    destruct (Hmult c' Hc' Hge) as (q & ->).
    rewrite Hlohi. subst lo cand. simpl. rewrite <- HI.
    replace (k * (u * I) + i * u) with ((k * I + i) * u) by ring.
    clear -Hu. clearbody u. generalize (k * I + i). intros q0.
    split; intros Hlt.
    - assert (q0 < q) by nia. nia.
    - assert (q <= q0) by nia. nia. }
  assert (Hlo0 : 0 <= lo) by (by apply binary64_nonneg).
  subst Below. simpl in Hbel, Hnbel. fold lo in Hbel. fold hi in Hnbel.
  apply Z.nle_gt in Hnbel.
  clear Hcand Hmult Hlo Hhi.
  destruct (Z_le_dec (2 ^ (lo + hi)) (n ^ 2 ^ 53)) as [Hmid|Hmid].
  - exists (hi # 2 ^ 52). exists hi. split; [done|]. split; [reflexivity|].
    intros c' Hc'. destruct (Hgap c' Hc') as [_ Hdn].
    pose proof (binary64_nonneg c' Hc') as Hc0. split; intros Hlt.
    + etransitivity; [|exact Hmid]. specialize (Hdn Hlt).
      apply Z.pow_le_mono_r; clear -Hdn; lia.
    + apply Z.lt_le_incl. eapply Z.lt_le_trans; [exact Hnbel|].
      apply Z.pow_le_mono_r; clear -Hlt; lia.
  - apply Z.nle_gt in Hmid.
    exists (lo # 2 ^ 52). exists lo. split; [done|]. split; [reflexivity|].
    intros c' Hc'. destruct (Hgap c' Hc') as [Hup _].
    pose proof (binary64_nonneg c' Hc') as Hc0. split; intros Hlt.
    + etransitivity; [|exact Hbel]. apply Z.pow_le_mono_r; clear -Hlt Hc0 Hlo0; lia.
    + apply Z.lt_le_incl. eapply Z.lt_le_trans; [exact Hmid|].
      specialize (Hup Hlt). apply Z.pow_le_mono_r; clear -Hup; lia.
Qed.
End FloatLog2.

(** ** Construction *)

Section Construction.
Context {H D G : Type} `{NumpyRandom G} `{MathLog2}.

Lemma randint_ok (lo hi : Z) (g : G) :
  lo < hi ->
  randint lo hi g = (Ok (randint_draw lo hi g).1, (randint_draw lo hi g).2).
Proof.
  intros Hlt. unfold randint. destruct (Z.ltb_spec lo hi); [|lia].
  by destruct (randint_draw lo hi g).
Qed.

Lemma normal_ok (loc scale : Q) (g : G) :
  Qle_bool 0 scale = true ->
  normal loc scale g = (Ok (normal_draw loc scale g).1, (normal_draw loc scale g).2).
Proof.
  intros Hs. unfold normal. rewrite Hs. by destruct (normal_draw loc scale g).
Qed.

Lemma tenth_nonneg (R : Z) : 0 <= R -> Qle_bool 0 (R # 10) = true.
Proof.
  intros HR. unfold Qle_bool. simpl. apply Z.leb_le. lia.
Qed.

(** The node built by [GossipNode.__init__] when the round length is
    positive: only [delta] is drawn. *)
Lemma GossipNode_init_ok (i : NodeId) (d : D * option D) (R : Z) (h : H)
    (net : P2PNetwork) (s : bool) (g : G) :
  1 <= R ->
  GossipNode_init i d R h net s g =
    if s then (Ok (mkGossipNode i d R h true (randint_draw 0 R g).1 net),
               (randint_draw 0 R g).2)
    else (Ok (mkGossipNode i d R h false
                (py_int (normal_draw (inject_Z R) (R # 10) g).1) net),
          (normal_draw (inject_Z R) (R # 10) g).2).
Proof.
  intros HR. unfold GossipNode_init, bind, ret. destruct s.
  - rewrite randint_ok by lia. reflexivity.
  - rewrite normal_ok by (apply tenth_nonneg; lia). reflexivity.
Qed.

Lemma foldl_cons_step {A B : Type} (f : A -> B -> A) (a : A) (x : B) (l : list B) :
  foldl f a (x :: l) = foldl f (f a x) l.
Proof. reflexivity. Qed.

Lemma finger_step_eq (idx size : Z) (k : nat) (cur : Z) (fing : list Z) :
  finger_step idx size (2 ^ Z.of_nat k, cur, fing) k
  = (2 ^ Z.of_nat (S k), finger_entry idx size k,
     <[k := finger_entry idx size k]> fing).
Proof.
  unfold finger_step, finger_entry. f_equal. f_equal.
  rewrite Nat2Z.inj_succ, Z.pow_succ_r by lia. lia.
Qed.

Lemma finger_loop (idx size : Z) (j : nat) :
  forall (k : nat) (cur : Z) (pre : list Z),
    length pre = k ->
    exists cur' : Z,
      foldl (finger_step idx size) (2 ^ Z.of_nat k, cur, pre ++ replicate j 1)
            (seq k j)
      = (2 ^ Z.of_nat (k + j), cur', pre ++ (finger_entry idx size <$> seq k j)).
Proof.
  induction j as [|j IH]; intros k cur pre Hlen.
  - exists cur. simpl. by rewrite Nat.add_0_r.
  - change (seq k (S j)) with (k :: seq (S k) j).
    change (replicate (S j) 1) with (1 :: replicate j 1).
    rewrite foldl_cons_step, finger_step_eq.
    replace (<[k:=finger_entry idx size k]> (pre ++ 1 :: replicate j 1))
      with ((pre ++ [finger_entry idx size k]) ++ replicate j 1).
    + destruct (IH (S k) (finger_entry idx size k)
                  (pre ++ [finger_entry idx size k])) as [cur' Heq].
      { rewrite length_app. simpl. lia. }
      exists cur'. rewrite Heq.
      replace (S k + j)%nat with (k + S j)%nat by lia.
      by rewrite fmap_cons, <- app_assoc.
    + rewrite insert_app_r_alt by lia.
      replace (k - length pre)%nat with 0%nat by lia.
      by rewrite <- app_assoc.
Qed.

(** Below [2 ^ i <= size] the single conditional subtraction is the
    reduction modulo [size]. *)
Lemma finger_entry_mod (idx size : Z) (i : nat) :
  0 <= idx < size -> 2 ^ Z.of_nat i <= size ->
  finger_entry idx size i = (idx + 2 ^ Z.of_nat i) mod size.
Proof.
  intros Hidx Hpow. unfold finger_entry.
  assert (0 < 2 ^ Z.of_nat i) by (apply Z.pow_pos_nonneg; lia).
  destruct (Z.leb_spec size (idx + 2 ^ Z.of_nat i)).
  - apply Z.mod_unique with (q := 1); lia.
  - symmetry. apply Z.mod_small. lia.
Qed.

Lemma pow2_le_size (size : Z) (i : nat) :
  1 <= size -> (i < Z.to_nat (Z.log2 size + 1))%nat -> 2 ^ Z.of_nat i <= size.
Proof.
  intros Hs Hi.
  pose proof (Z.log2_nonneg size) as Hlg.
  destruct (Z.log2_spec size ltac:(lia)) as [Hlo _].
  transitivity (2 ^ Z.log2 size); [|done].
  apply Z.pow_le_mono_r; lia.
Qed.

Lemma finger_entries_spec (idx size : Z) (m : nat) :
  0 <= idx < size -> 1 <= size -> (m <= Z.to_nat (Z.log2 size + 1))%nat ->
  finger_entry idx size <$> seq 0 m = finger_spec idx size m.
Proof.
  intros Hidx Hs Hm. unfold finger_spec.
  apply list_eq_Forall2, Forall2_fmap, Forall_Forall2_diag, Forall_forall.
  intros i Hi%elem_of_seq. apply finger_entry_mod; [done|].
  apply pow2_le_size; [done | lia].
Qed.

(** The node that [ChordNode.__init__] builds, whatever [math.log2]
    returns: one entry for each position below [int(log2(N)) + 1], each with
    a single conditional subtraction. *)
Lemma ChordNode_init_loop (idx : NodeId) (d : D * option D) (R : Z) (h : H)
    (net : P2PNetwork) (s : bool) (g : G) :
  1 <= P2PNetwork_size net ->
  1 <= R ->
  let N := P2PNetwork_size net in
  let m := Z.to_nat (py_int (math_log2 N) + 1) in
  exists (base : GossipNode H D) (g' : G),
    GossipNode_init idx d R h net s g = (Ok base, g') /\
    ChordNode_init idx d R h net s g =
      (Ok (mkChordNode base (reverse (finger_entry idx N <$> seq 0 m)) []), g').
Proof.
  intros HN HR N m.
  unfold ChordNode_init, bind. rewrite GossipNode_init_ok by done.
  unfold py_int_log2, lift_result. fold N.
  destruct (Z.leb_spec N 0) as [?|_]; [lia|]. fold m.
  destruct (finger_loop idx N m 0 idx [] eq_refl) as [cur' Hloop].
  change (2 ^ Z.of_nat 0) with 1 in Hloop. simpl app in Hloop.
  destruct s; simpl; unfold NodeId in *; rewrite Hloop; unfold ret;
    eexists _, _; split; reflexivity.
Qed.

End Construction.

(** The recorded values of [math.log2] are correctly rounded. *)
Lemma log2_table_nearest :
  Forall (fun p : Z * Q => log2_nearest p.1 p.2) log2_table.
Proof.
  repeat apply Forall_cons_2; [| | | |apply Forall_nil_2].
  - exact (log2_nearest_pow2 1 ltac:(lia)).
  - exact (log2_nearest_pow2 2 ltac:(lia)).
  - exact (log2_nearest_pow2 3 ltac:(lia)).
  - exact log2_nearest_overshoot.
Qed.



Section Delta.
Context {H D G : Type} `{NumpyRandom G}.

Lemma py_int_ge_1 (x : Q) : 1 <= py_int x <-> Qle 1 x.
Proof.
  unfold py_int, Qle. destruct x as [a b]. simpl.
  assert (Hb : 0 < Z.pos b) by lia.
  destruct (Z.le_gt_cases 0 a) as [Ha|Ha].
  - rewrite Z.quot_div_nonneg by lia. split; intros Hq.
    + pose proof (Z.mul_div_le a (Z.pos b) Hb). nia.
    + apply Z.div_le_lower_bound; lia.
  - split; intros Hq; [|lia].
    assert (Hn : - a ÷ Z.pos b = - (a ÷ Z.pos b)) by (apply Z.quot_opp_l; lia).
    assert (0 <= - a ÷ Z.pos b) by (apply Z.quot_pos; lia). lia.
Qed.

(** C2, as the code has it: for a round length R >= 1 the construction
    succeeds; a synchronous node gets a delta in [0, R); an asynchronous node
    gets delta = int(x) for the sample x of normal(R, R/10), without any
    clamp, so that delta >= 1 holds exactly when x >= 1. *)
Theorem delta_at_construction (i : NodeId) (d : D * option D) (R : Z) (h : H)
    (net : P2PNetwork) (s : bool) (g : G) :
  1 <= R ->
  exists (node : GossipNode H D) (g' : G),
    GossipNode_init i d R h net s g = (Ok node, g') /\
    sync node = s /\ round_len node = R /\
    (s = true -> 0 <= delta node < R) /\
    (s = false ->
     let x := (normal_draw (inject_Z R) (R # 10) g).1 in
     delta node = py_int x /\ (1 <= delta node <-> Qle 1 x)).
Proof.
  intros HR. rewrite GossipNode_init_ok by done. destruct s.
  - eexists _, _. split; [reflexivity|]. simpl.
    split; [done|]. split; [done|]. split; [|done].
    intros _. apply randint_draw_range. lia.
  - eexists _, _. split; [reflexivity|]. simpl.
    split; [done|]. split; [done|]. split; [done|].
    intros _. split; [done | apply py_int_ge_1].
Qed.
End Delta.

Lemma delta_at_construction_witness :
  (exists (node : GossipNode Z Z) (g' : list Q),
     GossipNode_init 0 (5, None) 10 7 net4 true [7 # 1]%Q = (Ok node, g') /\
     0 <= delta node < 10) /\
  (exists (node : GossipNode Z Z) (g' : list Q),
     GossipNode_init 0 (5, None) 10 7 net4 false [1 # 2]%Q = (Ok node, g') /\
     delta node = py_int (21 # 2) /\ 1 <= delta node).
Proof.
  split.
  - destruct (delta_at_construction (H := Z) (D := Z) 0 (5, None) 10 7 net4 true
                [7 # 1]%Q ltac:(lia))
      as (node & g' & Hinit & _ & _ & Hsync & _).
    exists node, g'. split; [exact Hinit | apply Hsync; reflexivity].
  - destruct (delta_at_construction (H := Z) (D := Z) 0 (5, None) 10 7 net4 false
                [1 # 2]%Q ltac:(lia))
      as (node & g' & Hinit & _ & _ & _ & Hasync).
    destruct (Hasync eq_refl) as [Hdelta Hge].
    exists node, g'. split; [exact Hinit|]. split.
    + rewrite Hdelta. reflexivity.
    + apply Hge. simpl. unfold Qle. simpl. lia.
Defined.

(** C2, as stated, fails: an asynchronous node with round length 1 whose
    sample of normal(1, 0.1) is 0.95 gets delta = int(0.95) = 0, which is not
    at least 1, and its [timed_out] then divides by zero. *)
Lemma async_delta_not_clamped :
  exists (node : GossipNode Z Z) (g' : list Q),
    GossipNode_init 0 (5, None) 1 7 net4 false [(-1) # 2]%Q = (Ok node, g') /\
    sync node = false /\
    ~ (1 <= delta node) /\
    GossipNode_timed_out node 5 = Raise ZeroDivisionError.
Proof.
  eexists _, _. split; [reflexivity|]. simpl.
  split; [reflexivity|]. split; [|reflexivity].
  vm_compute. intros Hle. by apply Hle.
Qed.

(** ** The base protocol *)

Section BaseProtocol.
Context {H D G : Type} `{ModelHandler H D}.



(** C5: on the base node, receive of a PUSH, REPLY or PUSH_PULL message pops
    the referenced key from the shared Cache and merges the snapshot into the
    local model together with the training data; receive of a PULL or
    PUSH_PULL message then caches a snapshot of the model as it stands after
    that merge and returns a REPLY to the sender carrying the new key; a
    message of any other type is answered by None. *)
Theorem receive_merges_and_replies (w : World H (GossipNode H D) G) (t : Z)
    (msg : Message) :
  let n := self w in
  let merged recv := set_model_handler (mh_call (model_handler n) recv (data n).1) n in
  let reply key := mkMessage t (idx n) (sender msg) MessageType.REPLY (Some [KeyV key]) in
  (type msg = MessageType.PUSH \/ type msg = MessageType.REPLY ->
   GossipNode_receive t msg w =
     match Cache_pop (value0 (value msg)) (CACHE w) with
     | Some (recv, c') => (Ok None, mkWorld (merged recv) c' (RNG w))
     | None => (Raise CacheMiss, w)
     end) /\
  (type msg = MessageType.PUSH_PULL ->
   GossipNode_receive t msg w =
     match Cache_pop (value0 (value msg)) (CACHE w) with
     | Some (recv, c') =>
         let put := Cache_put (model_handler (merged recv)) c' in
         (Ok (Some (reply put.1)), mkWorld (merged recv) put.2 (RNG w))
     | None => (Raise CacheMiss, w)
     end) /\
  (type msg = MessageType.PULL ->
   GossipNode_receive t msg w =
     let put := Cache_put (model_handler n) (CACHE w) in
     (Ok (Some (reply put.1)), mkWorld n put.2 (RNG w))) /\
  (is_pull_pushpull (type msg) = false ->
   forall r w', GossipNode_receive t msg w = (Ok r, w') -> r = None).
Proof.
  intros n merged reply. unfold GossipNode_receive, bind, CACHE_pop.
  destruct w as [n0 c g]. simpl in n. subst n.
  repeat split.
  - intros [-> | ->]; simpl;
      destruct (Cache_pop (value0 (value msg)) c) as [[recv c']|]; reflexivity.
  - intros ->. simpl.
    destruct (Cache_pop (value0 (value msg)) c) as [[recv c']|]; reflexivity.
  - intros ->. reflexivity.
  - intros Hty r w'. rewrite Hty. py_run.
    destruct (is_push_reply_pushpull (type msg)); [|by intros [= <- _]].
    simpl. destruct (Cache_pop (value0 (value msg)) c) as [[recv c']|]; simpl;
      [by intros [= <- _] | done].
Qed.
End BaseProtocol.

(** ** Unsupported protocols *)

Section Unsupported.
Context {H D W G Smp P : Type} `{SamplingTMH H D Smp} `{SliceMerge P D}
  `{NumpyRandom G}.

(** C7: in every variant, send with a protocol outside the variant's
    allowed set raises the unsupported-protocol failure (Python's
    [ValueError]) at once: no snapshot is cached and no message is built, the
    node, the shared Cache and the generator are as they were.  The base,
    sampling and partitioning nodes allow PUSH, PULL and PUSH_PULL; ChordNode
    and All2AllGossipNode allow PUSH only. *)
Theorem unsupported_protocol_fails (t : Z) (peer : NodeId) :
  (forall (w : World H (GossipNode H D) G) (tag : Z),
     GossipNode_send t peer (AntiEntropyProtocol.Other tag) w
       = (Raise (ValueError "Unknown protocol"), w) /\
     SamplingBasedNode_send t peer (AntiEntropyProtocol.Other tag) w
       = (Raise (ValueError "Unknown protocol"), w)) /\
  (forall (w : World (PartitionedTMH P) (GossipNode (PartitionedTMH P) D) G)
          (tag : Z),
     PartitioningBasedNode_send t peer (AntiEntropyProtocol.Other tag) w
       = (Raise (ValueError "Unknown protocol"), w)) /\
  (forall (w : World H (ChordNode H D) G) (sender limit : NodeId)
          (protocol : AntiEntropyProtocol.t),
     protocol <> AntiEntropyProtocol.PUSH ->
     ChordNode_send t sender peer protocol limit w
       = (Raise (ValueError "ChordNode only supports PUSH protocol."), w)) /\
  (forall (w : World H (All2AllGossipNode H D) G)
          (protocol : AntiEntropyProtocol.t),
     protocol <> AntiEntropyProtocol.PUSH ->
     All2AllGossipNode_send t peer protocol w
       = (Raise (ValueError "All2AllNode only supports PUSH protocol."), w)).
Proof.
  repeat split.
  - intros w s l protocol Hp. by destruct protocol.
  - intros w protocol Hp. by destruct protocol.
Qed.
End Unsupported.

(** ** Nodes with a local cache *)

Section LocalCache.
Context {H D W G : Type} `{WeightedTMH H D W}.

Lemma CACHE_pop_live {N : Type} (k : PyVal) (w : World H N G) :
  Cache_live k (CACHE w) = true ->
  exists (v : H) (c' : Cache H),
    Cache_pop k (CACHE w) = Some (v, c') /\
    CACHE_pop k w = (Ok v, set_CACHE c' w).
Proof.
  unfold Cache_live, CACHE_pop, Cache_pop. destruct k as [k| |]; try done.
  intros [v Hv]%bool_decide_eq_true. rewrite Hv. eauto.
Qed.

Lemma Cache_pop_dead (k : PyVal) (c : Cache H) (v : H) (c' : Cache H) :
  Cache_pop k c = Some (v, c') -> Cache_live k c' = false.
Proof.
  unfold Cache_pop, Cache_live. destruct k as [k| |]; try done.
  destruct (store c !! k) eqn:Hk; [|done]. intros [= _ <-]. simpl.
  apply bool_decide_eq_false_2. rewrite lookup_delete_eq. by intros [? ?].
Qed.

(** C10: receive of ChordNode and of All2AllGossipNode never answers: what
    it returns is None, for every message, whenever the stale key it may
    have to release is still held by the Cache (a released key cannot be
    released again, that is a CacheMiss); and a message whose type is not
    PUSH is ignored without raising, the node (its local cache and model
    handler) and the shared Cache staying as they were. *)
Theorem receive_never_replies (t : Z) :
  (forall (w : World H (All2AllGossipNode H D) G) (msg : Message),
     (type msg <> MessageType.PUSH ->
      All2AllGossipNode_receive t msg w = (Ok None, w)) /\
     (forall r w', All2AllGossipNode_receive t msg w = (Ok r, w') -> r = None) /\
     ((forall stale, dict_get (sender msg) (a2a_local_cache (self w)) = Some stale ->
                     Cache_live stale (CACHE w) = true) ->
      (All2AllGossipNode_receive t msg w).1 = Ok None)) /\
  (forall (w : World H (ChordNode H D) G) (msg : ChordMessage),
     (type (chord_msg msg) <> MessageType.PUSH ->
      ChordNode_receive t msg w = (Ok None, w)) /\
     (forall r w', ChordNode_receive t msg w = (Ok r, w') -> r = None) /\
     ((forall stale,
         dict_get (sender (chord_msg msg)) (chord_local_cache (self w)) = Some stale ->
         idx (chord_base (self w)) = limit msg ->
         Cache_live stale (CACHE w) = true) ->
      (ChordNode_receive t msg w).1 = Ok None)).
Proof.
  split.
  - intros w msg. unfold All2AllGossipNode_receive.
    destruct (type msg) eqn:Hty; simpl; try (repeat split; py_run; congruence).
    py_run.
    destruct (dict_get (sender msg) (a2a_local_cache (self w))) as [stale|] eqn:Hs.
    + repeat split; try done.
      * intros r w'. destruct (CACHE_pop stale w) as [[v|e] w1]; py_run; congruence.
      * intros Hlive. destruct (CACHE_pop_live stale w (Hlive _ eq_refl))
          as (v & c' & _ & ->). reflexivity.
    + repeat split; try done. py_run. congruence.
  - intros w msg. unfold ChordNode_receive.
    destruct (type (chord_msg msg)) eqn:Hty; simpl;
      try (repeat split; py_run; congruence).
    py_run.
    destruct (dict_get (sender (chord_msg msg)) (chord_local_cache (self w)))
      as [stale|] eqn:Hs;
      [destruct (Z.eqb_spec (idx (chord_base (self w))) (limit msg)) as [Hlim|Hlim]|].
    + repeat split; try done.
      * intros r w'. destruct (CACHE_pop stale w) as [[v|e] w1]; py_run; congruence.
      * intros Hlive. destruct (CACHE_pop_live stale w (Hlive _ eq_refl Hlim))
          as (v & c' & _ & ->). reflexivity.
    + repeat split; try done. py_run. congruence.
    + repeat split; try done. py_run. congruence.
Qed.
End LocalCache.

(** ** Dictionaries *)

Section Dict.
Context {V : Type}.
Implicit Types (d : dict V) (k : NodeId) (v : V).

Lemma dict_get_Some_keys d k v : dict_get k d = Some v -> k ∈ dict_keys d.
Proof.
  induction d as [|[k' v'] d IH]; simpl; [done|].
  destruct (Z.eqb_spec k k') as [->|Hne]; intros Hg.
  - apply list_elem_of_here.
  - apply list_elem_of_further. by apply IH.
Qed.

Lemma dict_get_None_keys d k : dict_get k d = None <-> k ∉ dict_keys d.
Proof.
  induction d as [|[k' v'] d IH]; simpl.
  - split; [intros _; apply not_elem_of_nil | done].
  - rewrite not_elem_of_cons. destruct (Z.eqb_spec k k') as [->|Hne].
    + split; [done | by intros [? _]].
    + rewrite IH. tauto.
Qed.

Lemma dict_get_Some_values d k v : dict_get k d = Some v -> v ∈ dict_values d.
Proof.
  induction d as [|[k' v'] d IH]; simpl; [done|].
  destruct (Z.eqb_spec k k') as [->|Hne].
  - intros [= ->]. apply list_elem_of_here.
  - intros Hg. apply list_elem_of_further. by apply IH.
Qed.

Lemma dict_get_set_eq d k v : dict_get k (dict_set k v d) = Some v.
Proof.
  induction d as [|[k' v'] d IH]; simpl.
  - by rewrite Z.eqb_refl.
  - destruct (Z.eqb_spec k k') as [->|Hne]; simpl.
    + by rewrite Z.eqb_refl.
    + destruct (Z.eqb_spec k k'); [done | apply IH].
Qed.

Lemma dict_get_set_ne d k k' v : k <> k' -> dict_get k' (dict_set k v d) = dict_get k' d.
Proof.
  intros Hne. induction d as [|[k0 v0] d IH]; simpl.
  - destruct (Z.eqb_spec k' k); [congruence | done].
  - destruct (Z.eqb_spec k k0) as [->|Hne0]; simpl.
    + destruct (Z.eqb_spec k' k0); [congruence | done].
    + destruct (Z.eqb_spec k' k0); [done | apply IH].
Qed.

(** Assignment keeps the keys when the key is present and appends the key
    when it is new. *)
Lemma dict_keys_set d k v :
  dict_keys (dict_set k v d) =
    match dict_get k d with
    | Some _ => dict_keys d
    | None => dict_keys d ++ [k]
    end.
Proof.
  induction d as [|[k' v'] d IH]; simpl; [done|].
  destruct (Z.eqb_spec k k') as [->|Hne]; simpl; [done|].
  unfold dict_keys in *. rewrite IH. by destruct (dict_get k d).
Qed.

Lemma dict_keys_set_elem d k v k' :
  k' ∈ dict_keys (dict_set k v d) <-> k' = k \/ k' ∈ dict_keys d.
Proof.
  rewrite dict_keys_set. destruct (dict_get k d) as [v0|] eqn:Hg.
  - split; [by right|]. intros [->|Hin]; [|done]. by eapply dict_get_Some_keys.
  - rewrite elem_of_app, list_elem_of_singleton. tauto.
Qed.

(** One entry per key: assignment never duplicates a key. *)
Lemma dict_set_NoDup d k v : NoDup (dict_keys d) -> NoDup (dict_keys (dict_set k v d)).
Proof.
  intros Hnd. rewrite dict_keys_set. destruct (dict_get k d) eqn:Hg; [done|].
  apply NoDup_app. split; [done|]. split; [|apply NoDup_singleton].
  intros x Hx ->%list_elem_of_singleton. by apply dict_get_None_keys in Hg.
Qed.
End Dict.

(** ** Releasing a stale entry *)

Section Release.
Context {H D G : Type}.

(** C1, as the code has it: when receive stores a key for a sender that
    already has a pending entry, All2AllGossipNode pops the stale key from
    the shared Cache before the new key is stored, and ChordNode does so
    when its idx equals the limit of the message; a ChordNode whose idx is
    not the limit overwrites the entry and leaves the stale key in the Cache.
    In both variants the local cache keeps one entry per sender, and that
    entry is the new key. *)
Theorem stale_entry_release (t : Z) :
  (forall (w : World H (All2AllGossipNode H D) G) (msg : Message) (stale : PyVal),
     let lc := a2a_local_cache (self w) in
     type msg = MessageType.PUSH ->
     dict_get (sender msg) lc = Some stale ->
     match Cache_pop stale (CACHE w) with
     | Some (_, c') =>
         All2AllGossipNode_receive t msg w =
           (Ok None,
            mkWorld (a2a_set_local_cache
                       (dict_set (sender msg) (value0 (value msg)) lc) (self w))
                    c' (RNG w)) /\
         Cache_live stale c' = false
     | None => All2AllGossipNode_receive t msg w = (Raise CacheMiss, w)
     end) /\
  (forall (w : World H (ChordNode H D) G) (msg : ChordMessage) (stale : PyVal),
     let lc := chord_local_cache (self w) in
     let lc' := dict_set (sender (chord_msg msg)) (value0 (value (chord_msg msg))) lc in
     type (chord_msg msg) = MessageType.PUSH ->
     dict_get (sender (chord_msg msg)) lc = Some stale ->
     (idx (chord_base (self w)) = limit msg ->
      match Cache_pop stale (CACHE w) with
      | Some (_, c') =>
          ChordNode_receive t msg w =
            (Ok None, mkWorld (chord_set_local_cache lc' (self w)) c' (RNG w)) /\
          Cache_live stale c' = false
      | None => ChordNode_receive t msg w = (Raise CacheMiss, w)
      end) /\
     (idx (chord_base (self w)) <> limit msg ->
      ChordNode_receive t msg w =
        (Ok None, mkWorld (chord_set_local_cache lc' (self w)) (CACHE w) (RNG w)))) /\
  (forall (w : World H (All2AllGossipNode H D) G) (msg : Message),
     NoDup (dict_keys (a2a_local_cache (self w))) ->
     NoDup (dict_keys (a2a_local_cache (self (All2AllGossipNode_receive t msg w).2)))) /\
  (forall (w : World H (ChordNode H D) G) (msg : ChordMessage),
     NoDup (dict_keys (chord_local_cache (self w))) ->
     NoDup (dict_keys (chord_local_cache (self (ChordNode_receive t msg w).2)))) /\
  (forall (lc : dict PyVal) (s : NodeId) (new : PyVal),
     dict_get s (dict_set s new lc) = Some new).
Proof.
  split; [|split; [|split; [|split]]].
  - intros w msg stale lc Hty Hs. unfold All2AllGossipNode_receive.
    rewrite Hty. simpl. py_run. fold lc. rewrite Hs. unfold CACHE_pop.
    destruct (Cache_pop stale (CACHE w)) as [[v c']|] eqn:Hpop; [|done].
    split; [done | by eapply Cache_pop_dead].
  - intros w msg stale lc lc' Hty Hs. unfold ChordNode_receive.
    rewrite Hty. simpl. py_run. fold lc. rewrite Hs. split; intros Hlim.
    + rewrite (proj2 (Z.eqb_eq _ _) Hlim). unfold CACHE_pop.
      destruct (Cache_pop stale (CACHE w)) as [[v c']|] eqn:Hpop; [|done].
      split; [done | by eapply Cache_pop_dead].
    + rewrite (proj2 (Z.eqb_neq _ _) Hlim). by destruct w.
  - intros w msg Hnd. unfold All2AllGossipNode_receive.
    destruct (type msg); simpl; try done. py_run.
    destruct (dict_get (sender msg) (a2a_local_cache (self w))) as [stale|].
    + unfold CACHE_pop. destruct (Cache_pop stale (CACHE w)) as [[v c']|]; simpl;
        [by apply dict_set_NoDup | done].
    + simpl. by apply dict_set_NoDup.
  - intros w msg Hnd. unfold ChordNode_receive.
    destruct (type (chord_msg msg)); simpl; try done. py_run.
    destruct (dict_get (sender (chord_msg msg)) (chord_local_cache (self w)))
      as [stale|]; [destruct (idx (chord_base (self w)) =? limit msg)|].
    + unfold CACHE_pop. destruct (Cache_pop stale (CACHE w)) as [[v c']|]; simpl;
        [by apply dict_set_NoDup | done].
    + simpl. by apply dict_set_NoDup.
    + simpl. by apply dict_set_NoDup.
  - intros lc s new. apply dict_get_set_eq.
Qed.
End Release.

(** ** The batched merge *)

Section Batch.
Context {H D W G : Type} `{WeightedTMH H D W}.

(** Keys that the Cache holds are cache keys. *)
Lemma live_keys (c : Cache H) (ks : list PyVal) :
  (forall k, k ∈ ks -> Cache_live k c = true) ->
  exists keys : list CacheKey,
    ks = KeyV <$> keys /\
    (forall key, key ∈ keys -> is_Some (store c !! key)).
Proof.
  induction ks as [|k ks IH]; intros Hlive.
  - exists []. split; [done|]. by intros key ?%elem_of_nil.
  - destruct IH as (keys & -> & Hkeys).
    { intros k' Hk'. by apply Hlive, list_elem_of_further. }
    pose proof (Hlive k (list_elem_of_here _ _)) as Hk.
    destruct k as [key| |]; try done. simpl in Hk.
    apply bool_decide_eq_true in Hk.
    exists (key :: keys). split; [done|].
    intros key' [->|?]%elem_of_cons; [done | by apply Hkeys].
Qed.

(** What is left of a store once [keys] have been deleted one by one. *)
Lemma foldl_delete_lookup (keys : list CacheKey) :
  forall (s : gmap CacheKey H) (key : CacheKey),
    foldl (fun s k => delete k s) s keys !! key =
      if decide (key ∈ keys) then None else s !! key.
Proof.
  induction keys as [|k keys IH]; intros s key; cbn [foldl].
  - destruct (decide (key ∈ [])) as [Hin|_]; [by apply elem_of_nil in Hin | done].
  - rewrite IH.
    destruct (decide (key ∈ keys)) as [Hin|Hnin],
             (decide (key ∈ k :: keys)) as [Hin'|Hnin']; try done.
    + by apply not_elem_of_cons in Hnin' as [_ ?].
    + apply elem_of_cons in Hin' as [->|?]; [apply lookup_delete_eq | done].
    + apply not_elem_of_cons in Hnin' as [Hne _]. by apply lookup_delete_ne.
Qed.

(** What the comprehension [[CACHE.pop(k) for k in ks]] does when the keys
    are distinct and held by the Cache: it completes, the values are the
    snapshots stored under the keys, in order, and nothing changes but the
    store of the Cache, which has lost exactly these keys. *)
Lemma mapM_pop_exact {N : Type} (keys : list CacheKey) :
  forall (w : World H N G),
    NoDup keys ->
    (forall key, key ∈ keys -> is_Some (store (CACHE w) !! key)) ->
    exists models : list H,
      Forall2 (fun key v => store (CACHE w) !! key = Some v) keys models /\
      mapM CACHE_pop (KeyV <$> keys) w =
        (Ok models,
         set_CACHE (mkCache (foldl (fun s k => delete k s) (store (CACHE w)) keys)
                            (next_key (CACHE w))) w).
Proof.
  induction keys as [|key keys IH]; intros w Hnd Hlive.
  - exists []. split; [constructor|]. by destruct w as [n [st nk] g].
  - apply NoDup_cons in Hnd as [Hkey Hnd].
    destruct (Hlive key (list_elem_of_here _ _)) as [v Hv].
    set (w1 := set_CACHE (mkCache (delete key (store (CACHE w))) (next_key (CACHE w))) w).
    destruct (IH w1 Hnd) as (models & Hsnap & Hrun).
    { intros key' Hin. simpl. rewrite lookup_delete_ne by (by intros ->).
      by apply Hlive, list_elem_of_further. }
    exists (v :: models). split.
    + constructor; [done|]. eapply Forall2_impl; [exact Hsnap|].
      intros key' v' Hk'. simpl in Hk'. by apply lookup_delete_Some in Hk' as [_ ?].
    + rewrite fmap_cons. cbn [mapM]. unfold bind at 1. unfold CACHE_pop at 1.
      cbn [Cache_pop]. rewrite Hv. fold w1. unfold bind at 1. rewrite Hrun.
      reflexivity.
Qed.
End Batch.

Section Rounds.
Context {H D W G : Type} `{WeightedTMH H D W}.

Lemma push_senders_cons (m : Message) (ms : list Message) :
  push_senders (m :: ms) =
    if decide (type m = MessageType.PUSH) then sender m :: push_senders ms
    else push_senders ms.
Proof. unfold push_senders. rewrite filter_cons. by case_decide. Qed.

(** What one receive does to the local cache when it returns. *)
Lemma All2AllGossipNode_receive_cache (t : Z) (msg : Message)
    (w w' : World H (All2AllGossipNode H D) G) (r : option Message) :
  All2AllGossipNode_receive t msg w = (Ok r, w') ->
  a2a_local_cache (self w') =
    if decide (type msg = MessageType.PUSH)
    then dict_set (sender msg) (value0 (value msg)) (a2a_local_cache (self w))
    else a2a_local_cache (self w).
Proof.
  unfold All2AllGossipNode_receive.
  destruct (type msg); simpl; py_run; try by intros [= _ <-].
  destruct (dict_get (sender msg) (a2a_local_cache (self w))) as [stale|].
  - unfold CACHE_pop. destruct (Cache_pop stale (CACHE w)) as [[v c']|]; [|done].
    by intros [= _ <-].
  - by intros [= _ <-].
Qed.

Lemma ChordNode_receive_cache (t : Z) (msg : ChordMessage)
    (w w' : World H (ChordNode H D) G) (r : option ChordMessage) :
  ChordNode_receive t msg w = (Ok r, w') ->
  chord_local_cache (self w') =
    if decide (type (chord_msg msg) = MessageType.PUSH)
    then dict_set (sender (chord_msg msg)) (value0 (value (chord_msg msg)))
           (chord_local_cache (self w))
    else chord_local_cache (self w).
Proof.
  unfold ChordNode_receive.
  destruct (type (chord_msg msg)); simpl; py_run; try by intros [= _ <-].
  destruct (dict_get (sender (chord_msg msg)) (chord_local_cache (self w)))
    as [stale|]; [destruct (idx (chord_base (self w)) =? limit msg)|].
  - unfold CACHE_pop. destruct (Cache_pop stale (CACHE w)) as [[v c']|]; [|done].
    by intros [= _ <-].
  - by intros [= _ <-].
  - by intros [= _ <-].
Qed.

(** The senders held after a step of a run. *)
Lemma step_senders (lc : dict PyVal) (m : Message) (ms : list Message) (s : NodeId) :
  let lc1 := if decide (type m = MessageType.PUSH)
             then dict_set (sender m) (value0 (value m)) lc else lc in
  (s ∈ dict_keys lc1 \/ s ∈ push_senders ms) <->
  (s ∈ dict_keys lc \/ s ∈ push_senders (m :: ms)).
Proof.
  simpl. rewrite push_senders_cons. case_decide; [|done].
  rewrite dict_keys_set_elem, elem_of_cons. tauto.
Qed.

Lemma step_NoDup (lc : dict PyVal) (m : Message) :
  NoDup (dict_keys lc) ->
  NoDup (dict_keys (if decide (type m = MessageType.PUSH)
                    then dict_set (sender m) (value0 (value m)) lc else lc)).
Proof. intros Hnd. case_decide; [by apply dict_set_NoDup | done]. Qed.

(** A run of receives that completes leaves in the local cache one entry
    for each sender it held or that pushed during the run. *)
Lemma All2AllGossipNode_run_senders (tms : list (Z * Message)) :
  forall (w w' : World H (All2AllGossipNode H D) G),
    forM_ (fun p => All2AllGossipNode_receive p.1 p.2) tms w = (Ok tt, w') ->
    (NoDup (dict_keys (a2a_local_cache (self w))) ->
     NoDup (dict_keys (a2a_local_cache (self w')))) /\
    (forall s, s ∈ dict_keys (a2a_local_cache (self w')) <->
               s ∈ dict_keys (a2a_local_cache (self w)) \/ s ∈ push_senders tms.*2).
Proof.
  induction tms as [|[t m] tms IH]; intros w w'.
  - simpl. py_run. intros [= <-]. split; [done|].
    intros s. unfold push_senders. simpl. rewrite elem_of_nil. tauto.
  - simpl. unfold bind at 1.
    destruct (All2AllGossipNode_receive t m w) as [[r|e] w1] eqn:Hstep; [|done].
    intros Hrun. destruct (IH _ _ Hrun) as [Hnd Hkeys].
    rewrite (All2AllGossipNode_receive_cache _ _ _ _ _ Hstep) in Hnd, Hkeys.
    split.
    + intros Hnd0. by apply Hnd, step_NoDup.
    + intros s. rewrite Hkeys. apply step_senders.
Qed.

Lemma ChordNode_run_senders (tms : list (Z * ChordMessage)) :
  forall (w w' : World H (ChordNode H D) G),
    forM_ (fun p => ChordNode_receive p.1 p.2) tms w = (Ok tt, w') ->
    (NoDup (dict_keys (chord_local_cache (self w))) ->
     NoDup (dict_keys (chord_local_cache (self w')))) /\
    (forall s, s ∈ dict_keys (chord_local_cache (self w')) <->
               s ∈ dict_keys (chord_local_cache (self w)) \/
               s ∈ push_senders (chord_msg <$> tms.*2)).
Proof.
  induction tms as [|[t m] tms IH]; intros w w'.
  - simpl. py_run. intros [= <-]. split; [done|].
    intros s. unfold push_senders. simpl. rewrite elem_of_nil. tauto.
  - simpl. unfold bind at 1.
    destruct (ChordNode_receive t m w) as [[r|e] w1] eqn:Hstep; [|done].
    intros Hrun. destruct (IH _ _ Hrun) as [Hnd Hkeys].
    rewrite (ChordNode_receive_cache _ _ _ _ _ Hstep) in Hnd, Hkeys.
    split.
    + intros Hnd0. by apply Hnd, (step_NoDup _ (chord_msg m)).
    + intros s. rewrite Hkeys. apply (step_senders _ (chord_msg m)).
Qed.
End Rounds.

Section Firing.
Context {H D W G : Type} `{WeightedTMH H D W}.

Lemma All2AllGossipNode_timed_out_idle (t : Z) (weights : W)
    (w : World H (All2AllGossipNode H D) G) :
  GossipNode_timed_out (a2a_base (self w)) t <> Ok true \/
  a2a_local_cache (self w) = [] ->
  All2AllGossipNode_timed_out t weights w
    = (GossipNode_timed_out (a2a_base (self w)) t, w).
Proof.
  unfold All2AllGossipNode_timed_out. py_run.
  destruct (GossipNode_timed_out (a2a_base (self w)) t) as [[|]|e]; simpl;
    try done.
  intros [?| ->]; done.
Qed.

Lemma ChordNode_timed_out_idle (t : Z) (weights : W)
    (w : World H (ChordNode H D) G) :
  GossipNode_timed_out (chord_base (self w)) t <> Ok true \/
  chord_local_cache (self w) = [] ->
  ChordNode_timed_out t weights w
    = (GossipNode_timed_out (chord_base (self w)) t, w).
Proof.
  unfold ChordNode_timed_out. py_run.
  destruct (GossipNode_timed_out (chord_base (self w)) t) as [[|]|e]; simpl;
    try done.
  intros [?| ->]; done.
Qed.

Lemma All2AllGossipNode_timed_out_returns (t : Z) (weights : W)
    (w w' : World H (All2AllGossipNode H D) G) (b : bool) :
  All2AllGossipNode_timed_out t weights w = (Ok b, w') ->
  GossipNode_timed_out (a2a_base (self w)) t = Ok b.
Proof.
  unfold All2AllGossipNode_timed_out. py_run.
  destruct (GossipNode_timed_out (a2a_base (self w)) t) as [[|]|e]; simpl;
    try (intros [= <- _]; done); try done.
  destruct (dict_truthy (a2a_local_cache (self w))); [|by intros [= <- _]].
  destruct (mapM CACHE_pop (dict_values (a2a_local_cache (self w))) w)
    as [[models|e] w1]; [by intros [= <- _] | done].
Qed.

Lemma ChordNode_timed_out_returns (t : Z) (weights : W)
    (w w' : World H (ChordNode H D) G) (b : bool) :
  ChordNode_timed_out t weights w = (Ok b, w') ->
  GossipNode_timed_out (chord_base (self w)) t = Ok b.
Proof.
  unfold ChordNode_timed_out. py_run.
  destruct (GossipNode_timed_out (chord_base (self w)) t) as [[|]|e]; simpl;
    try (intros [= <- _]; done); try done.
  destruct (dict_truthy (chord_local_cache (self w))); [|by intros [= <- _]].
  destruct (mapM CACHE_pop (dict_values (chord_local_cache (self w))) w)
    as [[models|e] w1]; [by intros [= <- _] | done].
Qed.

End Firing.

(** ** A whole round goes through

    When the keys pending in the local cache and the keys carried by the
    PUSH messages of a run are pairwise distinct and held by the Cache, every
    receive of the run returns, and the keys pending at the end are again
    distinct and held by the Cache: the firing that follows pops them all. *)

Section RoundOk.
Context {H D W G : Type} `{WeightedTMH H D W}.

Lemma dict_set_values_present (d : dict PyVal) (k : NodeId) (v old : PyVal) :
  dict_get k d = Some old ->
  exists d1 d2 : list PyVal,
    dict_values d = d1 ++ old :: d2 /\
    dict_values (dict_set k v d) = d1 ++ v :: d2.
Proof.
  induction d as [|[k' v'] d IH]; simpl; [done|].
  destruct (Z.eqb_spec k k') as [->|Hne].
  - intros [= ->]. by exists [], (dict_values d).
  - intros Hg. destruct (IH Hg) as (d1 & d2 & Hd & Hd').
    exists (v' :: d1), d2. unfold dict_values in *.
    rewrite !fmap_cons, Hd, Hd'. done.
Qed.

Lemma dict_set_values_absent (d : dict PyVal) (k : NodeId) (v : PyVal) :
  dict_get k d = None -> dict_values (dict_set k v d) = dict_values d ++ [v].
Proof.
  induction d as [|[k' v'] d IH]; simpl; [done|].
  destruct (Z.eqb_spec k k') as [->|Hne]; [done|].
  intros Hg. unfold dict_values in *. rewrite !fmap_cons, IH by done. done.
Qed.

Lemma push_keys_cons (m : Message) (ms : list Message) :
  push_keys (m :: ms) =
    if decide (type m = MessageType.PUSH) then value0 (value m) :: push_keys ms
    else push_keys ms.
Proof. unfold push_keys. rewrite filter_cons. by case_decide. Qed.

(** Overwriting a pending entry and popping the stale key. *)
Lemma overwrite_pop (c : Cache H) (lc : dict PyVal) (s : NodeId)
    (kv old : PyVal) (rest : list PyVal) :
  dict_get s lc = Some old ->
  NoDup (dict_values lc ++ kv :: rest) ->
  (forall k, k ∈ dict_values lc ++ kv :: rest -> Cache_live k c = true) ->
  exists (v : H) (c' : Cache H),
    Cache_pop old c = Some (v, c') /\
    NoDup (dict_values (dict_set s kv lc) ++ rest) /\
    (forall k, k ∈ dict_values (dict_set s kv lc) ++ rest -> Cache_live k c = true) /\
    (forall k, k ∈ dict_values (dict_set s kv lc) ++ rest -> Cache_live k c' = true).
Proof.
  intros Hg Hnd Hlive.
  destruct (dict_set_values_present lc s kv old Hg) as (d1 & d2 & Hd & Hd').
  rewrite Hd in Hnd, Hlive. rewrite Hd'.
  assert (Hperm : (d1 ++ old :: d2) ++ kv :: rest ≡ₚ old :: (d1 ++ kv :: d2) ++ rest).
  { rewrite <- !app_assoc. simpl. rewrite <- !Permutation_middle.
    rewrite (Permutation_swap kv old). reflexivity. }
  rewrite Hperm in Hnd. apply NoDup_cons in Hnd as [Hold Hnd].
  assert (Hlive' : forall k, k ∈ (d1 ++ kv :: d2) ++ rest -> Cache_live k c = true).
  { intros k Hk. apply Hlive. rewrite Hperm. by apply list_elem_of_further. }
  assert (Hlo : Cache_live old c = true).
  { apply Hlive. rewrite Hperm. apply list_elem_of_here. }
  destruct old as [ko| |]; try done. simpl in Hlo.
  apply bool_decide_eq_true in Hlo as [v Hv].
  exists v, (mkCache (delete ko (store c)) (next_key c)).
  split; [by simpl; rewrite Hv|]. split; [done|]. split; [done|].
  intros k Hk. pose proof (Hlive' k Hk) as Hl.
  destruct k as [kk| |]; try done. simpl in *.
  apply bool_decide_eq_true in Hl. apply bool_decide_eq_true_2.
  rewrite lookup_delete_ne; [done|]. by intros ->.
Qed.

Lemma All2AllGossipNode_run_ok (tms : list (Z * Message)) :
  forall (w : World H (All2AllGossipNode H D) G),
    let pending w := dict_values (a2a_local_cache (self w)) in
    NoDup (pending w ++ push_keys tms.*2) ->
    (forall k, k ∈ pending w ++ push_keys tms.*2 -> Cache_live k (CACHE w) = true) ->
    exists w' : World H (All2AllGossipNode H D) G,
      forM_ (fun p => All2AllGossipNode_receive p.1 p.2) tms w = (Ok tt, w') /\
      NoDup (pending w') /\
      (forall k, k ∈ pending w' -> Cache_live k (CACHE w') = true).
Proof.
  induction tms as [|[t m] tms IH]; intros w pending.
  - simpl. unfold push_keys. simpl. rewrite app_nil_r. intros Hnd Hlive.
    by exists w.
  - simpl fmap. rewrite push_keys_cons. simpl forM_. unfold bind at 1.
    unfold All2AllGossipNode_receive. case_decide as Hty.
    + rewrite Hty. simpl. py_run. intros Hnd Hlive.
      destruct (dict_get (sender m) (a2a_local_cache (self w))) as [old|] eqn:Hg.
      * destruct (overwrite_pop _ _ _ _ _ _ Hg Hnd Hlive)
          as (v & c' & Hpop & Hnd' & _ & Hlive').
        unfold CACHE_pop. rewrite Hpop. simpl. apply IH; done.
      * simpl. apply IH; simpl; subst pending; simpl;
          rewrite (dict_set_values_absent _ _ _ Hg), <- app_assoc; done.
    + intros Hnd Hlive.
      destruct (type m); simpl; try done; py_run; by apply IH.
Qed.

Lemma ChordNode_run_ok (tms : list (Z * ChordMessage)) :
  forall (w : World H (ChordNode H D) G),
    let pending w := dict_values (chord_local_cache (self w)) in
    NoDup (pending w ++ push_keys (chord_msg <$> tms.*2)) ->
    (forall k, k ∈ pending w ++ push_keys (chord_msg <$> tms.*2) ->
               Cache_live k (CACHE w) = true) ->
    exists w' : World H (ChordNode H D) G,
      forM_ (fun p => ChordNode_receive p.1 p.2) tms w = (Ok tt, w') /\
      NoDup (pending w') /\
      (forall k, k ∈ pending w' -> Cache_live k (CACHE w') = true).
Proof.
  induction tms as [|[t m] tms IH]; intros w pending.
  - simpl. unfold push_keys. simpl. rewrite app_nil_r. intros Hnd Hlive.
    by exists w.
  - simpl fmap. rewrite push_keys_cons. simpl forM_. unfold bind at 1.
    unfold ChordNode_receive. case_decide as Hty.
    + rewrite Hty. simpl. py_run. intros Hnd Hlive.
      destruct (dict_get (sender (chord_msg m)) (chord_local_cache (self w)))
        as [old|] eqn:Hg.
      * destruct (overwrite_pop _ _ _ _ _ _ Hg Hnd Hlive)
          as (v & c' & Hpop & Hnd' & Hlive0 & Hlive').
        destruct (idx (chord_base (self w)) =? limit m).
        -- unfold CACHE_pop. rewrite Hpop. simpl. apply IH; done.
        -- simpl. apply IH; done.
      * simpl. apply IH; simpl; subst pending; simpl;
          rewrite (dict_set_values_absent _ _ _ Hg), <- app_assoc; done.
    + intros Hnd Hlive.
      destruct (type (chord_msg m)); simpl; try done; py_run; by apply IH.
Qed.
End RoundOk.

Section BatchedMerge.
Context {H D W G : Type} `{WeightedTMH H D W}.

(** C4: timed_out of All2AllGossipNode and of ChordNode returns exactly the
    base timing predicate.  When the predicate is true and the local cache
    is not empty, it pops every cached key from the shared Cache, hands the
    popped snapshots, in the order of the local cache, the training data and
    the weights to the multi-source merge of the handler, whose result
    becomes the model of the node, and leaves the local cache empty; nothing
    else of the node changes, and the Cache loses exactly the popped keys.
    When the predicate is not true or the local cache is empty nothing is
    merged and nothing changes.  What a firing merges is one snapshot for
    each distinct sender that pushed since the local cache was last
    emptied. *)
Theorem batched_merge_on_timeout (t : Z) (weights : W) :
  (forall w : World H (All2AllGossipNode H D) G,
     let base := a2a_base (self w) in
     let lc := a2a_local_cache (self w) in
     (forall b w', All2AllGossipNode_timed_out t weights w = (Ok b, w') ->
                   GossipNode_timed_out base t = Ok b) /\
     (GossipNode_timed_out base t = Ok true -> lc <> [] ->
      NoDup (dict_values lc) ->
      (forall k, k ∈ dict_values lc -> Cache_live k (CACHE w) = true) ->
      exists (keys : list CacheKey) (models : list H),
        let left := foldl (fun s k => delete k s) (store (CACHE w)) keys in
        dict_values lc = KeyV <$> keys /\
        Forall2 (fun key v => store (CACHE w) !! key = Some v) keys models /\
        All2AllGossipNode_timed_out t weights w =
          (Ok true,
           mkWorld (mkAll2AllGossipNode
                      (mkGossipNode (idx base) (data base) (round_len base)
                         (wtmh_call (model_handler base) models (data base).1
                            weights)
                         (sync base) (delta base) (p2p_net base)) [])
                   (mkCache left (next_key (CACHE w))) (RNG w)) /\
        (forall key, left !! key =
                       if decide (key ∈ keys) then None
                       else store (CACHE w) !! key)) /\
     (GossipNode_timed_out base t <> Ok true \/ lc = [] ->
      All2AllGossipNode_timed_out t weights w = (GossipNode_timed_out base t, w))) /\
  (forall w : World H (ChordNode H D) G,
     let base := chord_base (self w) in
     let lc := chord_local_cache (self w) in
     (forall b w', ChordNode_timed_out t weights w = (Ok b, w') ->
                   GossipNode_timed_out base t = Ok b) /\
     (GossipNode_timed_out base t = Ok true -> lc <> [] ->
      NoDup (dict_values lc) ->
      (forall k, k ∈ dict_values lc -> Cache_live k (CACHE w) = true) ->
      exists (keys : list CacheKey) (models : list H),
        let left := foldl (fun s k => delete k s) (store (CACHE w)) keys in
        dict_values lc = KeyV <$> keys /\
        Forall2 (fun key v => store (CACHE w) !! key = Some v) keys models /\
        ChordNode_timed_out t weights w =
          (Ok true,
           mkWorld (mkChordNode
                      (mkGossipNode (idx base) (data base) (round_len base)
                         (wtmh_call (model_handler base) models (data base).1
                            weights)
                         (sync base) (delta base) (p2p_net base))
                      (finger (self w)) [])
                   (mkCache left (next_key (CACHE w))) (RNG w)) /\
        (forall key, left !! key =
                       if decide (key ∈ keys) then None
                       else store (CACHE w) !! key)) /\
     (GossipNode_timed_out base t <> Ok true \/ lc = [] ->
      ChordNode_timed_out t weights w = (GossipNode_timed_out base t, w))) /\
  (forall (tms : list (Z * Message)) (w : World H (All2AllGossipNode H D) G),
     a2a_local_cache (self w) = [] ->
     NoDup (push_keys tms.*2) ->
     (forall k, k ∈ push_keys tms.*2 -> Cache_live k (CACHE w) = true) ->
     exists w' : World H (All2AllGossipNode H D) G,
       let lc' := a2a_local_cache (self w') in
       forM_ (fun p => All2AllGossipNode_receive p.1 p.2) tms w = (Ok tt, w') /\
       NoDup (dict_keys lc') /\
       (forall s, s ∈ dict_keys lc' <-> s ∈ push_senders tms.*2) /\
       NoDup (dict_values lc') /\
       (forall k, k ∈ dict_values lc' -> Cache_live k (CACHE w') = true)) /\
  (forall (tms : list (Z * ChordMessage)) (w : World H (ChordNode H D) G),
     chord_local_cache (self w) = [] ->
     NoDup (push_keys (chord_msg <$> tms.*2)) ->
     (forall k, k ∈ push_keys (chord_msg <$> tms.*2) -> Cache_live k (CACHE w) = true) ->
     exists w' : World H (ChordNode H D) G,
       let lc' := chord_local_cache (self w') in
       forM_ (fun p => ChordNode_receive p.1 p.2) tms w = (Ok tt, w') /\
       NoDup (dict_keys lc') /\
       (forall s, s ∈ dict_keys lc' <-> s ∈ push_senders (chord_msg <$> tms.*2)) /\
       NoDup (dict_values lc') /\
       (forall k, k ∈ dict_values lc' -> Cache_live k (CACHE w') = true)).
Proof.
  split; [|split; [|split]].
  - intros w base lc. split; [|split].
    + intros b w'. apply All2AllGossipNode_timed_out_returns.
    + intros Htout Hne Hnd Hlive.
      destruct (live_keys _ _ Hlive) as (keys & Hvals & Hkeys).
      rewrite Hvals in Hnd. apply (NoDup_fmap_1 KeyV) in Hnd.
      destruct (mapM_pop_exact keys w Hnd Hkeys) as (models & Hsnap & Hpop).
      exists keys, models. simpl. split; [done|]. split; [done|].
      split; [|apply foldl_delete_lookup].
      assert (Htruthy : dict_truthy lc = true) by (by destruct lc).
      subst base lc. unfold All2AllGossipNode_timed_out. py_run.
      rewrite Htout, Htruthy. simpl. rewrite Hvals, Hpop. reflexivity.
    + apply All2AllGossipNode_timed_out_idle.
  - intros w base lc. split; [|split].
    + intros b w'. apply ChordNode_timed_out_returns.
    + intros Htout Hne Hnd Hlive.
      destruct (live_keys _ _ Hlive) as (keys & Hvals & Hkeys).
      rewrite Hvals in Hnd. apply (NoDup_fmap_1 KeyV) in Hnd.
      destruct (mapM_pop_exact keys w Hnd Hkeys) as (models & Hsnap & Hpop).
      exists keys, models. simpl. split; [done|]. split; [done|].
      split; [|apply foldl_delete_lookup].
      assert (Htruthy : dict_truthy lc = true) by (by destruct lc).
      subst base lc. unfold ChordNode_timed_out. py_run.
      rewrite Htout, Htruthy. simpl. rewrite Hvals, Hpop. reflexivity.
    + apply ChordNode_timed_out_idle.
  - intros tms w Hempty Hnd Hlive.
    destruct (All2AllGossipNode_run_ok tms w) as (w' & Hrun & Hnd' & Hlive').
    { by rewrite Hempty. }
    { by rewrite Hempty. }
    exists w'. destruct (All2AllGossipNode_run_senders tms w w' Hrun) as [Hk Hs].
    rewrite Hempty in Hk, Hs. simpl.
    split; [done|]. split; [apply Hk, NoDup_nil_2|]. split; [|done].
    intros s. rewrite Hs. simpl. rewrite elem_of_nil. tauto.
  - intros tms w Hempty Hnd Hlive.
    destruct (ChordNode_run_ok tms w) as (w' & Hrun & Hnd' & Hlive').
    { by rewrite Hempty. }
    { by rewrite Hempty. }
    exists w'. destruct (ChordNode_run_senders tms w w' Hrun) as [Hk Hs].
    rewrite Hempty in Hk, Hs. simpl.
    split; [done|]. split; [apply Hk, NoDup_nil_2|]. split; [|done].
    intros s. rewrite Hs. simpl. rewrite elem_of_nil. tauto.
Qed.
End BatchedMerge.

(** ** Partitioned models *)

Section PartitionFrame.
Context {P D G : Type} `{SliceMerge P D} `{NumpyRandom G}.

Lemma PartitionedTMH_call_frame (h recv : PartitionedTMH P) (d : D) (pid : PyVal)
    (j : nat) :
  pid <> IntV (Z.of_nat j) ->
  partitions (PartitionedTMH_call h recv d pid) !! j = partitions h !! j.
Proof.
  intros Hne. unfold PartitionedTMH_call. destruct pid as [|z|]; try done.
  destruct (Z.leb_spec 0 z); [|done].
  destruct (partitions h !! Z.to_nat z), (partitions recv !! Z.to_nat z); try done.
  simpl. apply list_lookup_insert_ne. intros <-. apply Hne. f_equal. lia.
Qed.

Lemma PartitionedTMH_call_merged (h recv : PartitionedTMH P) (d : D) (j : nat)
    (a b : P) :
  partitions h !! j = Some a -> partitions recv !! j = Some b ->
  partitions (PartitionedTMH_call h recv d (IntV (Z.of_nat j))) !! j
    = Some (slice_merge a b d).
Proof.
  intros Ha Hb. unfold PartitionedTMH_call.
  destruct (Z.leb_spec 0 (Z.of_nat j)); [|lia].
  rewrite Nat2Z.id, Ha, Hb. simpl. apply list_lookup_insert_eq.
  by eapply lookup_lt_Some.
Qed.

Lemma PartitionedTMH_call_n_parts (h recv : PartitionedTMH P) (d : D) (pid : PyVal) :
  n_parts (PartitionedTMH_call h recv d pid) = n_parts h.
Proof.
  unfold PartitionedTMH_call, n_parts. destruct pid as [|z|]; try done.
  destruct (0 <=? z); [|done].
  destruct (partitions h !! Z.to_nat z), (partitions recv !! Z.to_nat z); try done.
  simpl. by rewrite length_insert.
Qed.

(** C9: when a PartitioningBasedNode receives a PUSH, REPLY or PUSH_PULL
    message whose payload names partition pid, only the slice pid of the
    incoming snapshot is merged into the local model and every other
    partition of the local model stays as it was; the reply to a PULL or
    PUSH_PULL carries a partition id freshly drawn by randint(0, n_parts),
    in [0, n_parts), whatever the pid received. *)
Theorem partition_receive_frame (t : Z) :
  (forall (w : World (PartitionedTMH P) (GossipNode (PartitionedTMH P) D) G)
          (msg : Message) (k pid : PyVal) (recv : PartitionedTMH P)
          (c' : Cache (PartitionedTMH P)),
     is_push_reply_pushpull (type msg) = true ->
     value msg = Some [k; pid] ->
     Cache_pop k (CACHE w) = Some (recv, c') ->
     let n := self w in
     let h := model_handler n in
     let h' := PartitionedTMH_call h recv (data n).1 pid in
     let res := PartitioningBasedNode_receive t msg w in
     model_handler (self res.2) = h' /\
     (forall j : nat, pid <> IntV (Z.of_nat j) ->
                      partitions h' !! j = partitions h !! j) /\
     (forall (j : nat) (a b : P),
        pid = IntV (Z.of_nat j) ->
        partitions h !! j = Some a -> partitions recv !! j = Some b ->
        partitions h' !! j = Some (slice_merge a b (data n).1)) /\
     n_parts h' = n_parts h /\
     (type msg <> MessageType.PUSH_PULL ->
      res = (Ok None, mkWorld (set_model_handler h' n) c' (RNG w))) /\
     (type msg = MessageType.PUSH_PULL -> 0 < n_parts h ->
      let draw := randint_draw 0 (n_parts h) (RNG w) in
      let put := Cache_put h' c' in
      res = (Ok (Some (mkMessage t (idx n) (sender msg) MessageType.REPLY
                         (Some [KeyV put.1; IntV draw.1]))),
             mkWorld (set_model_handler h' n) put.2 draw.2) /\
      0 <= draw.1 < n_parts h)) /\
  (forall (w : World (PartitionedTMH P) (GossipNode (PartitionedTMH P) D) G)
          (msg : Message),
     type msg = MessageType.PULL ->
     let n := self w in
     let h := model_handler n in
     0 < n_parts h ->
     let draw := randint_draw 0 (n_parts h) (RNG w) in
     let put := Cache_put h (CACHE w) in
     PartitioningBasedNode_receive t msg w =
       (Ok (Some (mkMessage t (idx n) (sender msg) MessageType.REPLY
                    (Some [KeyV put.1; IntV draw.1]))),
        mkWorld n put.2 draw.2) /\
     0 <= draw.1 < n_parts h).
Proof.
  split.
  - intros w msg k pid recv c' Hty Hval Hpop n h h' res.
    assert (Hrun : type msg <> MessageType.PUSH_PULL ->
                   res = (Ok None, mkWorld (set_model_handler h' n) c' (RNG w))).
    { intros Hnpp. subst res. unfold PartitioningBasedNode_receive.
      rewrite Hty, Hval. py_run. unfold CACHE_pop. rewrite Hpop. simpl.
      destruct (type msg); done. }
    assert (Hpp : type msg = MessageType.PUSH_PULL -> 0 < n_parts h ->
              res = (Ok (Some (mkMessage t (idx n) (sender msg) MessageType.REPLY
                                 (Some [KeyV (Cache_put h' c').1;
                                        IntV (randint_draw 0 (n_parts h) (RNG w)).1]))),
                     mkWorld (set_model_handler h' n) (Cache_put h' c').2
                       (randint_draw 0 (n_parts h) (RNG w)).2)).
    { intros Hpp Hn. subst res. unfold PartitioningBasedNode_receive.
      rewrite Hpp, Hval. py_run. unfold CACHE_pop. rewrite Hpop. simpl.
      unfold with_rng. simpl. fold n h h'.
      pose proof (PartitionedTMH_call_n_parts h recv (data n).1 pid) as Hnp.
      fold h' in Hnp. rewrite Hnp, randint_ok by done.
      reflexivity. }
    split; [|split; [|split; [|split; [|split]]]].
    + destruct (decide (type msg = MessageType.PUSH_PULL)) as [Heq|Hne].
      * pose proof (PartitionedTMH_call_n_parts h recv (data n).1 pid) as Hn.
        subst res. unfold PartitioningBasedNode_receive.
        rewrite Heq, Hval. py_run. unfold CACHE_pop. rewrite Hpop. simpl.
        unfold with_rng. simpl. fold n h h'.
        destruct (randint 0 (n_parts h') (RNG w)) as [[v|e] g']; reflexivity.
      * by rewrite (Hrun Hne).
    + intros j Hj. by apply PartitionedTMH_call_frame.
    + intros j a b -> Ha Hb. by apply PartitionedTMH_call_merged.
    + apply PartitionedTMH_call_n_parts.
    + exact Hrun.
    + intros Heq Hn. split; [by apply Hpp|]. apply randint_draw_range. lia.
  - intros w msg Hty n h Hn draw put. split.
    + unfold PartitioningBasedNode_receive. rewrite Hty. py_run.
      unfold with_rng. simpl. fold n h. rewrite randint_ok by done.
      by destruct w.
    + apply randint_draw_range. lia.
Qed.
End PartitionFrame.

(** ** The theorems at work on concrete nodes *)

Lemma receive_merges_and_replies_witness :
  GossipNode_receive 12 msg_push_pull world_base =
    (Ok (Some (mkMessage 12 0 1 MessageType.REPLY (Some [KeyV 2%N]))),
     mkWorld (set_model_handler 112 node_sync)
             (mkCache (<[2%N := 112]> (delete 0%N (store cache2))) 3%N) []).
Proof.
  rewrite (proj1 (proj2 (receive_merges_and_replies world_base 12 msg_push_pull))
             eq_refl).
  reflexivity.
Defined.

Lemma unsupported_protocol_fails_witness :
  ChordNode_send 12 0 1 AntiEntropyProtocol.PULL 2 world_chord
    = (Raise (ValueError "ChordNode only supports PUSH protocol."), world_chord) /\
  All2AllGossipNode_send 12 1 AntiEntropyProtocol.PUSH_PULL world_a2a
    = (Raise (ValueError "All2AllNode only supports PUSH protocol."), world_a2a).
Proof.
  destruct (unsupported_protocol_fails (H := Z) (D := Z) (G := list Q) (Smp := Z)
              (P := Z) 12 1) as (_ & _ & Hchord & Ha2a).
  split; [apply Hchord | apply Ha2a]; discriminate.
Defined.

Lemma receive_never_replies_witness :
  All2AllGossipNode_receive 12 msg_pull world_a2a = (Ok None, world_a2a) /\
  (All2AllGossipNode_receive 12 msg_push world_a2a).1 = Ok None.
Proof.
  destruct (proj1 (receive_never_replies (H := Z) (D := Z) (G := list Q) 12)
              world_a2a msg_pull) as (Hignore & _ & _).
  destruct (proj1 (receive_never_replies (H := Z) (D := Z) (G := list Q) 12)
              world_a2a msg_push) as (_ & _ & Hnone).
  split; [apply Hignore; discriminate|].
  apply Hnone. simpl. intros stale [= <-]. reflexivity.
Defined.

Lemma stale_entry_release_witness :
  All2AllGossipNode_receive 12 msg_push world_a2a =
    (Ok None,
     mkWorld (mkAll2AllGossipNode node_sync [(1, KeyV 1%N)])
             (mkCache (delete 0%N (store cache2)) 2%N) []) /\
  Cache_live (KeyV 0%N) (mkCache (delete 0%N (store cache2)) 2%N) = false.
Proof.
  exact (proj1 (stale_entry_release (H := Z) (D := Z) (G := list Q) 12)
           world_a2a msg_push (KeyV 0%N) eq_refl eq_refl).
Defined.

(** C1, as stated, fails on ChordNode: a node with idx 0 that holds key 0
    for sender 1 and receives a second PUSH of sender 1 whose limit is 2
    stores the new key without releasing the stale one, which stays in the
    Cache although the local cache no longer refers to it. *)
Lemma chord_stale_entry_leaks :
  let msg := mkChordMessage msg_push 2 in
  let res := ChordNode_receive 12 msg world_chord in
  dict_get (sender (chord_msg msg)) (chord_local_cache (self world_chord))
    = Some (KeyV 0%N) /\
  res.1 = Ok None /\
  chord_local_cache (self res.2) = [(1, KeyV 1%N)] /\
  Cache_live (KeyV 0%N) (CACHE res.2) = true /\
  CACHE res.2 = CACHE world_chord.
Proof. repeat split. Qed.

Lemma batched_merge_on_timeout_witness :
  All2AllGossipNode_timed_out 13 [1; 1] world_a2a =
    (Ok true,
     mkWorld (mkAll2AllGossipNode (mkGossipNode 0 (5, None) 10 112 true 3 net4) [])
             (mkCache (delete 0%N (store cache2)) 2%N) []).
Proof.
  destruct (proj1 (proj2 (proj1 (batched_merge_on_timeout (H := Z) (D := Z)
                                   (G := list Q) 13 [1; 1]) world_a2a)))
    as (keys & models & Hvals & Hsnap & Hrun & _).
  - reflexivity.
  - discriminate.
  - apply NoDup_singleton.
  - intros k ->%list_elem_of_singleton. reflexivity.
  - destruct keys as [|key [|key' keys]]; try discriminate Hvals.
    injection Hvals as <-.
    apply Forall2_cons_inv_l in Hsnap as (v & models' & Hv & Hnil & ->).
    apply Forall2_nil_inv_l in Hnil as ->.
    injection Hv as <-. exact Hrun.
Defined.

Lemma partition_receive_frame_witness :
  let res := PartitioningBasedNode_receive 12 msg_part world_part in
  partitions (model_handler (self res.2)) = [10; 20; 33; 40] /\
  res.1 = Ok (Some (mkMessage 12 0 1 MessageType.REPLY (Some [KeyV 1%N; IntV 3]))).
Proof.
  destruct (proj1 (partition_receive_frame (P := Z) (D := Z) (G := list Q) 12)
              world_part msg_part (KeyV 0%N) (IntV 2) (mkPartitionedTMH [1; 2; 3; 4])
              (mkCache (delete 0%N (<[0%N := mkPartitionedTMH [1; 2; 3; 4]]> ∅)) 1%N)
              eq_refl eq_refl eq_refl)
    as (Hmodel & _ & _ & _ & _ & Hreply).
  destruct (Hreply eq_refl ltac:(reflexivity)) as [Hres _].
  simpl. rewrite Hmodel, Hres. split; reflexivity.
Defined.

(** ** Runs of the engine on small inputs *)

(** Over the ticks 0..19 a synchronous node with round length 10 and delta 3
    times out exactly twice, at 3 and at 13. *)
Example timed_out_twice_in_two_rounds :
  List.filter (fun t => match GossipNode_timed_out node_sync t with
                        | Ok true => true
                        | _ => false
                        end)
              (Z.of_nat <$> seq 0 20)
  = [3; 13].
Proof. reflexivity. Qed.

(** An asynchronous node with delta 4 times out at every fourth tick. *)
Example timed_out_every_delta :
  (fun t => GossipNode_timed_out node_async t) <$> [0; 1; 4; 6; 8]
  = [Ok true; Ok false; Ok true; Ok false; Ok true].
Proof. reflexivity. Qed.

(** With 8 nodes the table of node 0 is [1; 2; 4; 0] before the reversal. *)
Example chord_table_node_0_of_8 :
  match (ChordNode_init (H := Z) (D := Z) 0 (5, None) 10 7 net8 true
           ([] : list Q)).1 with
  | Ok node => finger node = [0; 4; 2; 1] /\ chord_local_cache node = []
  | Raise _ => False
  end.
Proof. simpl. done. Qed.

(** A push followed by its reception and a firing: the snapshot sent by
    node 1 travels through the Cache and is merged by the receiver, after
    which neither the local cache nor the Cache holds the key. *)
Example push_receive_fire :
  let w0 : World Z (All2AllGossipNode Z Z) (list Q) :=
    mkWorld (mkAll2AllGossipNode node_sync []) (mkCache (<[0%N := 100]> ∅) 1%N) [] in
  let m := mkMessage 12 1 0 MessageType.PUSH (Some [KeyV 0%N]) in
  let w1 := (All2AllGossipNode_receive 12 m w0).2 in
  let r := All2AllGossipNode_timed_out 13 [1; 1] w1 in
  a2a_local_cache (self w1) = [(1, KeyV 0%N)] /\
  r.1 = Ok true /\
  model_handler (a2a_base (self r.2)) = 7 + (100 + 0) + 5 /\
  a2a_local_cache (self r.2) = [] /\
  Cache_live (KeyV 0%N) (CACHE r.2) = false.
Proof. repeat split. Qed.

(** * Beyond the claims: further properties of the engine *)

(** ** Timing, continued *)

Section TimingMore.
Context {H D : Type}.

(** On an asynchronous ChordNode with delta >= 1, next_timed_out(t) is the
    distance from t to the next firing after t: it lies in [1, delta], the
    node times out at t + next_timed_out(t), and at no tick strictly in
    between. *)
Theorem next_timed_out_is_next_firing (n : ChordNode H D) (t : Z) :
  sync (chord_base n) = false ->
  1 <= delta (chord_base n) ->
  exists r : Z,
    ChordNode_next_timed_out n t = Ok r /\
    1 <= r <= delta (chord_base n) /\
    GossipNode_timed_out (chord_base n) (t + r) = Ok true /\
    (forall j : Z, 0 < j < r ->
                   GossipNode_timed_out (chord_base n) (t + j) = Ok false).
Proof.
  intros Hs Hd. set (d := delta (chord_base n)) in *.
  pose proof (Z.mod_pos_bound t d ltac:(lia)) as Hm.
  exists (d - t mod d). unfold ChordNode_next_timed_out, GossipNode_timed_out.
  fold d. rewrite Hs, !py_mod_nonzero by lia.
  split; [done|]. split; [lia|]. split.
  - f_equal. apply Z.eqb_eq.
    replace (t + (d - t mod d)) with (t - t mod d + 1 * d) by lia.
    rewrite Z.mod_add by lia. rewrite (Z.div_mod t d) at 1 by lia.
    replace (d * (t / d) + t mod d - t mod d) with ((t / d) * d) by lia.
    apply Z.mod_mul. lia.
  - intros j Hj. rewrite py_mod_nonzero by lia. f_equal. apply Z.eqb_neq.
    rewrite (Z.div_mod t d) at 1 by lia.
    replace (d * (t / d) + t mod d + j) with (t mod d + j + (t / d) * d) by lia.
    rewrite Z.mod_add by lia. rewrite Z.mod_small by lia. lia.
Qed.

(** A synchronous node with delta in [0, R) times out exactly once in every
    round: within the k-th window of R consecutive ticks, it fires at
    k * R + delta and at no other tick. *)
Theorem sync_fires_once_per_round (n : GossipNode H D) (k t : Z) :
  sync n = true ->
  0 <= delta n < round_len n ->
  k * round_len n <= t < (k + 1) * round_len n ->
  exists b : bool,
    GossipNode_timed_out n t = Ok b /\
    (b = true <-> t = k * round_len n + delta n).
Proof.
  intros Hs Hd Ht. unfold GossipNode_timed_out. rewrite Hs.
  rewrite py_mod_nonzero by lia. eexists. split; [reflexivity|].
  rewrite Z.eqb_eq.
  assert (Hmod : t mod round_len n = t - k * round_len n).
  { symmetry. apply Z.mod_unique with (q := k); lia. }
  rewrite Hmod. lia.
Qed.

(** An asynchronous node is governed by the absolute value of its delta: a
    non-zero delta, negative ones included, makes it time out exactly at the
    multiples of |delta|, while a zero delta makes every call raise
    ZeroDivisionError. *)
Theorem async_fires_at_multiples (n : GossipNode H D) (t : Z) :
  sync n = false ->
  (delta n = 0 -> GossipNode_timed_out n t = Raise ZeroDivisionError) /\
  (delta n <> 0 ->
   exists b : bool,
     GossipNode_timed_out n t = Ok b /\
     (b = true <-> (Z.abs (delta n) | t))).
Proof.
  intros Hs. unfold GossipNode_timed_out. rewrite Hs. split.
  - intros ->. reflexivity.
  - intros Hd. rewrite py_mod_nonzero by done. eexists. split; [reflexivity|].
    rewrite Z.eqb_eq, Z.mod_divide by done. symmetry. apply Z.divide_abs_l.
Qed.
End TimingMore.

Lemma next_timed_out_is_next_firing_witness :
  exists r : Z,
    ChordNode_next_timed_out chord_async 9 = Ok r /\
    1 <= r <= 4 /\
    GossipNode_timed_out node_async (9 + r) = Ok true.
Proof.
  destruct (next_timed_out_is_next_firing chord_async 9 eq_refl ltac:(simpl; lia))
    as (r & Hr & Hb & Hfire & _).
  exists r. split; [exact Hr|]. split; [exact Hb | exact Hfire].
Defined.

Lemma sync_fires_once_per_round_witness :
  exists b : bool,
    GossipNode_timed_out node_sync 23 = Ok b /\ (b = true <-> 23 = 2 * 10 + 3).
Proof.
  apply (sync_fires_once_per_round node_sync 2 23 eq_refl); simpl; lia.
Defined.

Lemma async_fires_at_multiples_witness :
  exists b : bool,
    GossipNode_timed_out node_async 12 = Ok b /\ (b = true <-> (Z.abs 4 | 12)).
Proof.
  apply (proj2 (async_fires_at_multiples node_async 12 eq_refl)). simpl. lia.
Defined.

(** ** The finger table, continued *)

Section FingerMore.
Context {H D G : Type} `{NumpyRandom G} `{MathLog2}.

(** The node that [ChordNode.__init__] builds where [math.log2] is
    correctly rounded. *)
Lemma ChordNode_init_table (idx : NodeId) (d : D * option D) (R : Z) (h : H)
    (net : P2PNetwork) (s : bool) (g : G) :
  1 <= P2PNetwork_size net < 2 ^ 49 - 1 ->
  0 <= idx < P2PNetwork_size net ->
  1 <= R ->
  log2_nearest (P2PNetwork_size net) (math_log2 (P2PNetwork_size net)) ->
  exists (base : GossipNode H D) (g' : G),
    GossipNode_init idx d R h net s g = (Ok base, g') /\
    ChordNode_init idx d R h net s g =
      (Ok (mkChordNode base
             (reverse (finger_spec idx (P2PNetwork_size net)
                         (Z.to_nat (Z.log2 (P2PNetwork_size net) + 1)))) []),
       g').
Proof.
  intros HN Hidx HR Hlog.
  destruct (ChordNode_init_loop idx d R h net s g ltac:(lia) HR)
    as (base & g' & Hbase & Hinit).
  rewrite (int_log2_nearest _ _ HN Hlog) in Hinit.
  rewrite finger_entries_spec in Hinit by (done || lia).
  by exists base, g'.
Qed.

Lemma pow2_lt_mono (i j : nat) : (i < j)%nat -> 2 ^ Z.of_nat i < 2 ^ Z.of_nat j.
Proof. intros Hij. apply Z.pow_lt_mono_r; lia. Qed.

Lemma finger_entry_range (idx size : Z) (i : nat) :
  0 <= idx < size -> 2 ^ Z.of_nat i <= size ->
  0 <= finger_entry idx size i < size.
Proof.
  intros Hidx Hpow. unfold finger_entry.
  assert (0 < 2 ^ Z.of_nat i) by (apply Z.pow_pos_nonneg; lia).
  destruct (Z.leb_spec size (idx + 2 ^ Z.of_nat i)); lia.
Qed.

Lemma finger_entry_inj (idx size : Z) (i j : nat) :
  0 <= idx < size ->
  2 ^ Z.of_nat i <= size -> 2 ^ Z.of_nat j <= size ->
  finger_entry idx size i = finger_entry idx size j -> i = j.
Proof.
  intros Hidx Hi Hj. unfold finger_entry.
  assert (0 < 2 ^ Z.of_nat i) by (apply Z.pow_pos_nonneg; lia).
  assert (0 < 2 ^ Z.of_nat j) by (apply Z.pow_pos_nonneg; lia).
  destruct (Nat.lt_trichotomy i j) as [Hlt|[->|Hlt]]; [|done|];
    apply pow2_lt_mono in Hlt;
    destruct (Z.leb_spec size (idx + 2 ^ Z.of_nat i)),
             (Z.leb_spec size (idx + 2 ^ Z.of_nat j)); lia.
Qed.

(** The finger table of a ChordNode built with idx in [0, N) over N nodes,
    1 <= N < 2^49 - 1, where math.log2 is correctly rounded at N, holds valid
    node ids only, and no id twice. *)
Theorem finger_table_valid_distinct (idx : NodeId) (d : D * option D) (R : Z)
    (h : H) (net : P2PNetwork) (s : bool) (g : G) :
  1 <= P2PNetwork_size net < 2 ^ 49 - 1 ->
  0 <= idx < P2PNetwork_size net ->
  1 <= R ->
  log2_nearest (P2PNetwork_size net) (math_log2 (P2PNetwork_size net)) ->
  exists (node : ChordNode H D) (g' : G),
    ChordNode_init idx d R h net s g = (Ok node, g') /\
    (forall x : Z, x ∈ ChordNode_get_peers node -> 0 <= x < P2PNetwork_size net) /\
    NoDup (ChordNode_get_peers node).
Proof.
  intros HN Hidx HR Hlog.
  destruct (ChordNode_init_table idx d R h net s g HN Hidx HR Hlog)
    as (base & g' & _ & Hinit).
  eexists _, g'. split; [exact Hinit|]. unfold ChordNode_get_peers. simpl.
  clear Hlog Hinit.
  set (N := P2PNetwork_size net) in *. set (m := Z.to_nat (Z.log2 N + 1)).
  assert (HN1 : 1 <= N) by lia.
  rewrite <- (finger_entries_spec idx N m) by (subst m; done || lia).
  split.
  - intros x Hx. apply elem_of_reverse, list_elem_of_fmap in Hx as (i & -> & Hi).
    apply elem_of_seq in Hi. apply finger_entry_range; [done|].
    apply pow2_le_size; [done | subst m; lia].
  - rewrite reverse_Permutation. apply NoDup_fmap_2_strong; [|apply NoDup_seq].
    intros i j Hi%elem_of_seq Hj%elem_of_seq.
    apply finger_entry_inj; [done| |]; apply pow2_le_size; subst m; done || lia.
Qed.

(** For 1 <= N < 2^49 - 1 and math.log2 correctly rounded at N, the last
    entry of the stored table is the successor (idx + 1) mod N, and the
    first is (idx + 2^floor(log2 N)) mod N; the node finds itself in its own
    table exactly when N is a power of two. *)
Theorem finger_table_successor_and_self (idx : NodeId) (d : D * option D) (R : Z)
    (h : H) (net : P2PNetwork) (s : bool) (g : G) :
  1 <= P2PNetwork_size net < 2 ^ 49 - 1 ->
  0 <= idx < P2PNetwork_size net ->
  1 <= R ->
  log2_nearest (P2PNetwork_size net) (math_log2 (P2PNetwork_size net)) ->
  let N := P2PNetwork_size net in
  exists (node : ChordNode H D) (g' : G),
    ChordNode_init idx d R h net s g = (Ok node, g') /\
    last (ChordNode_get_peers node) = Some ((idx + 1) mod N) /\
    head (ChordNode_get_peers node) = Some ((idx + 2 ^ Z.log2 N) mod N) /\
    (idx ∈ ChordNode_get_peers node <-> N = 2 ^ Z.log2 N).
Proof.
  intros HN Hidx HR Hlog N.
  destruct (ChordNode_init_table idx d R h net s g HN Hidx HR Hlog)
    as (base & g' & _ & Hinit).
  eexists _, g'. split; [exact Hinit|]. unfold ChordNode_get_peers. simpl.
  clear Hlog Hinit.
  fold N in HN, Hidx |- *. assert (HN1 : 1 <= N) by lia.
  pose proof (Z.log2_nonneg N) as Hlg.
  destruct (Z.log2_spec N ltac:(lia)) as [Hlo Hhi].
  replace (Z.to_nat (Z.log2 N + 1)) with (S (Z.to_nat (Z.log2 N))) by lia.
  set (k := Z.to_nat (Z.log2 N)).
  assert (Hk : Z.of_nat k = Z.log2 N) by (subst k; lia).
  split; [|split].
  - unfold finger_spec. simpl. rewrite reverse_cons, last_snoc.
    replace (idx + 2 ^ Z.of_nat 0) with (idx + 1) by done. done.
  - unfold finger_spec. rewrite seq_S, fmap_app, reverse_app. simpl.
    by rewrite Hk.
  - rewrite elem_of_reverse.
    rewrite <- (finger_entries_spec idx N (S k)) by (subst k; done || lia).
    rewrite list_elem_of_fmap. split.
    + intros (i & Hi & Hin). apply elem_of_seq in Hin.
      assert (Hp : 2 ^ Z.of_nat i <= 2 ^ Z.log2 N)
        by (apply Z.pow_le_mono_r; lia).
      assert (Hpos : 0 < 2 ^ Z.of_nat i) by (apply Z.pow_pos_nonneg; lia).
      unfold finger_entry in Hi.
      destruct (Z.leb_spec N (idx + 2 ^ Z.of_nat i)); lia.
    + intros HNp. exists k. split; [|apply elem_of_seq; lia].
      unfold finger_entry. rewrite Hk, <- HNp.
      destruct (Z.leb_spec N (idx + N)); lia.
Qed.
End FingerMore.

Lemma finger_table_valid_distinct_witness :
  exists (node : ChordNode Z Z) (g' : list Q),
    ChordNode_init 5 (5, None) 10 7 net8 true [] = (Ok node, g') /\
    NoDup (ChordNode_get_peers node).
Proof.
  destruct (finger_table_valid_distinct (H := Z) (D := Z) 5 (5, None) 10 7 net8
              true [])
    as (node & g' & Hinit & _ & Hnd);
    [simpl; lia | simpl; lia | lia | exact (log2_nearest_pow2 3 ltac:(lia)) |].
  exists node, g'. split; [exact Hinit | exact Hnd].
Defined.

Lemma finger_table_successor_and_self_witness :
  exists (node : ChordNode Z Z) (g' : list Q),
    ChordNode_init 5 (5, None) 10 7 net8 true [] = (Ok node, g') /\
    last (ChordNode_get_peers node) = Some 6 /\
    5 ∈ ChordNode_get_peers node.
Proof.
  destruct (finger_table_successor_and_self (H := Z) (D := Z) 5 (5, None) 10 7
              net8 true [])
    as (node & g' & Hinit & Hlast & _ & Hself);
    [simpl; lia | simpl; lia | lia | exact (log2_nearest_pow2 3 ltac:(lia)) |].
  exists node, g'. split; [exact Hinit|]. split; [exact Hlast|].
  apply Hself. reflexivity.
Defined.

(** ** Exchanges between two nodes

    The node that sends and the node that receives share the Cache and the
    generator; the scheduler hands the message built by the one to the
    other, and the answer back. *)

Section CacheRoundTrip.
Context {V : Type}.

Lemma Cache_wf_fresh (c : Cache V) : Cache_wf c -> store c !! next_key c = None.
Proof.
  intros Hwf. destruct (store c !! next_key c) eqn:Hk; [|done].
  specialize (Hwf (next_key c)). rewrite Hk in Hwf.
  specialize (Hwf (mk_is_Some _ _ eq_refl)). lia.
Qed.

Lemma Cache_wf_advance (c : Cache V) :
  Cache_wf c -> Cache_wf (mkCache (store c) (next_key c + 1)%N).
Proof. intros Hwf k Hk. specialize (Hwf k Hk). simpl in *. lia. Qed.

(** A key that has just been put is popped back with its value, and the
    Cache then holds what it held before. *)
Lemma Cache_put_pop (v : V) (c : Cache V) :
  Cache_wf c ->
  Cache_pop (KeyV (Cache_put v c).1) (Cache_put v c).2
    = Some (v, mkCache (store c) (next_key c + 1)%N).
Proof.
  intros Hwf. simpl. rewrite lookup_insert_eq.
  by rewrite delete_insert_id by by apply Cache_wf_fresh.
Qed.
End CacheRoundTrip.

Section Exchange.
Context {H D G : Type} `{ModelHandler H D}.

(** A PUSH from node a, received by node b: b merges the model of a as it was
    when sent, nothing is answered, and the key that travelled is consumed,
    the Cache holding afterwards exactly what it held before. *)
Theorem push_delivery (a b : GossipNode H D) (c : Cache H) (g : G) (t t' : Z) :
  Cache_wf c ->
  exists (msg : Message) (c1 : Cache H),
    GossipNode_send t (idx b) AntiEntropyProtocol.PUSH (mkWorld a c g)
      = (Ok msg, mkWorld a c1 g) /\
    sender msg = idx a /\ receiver msg = idx b /\
    GossipNode_receive t' msg (mkWorld b c1 g)
      = (Ok None,
         mkWorld (set_model_handler
                    (mh_call (model_handler b) (model_handler a) (data b).1) b)
                 (mkCache (store c) (next_key c + 1)%N) g).
Proof.
  intros Hwf. eexists _, _. split; [reflexivity|]. split; [done|]. split; [done|].
  unfold GossipNode_receive. py_run. unfold CACHE_pop. simpl.
  pose proof (Cache_put_pop (model_handler a) c Hwf) as Hpop. simpl in Hpop.
  rewrite Hpop. reflexivity.
Qed.

(** A PULL from node a, answered by node b: the request carries nothing and
    changes nothing; b answers with a snapshot of its model and is itself
    unchanged; a merges that snapshot; the Cache ends as it started. *)
Theorem pull_exchange (a b : GossipNode H D) (c : Cache H) (g : G) (t t1 t2 : Z) :
  Cache_wf c ->
  exists (msg reply : Message) (c1 : Cache H),
    GossipNode_send t (idx b) AntiEntropyProtocol.PULL (mkWorld a c g)
      = (Ok msg, mkWorld a c g) /\
    value msg = None /\
    GossipNode_receive t1 msg (mkWorld b c g)
      = (Ok (Some reply), mkWorld b c1 g) /\
    type reply = MessageType.REPLY /\
    sender reply = idx b /\ receiver reply = idx a /\
    GossipNode_receive t2 reply (mkWorld a c1 g)
      = (Ok None,
         mkWorld (set_model_handler
                    (mh_call (model_handler a) (model_handler b) (data a).1) a)
                 (mkCache (store c) (next_key c + 1)%N) g).
Proof.
  intros Hwf. eexists _, _, _. split; [reflexivity|]. split; [done|].
  split; [reflexivity|]. split; [done|]. split; [done|]. split; [done|].
  unfold GossipNode_receive. py_run. unfold CACHE_pop. simpl.
  pose proof (Cache_put_pop (model_handler b) c Hwf) as Hpop. simpl in Hpop.
  rewrite Hpop. reflexivity.
Qed.

(** A PUSH_PULL from node a to node b and back: b merges the model of a and
    answers with a snapshot taken after that merge; a merges this snapshot;
    both keys are consumed and the Cache ends as it started. *)
Theorem push_pull_exchange (a b : GossipNode H D) (c : Cache H) (g : G)
    (t t1 t2 : Z) :
  Cache_wf c ->
  let hb' := mh_call (model_handler b) (model_handler a) (data b).1 in
  exists (msg reply : Message) (c1 c2 : Cache H),
    GossipNode_send t (idx b) AntiEntropyProtocol.PUSH_PULL (mkWorld a c g)
      = (Ok msg, mkWorld a c1 g) /\
    GossipNode_receive t1 msg (mkWorld b c1 g)
      = (Ok (Some reply), mkWorld (set_model_handler hb' b) c2 g) /\
    type reply = MessageType.REPLY /\
    sender reply = idx b /\ receiver reply = idx a /\
    GossipNode_receive t2 reply (mkWorld a c2 g)
      = (Ok None,
         mkWorld (set_model_handler
                    (mh_call (model_handler a) hb' (data a).1) a)
                 (mkCache (store c) (next_key c + 2)%N) g).
Proof.
  intros Hwf hb'.
  pose proof (Cache_put_pop (model_handler a) c Hwf) as Hpop1. simpl in Hpop1.
  pose proof (Cache_put_pop hb' _ (Cache_wf_advance c Hwf)) as Hpop2.
  simpl in Hpop2.
  eexists _, _, _, _. split; [reflexivity|]. split.
  { unfold GossipNode_receive. py_run. unfold CACHE_pop. simpl.
    rewrite Hpop1. reflexivity. }
  split; [done|]. split; [done|]. split; [done|].
  unfold GossipNode_receive. py_run. unfold CACHE_pop. simpl.
  fold hb'. rewrite Hpop2.
  replace (next_key c + 1 + 1)%N with (next_key c + 2)%N by lia. reflexivity.
Qed.
End Exchange.

Lemma cache2_wf : Cache_wf cache2.
Proof.
  intros k [v Hk]. unfold cache2 in *. simpl in *.
  destruct (decide (k = 1%N)) as [->|?]; [lia|].
  destruct (decide (k = 0%N)) as [->|?]; [lia|].
  by rewrite !lookup_insert_ne, lookup_empty in Hk.
Qed.

Lemma push_delivery_witness :
  exists (msg : Message) (c1 : Cache Z),
    GossipNode_send 3 1 AntiEntropyProtocol.PUSH (mkWorld node_sync cache2 ([] : list Q))
      = (Ok msg, mkWorld node_sync c1 []) /\
    GossipNode_receive 5 msg (mkWorld node_peer c1 ([] : list Q))
      = (Ok None,
         mkWorld (mkGossipNode 1 (9, None) 10 36 true 6 net4)
                 (mkCache (store cache2) 3%N) []).
Proof.
  destruct (push_delivery node_sync node_peer cache2 ([] : list Q) 3 5 cache2_wf)
    as (msg & c1 & Hsend & _ & _ & Hrecv).
  exists msg, c1. split; [exact Hsend | exact Hrecv].
Defined.

Lemma pull_exchange_witness :
  exists (msg reply : Message) (c1 : Cache Z),
    GossipNode_send 3 1 AntiEntropyProtocol.PULL (mkWorld node_sync cache2 ([] : list Q))
      = (Ok msg, mkWorld node_sync cache2 []) /\
    GossipNode_receive 4 msg (mkWorld node_peer cache2 ([] : list Q))
      = (Ok (Some reply), mkWorld node_peer c1 []) /\
    GossipNode_receive 5 reply (mkWorld node_sync c1 ([] : list Q))
      = (Ok None,
         mkWorld (mkGossipNode 0 (5, None) 10 32 true 3 net4)
                 (mkCache (store cache2) 3%N) []).
Proof.
  destruct (pull_exchange node_sync node_peer cache2 ([] : list Q) 3 4 5 cache2_wf)
    as (msg & reply & c1 & Hsend & _ & Hrecv & _ & _ & _ & Hback).
  exists msg, reply, c1. split; [exact Hsend|]. split; [exact Hrecv | exact Hback].
Defined.

Lemma push_pull_exchange_witness :
  exists (msg reply : Message) (c1 c2 : Cache Z),
    GossipNode_send 3 1 AntiEntropyProtocol.PUSH_PULL
        (mkWorld node_sync cache2 ([] : list Q))
      = (Ok msg, mkWorld node_sync c1 []) /\
    GossipNode_receive 4 msg (mkWorld node_peer c1 ([] : list Q))
      = (Ok (Some reply), mkWorld (mkGossipNode 1 (9, None) 10 36 true 6 net4) c2 []) /\
    GossipNode_receive 5 reply (mkWorld node_sync c2 ([] : list Q))
      = (Ok None,
         mkWorld (mkGossipNode 0 (5, None) 10 48 true 3 net4)
                 (mkCache (store cache2) 4%N) []).
Proof.
  destruct (push_pull_exchange node_sync node_peer cache2 ([] : list Q) 3 4 5
              cache2_wf)
    as (msg & reply & c1 & c2 & Hsend & Hrecv & _ & _ & _ & Hback).
  exists msg, reply, c1, c2. split; [exact Hsend|].
  split; [exact Hrecv | exact Hback].
Defined.

Section SamplingExchange.
Context {H D G Smp : Type} `{SamplingTMH H D Smp}.

(** A PUSH between two sampling nodes: the message advertises the sample
    size of the sender, and it is with that size, not with its own, that the
    receiver samples the received model before merging; the key is consumed
    and the Cache ends as it started. *)
Theorem sampling_push_delivery (a b : GossipNode H D) (c : Cache H) (g : G)
    (t t' : Z) :
  Cache_wf c ->
  let ha := model_handler a in
  exists (msg : Message) (c1 : Cache H),
    SamplingBasedNode_send t (idx b) AntiEntropyProtocol.PUSH (mkWorld a c g)
      = (Ok msg, mkWorld a c1 g) /\
    value msg = Some [KeyV (next_key c); IntV (sample_size ha)] /\
    SamplingBasedNode_receive t' msg (mkWorld b c1 g)
      = (Ok None,
         mkWorld (set_model_handler
                    (stmh_call (model_handler b) ha (data b).1
                       (TorchModelSampling_sample (IntV (sample_size ha)) ha)) b)
                 (mkCache (store c) (next_key c + 1)%N) g).
Proof.
  intros Hwf ha. subst ha. eexists _, _. split; [reflexivity|]. split; [done|].
  unfold SamplingBasedNode_receive. py_run. unfold CACHE_pop. simpl.
  pose proof (Cache_put_pop (model_handler a) c Hwf) as Hpop. simpl in Hpop.
  rewrite Hpop. reflexivity.
Qed.
End SamplingExchange.

Lemma sampling_push_delivery_witness :
  exists (msg : Message) (c1 : Cache Z),
    SamplingBasedNode_send 3 1 AntiEntropyProtocol.PUSH
        (mkWorld node_sync cache2 ([] : list Q))
      = (Ok msg, mkWorld node_sync c1 []) /\
    value msg = Some [KeyV 2%N; IntV 1] /\
    SamplingBasedNode_receive 5 msg (mkWorld node_peer c1 ([] : list Q))
      = (Ok None,
         mkWorld (mkGossipNode 1 (9, None) 10 36 true 6 net4)
                 (mkCache (store cache2) 3%N) []).
Proof.
  destruct (sampling_push_delivery (Smp := Z) node_sync node_peer cache2
              ([] : list Q) 3 5 cache2_wf)
    as (msg & c1 & Hsend & Hval & Hrecv).
  exists msg, c1. split; [exact Hsend|]. split; [exact Hval | exact Hrecv].
Defined.

Section Malformed.
Context {H D G Smp P : Type} `{SamplingTMH H D Smp} `{SliceMerge P D}
  `{NumpyRandom G}.

(** The sampling and the partitioning nodes unpack the payload of a PUSH,
    REPLY or PUSH_PULL message as a pair before anything else: a message
    without payload raises TypeError and a payload that is not a pair (such
    as the one-key payload of a base node) raises ValueError, the node, the
    Cache and the key named in the message being left untouched. *)
Theorem receive_rejects_malformed_payload (t : Z) (msg : Message) :
  is_push_reply_pushpull (type msg) = true ->
  (forall w : World H (GossipNode H D) G,
     (value msg = None ->
      SamplingBasedNode_receive t msg w = (Raise TypeError, w)) /\
     (forall l, value msg = Some l -> length l <> 2%nat ->
                SamplingBasedNode_receive t msg w = (Raise (ValueError "unpack"), w))) /\
  (forall w : World (PartitionedTMH P) (GossipNode (PartitionedTMH P) D) G,
     (value msg = None ->
      PartitioningBasedNode_receive t msg w = (Raise TypeError, w)) /\
     (forall l, value msg = Some l -> length l <> 2%nat ->
                PartitioningBasedNode_receive t msg w
                  = (Raise (ValueError "unpack"), w))).
Proof.
  intros Hty. split; intros w; split.
  - intros Hv. unfold SamplingBasedNode_receive. by rewrite Hty, Hv.
  - intros l Hv Hl. unfold SamplingBasedNode_receive. rewrite Hty, Hv.
    by destruct l as [|x [|y [|z l]]].
  - intros Hv. unfold PartitioningBasedNode_receive. by rewrite Hty, Hv.
  - intros l Hv Hl. unfold PartitioningBasedNode_receive. rewrite Hty, Hv.
    by destruct l as [|x [|y [|z l]]].
Qed.

(** send of a partitioning node draws the partition id before it caches the
    model: with at least one partition, PUSH and PUSH_PULL cache the model
    and name a partition in [0, n_parts); with no partition they raise
    ValueError and nothing is cached; PULL neither draws nor caches. *)
Theorem partition_send_draws_first
    (w : World (PartitionedTMH P) (GossipNode (PartitionedTMH P) D) G)
    (t : Z) (peer : NodeId) :
  let n := self w in
  let np := n_parts (model_handler n) in
  let draw := randint_draw 0 np (RNG w) in
  let put := Cache_put (model_handler n) (CACHE w) in
  (0 < np ->
   0 <= draw.1 < np /\
   PartitioningBasedNode_send t peer AntiEntropyProtocol.PUSH w
     = (Ok (mkMessage t (idx n) peer MessageType.PUSH
              (Some [KeyV put.1; IntV draw.1])),
        mkWorld n put.2 draw.2) /\
   PartitioningBasedNode_send t peer AntiEntropyProtocol.PUSH_PULL w
     = (Ok (mkMessage t (idx n) peer MessageType.PUSH_PULL
              (Some [KeyV put.1; IntV draw.1])),
        mkWorld n put.2 draw.2)) /\
  (np <= 0 ->
   PartitioningBasedNode_send t peer AntiEntropyProtocol.PUSH w
     = (Raise (ValueError "low >= high"), w) /\
   PartitioningBasedNode_send t peer AntiEntropyProtocol.PUSH_PULL w
     = (Raise (ValueError "low >= high"), w)) /\
  PartitioningBasedNode_send t peer AntiEntropyProtocol.PULL w
    = (Ok (mkMessage t (idx n) peer MessageType.PULL None), w).
Proof.
  intros n np draw put. split; [|split].
  - intros Hnp. split; [apply randint_draw_range; lia|].
    unfold PartitioningBasedNode_send. py_run. unfold with_rng. simpl.
    fold n np. rewrite randint_ok by done. done.
  - intros Hnp. unfold PartitioningBasedNode_send. py_run. unfold with_rng.
    simpl. fold n np. unfold randint. destruct (Z.ltb_spec 0 np); [lia|].
    unfold raise. by destruct w.
  - reflexivity.
Qed.
End Malformed.

Lemma receive_rejects_malformed_payload_witness :
  PartitioningBasedNode_receive 12 msg_push world_part
    = (Raise (ValueError "unpack"), world_part) /\
  SamplingBasedNode_receive 12 (mkMessage 12 1 0 MessageType.PUSH None) world_base
    = (Raise TypeError, world_base).
Proof.
  destruct (receive_rejects_malformed_payload (H := Z) (D := Z) (G := list Q)
              (Smp := Z) (P := Z) 12 msg_push eq_refl) as [_ Hpart].
  destruct (receive_rejects_malformed_payload (H := Z) (D := Z) (G := list Q)
              (Smp := Z) (P := Z) 12 (mkMessage 12 1 0 MessageType.PUSH None)
              eq_refl) as [Hsamp _].
  split.
  - apply (proj2 (Hpart world_part) [KeyV 1%N]); [reflexivity | simpl; lia].
  - apply (proj1 (Hsamp world_base)). reflexivity.
Defined.

Lemma partition_send_draws_first_witness :
  PartitioningBasedNode_send 12 1 AntiEntropyProtocol.PUSH world_part
    = (Ok (mkMessage 12 0 1 MessageType.PUSH (Some [KeyV 1%N; IntV 3])),
       mkWorld (self world_part)
               (Cache_put (model_handler (self world_part)) (CACHE world_part)).2
               []) /\
  PartitioningBasedNode_send 12 1 AntiEntropyProtocol.PUSH world_part_empty
    = (Raise (ValueError "low >= high"), world_part_empty).
Proof.
  split.
  - destruct (proj1 (partition_send_draws_first world_part 12 1))
      as (_ & Hpush & _); [by vm_compute|]. exact Hpush.
  - destruct (proj1 (proj2 (partition_send_draws_first world_part_empty 12 1)))
      as [Hpush _]; [by vm_compute|]. exact Hpush.
Defined.

(** ** Pushes through the local cache *)

Section PushRound.
Context {H D W G : Type} `{WeightedTMH H D W}.

(** A push relayed by a ChordNode: called with a sender other than its own
    idx, send stamps the message with that sender and with the limit given,
    but the snapshot it caches is of the relaying node's own model.  The
    receiver files the key under the sender named in the message; its next
    firing merges exactly that snapshot, empties the local cache and leaves
    the Cache as it was before the push. *)
Theorem chord_relay_round (a b : ChordNode H D) (c : Cache H) (g : G)
    (t t1 t2 : Z) (s lim : NodeId) (weights : W) :
  Cache_wf c ->
  chord_local_cache b = [] ->
  GossipNode_timed_out (chord_base b) t2 = Ok true ->
  exists (msg : ChordMessage) (c1 : Cache H),
    ChordNode_send t s (idx (chord_base b)) AntiEntropyProtocol.PUSH lim
        (mkWorld a c g)
      = (Ok msg, mkWorld a c1 g) /\
    sender (chord_msg msg) = s /\ limit msg = lim /\
    snapshot_of c1 (value0 (value (chord_msg msg))) (model_handler (chord_base a)) /\
    ChordNode_receive t1 msg (mkWorld b c1 g)
      = (Ok None,
         mkWorld (chord_set_local_cache [(s, KeyV (next_key c))] b) c1 g) /\
    ChordNode_timed_out t2 weights
        (mkWorld (chord_set_local_cache [(s, KeyV (next_key c))] b) c1 g)
      = (Ok true,
         mkWorld (mkChordNode
                    (set_model_handler
                       (wtmh_call (model_handler (chord_base b))
                          [model_handler (chord_base a)]
                          (data (chord_base b)).1 weights)
                       (chord_base b))
                    (finger b) [])
                 (mkCache (store c) (next_key c + 1)%N) g).
Proof.
  intros Hwf Hlc Htout. eexists _, _. split; [reflexivity|].
  split; [done|]. split; [done|]. split.
  { eexists. split; [reflexivity|]. simpl. apply lookup_insert_eq. }
  split.
  { unfold ChordNode_receive. py_run. rewrite Hlc. simpl. by rewrite Hlc. }
  unfold ChordNode_timed_out. py_run. rewrite Htout. simpl. py_run.
  unfold CACHE_pop. simpl.
  pose proof (Cache_put_pop (model_handler (chord_base a)) c Hwf) as Hpop.
  simpl in Hpop. rewrite Hpop. reflexivity.
Qed.

(** A push between two All2AllGossipNodes: send is the PUSH of the base
    node and leaves the sender's local cache alone; the receiver files the
    key under the idx of the sender; its next firing merges exactly the
    sender's snapshot, empties the local cache and leaves the Cache as it was
    before the push. *)
Theorem all2all_push_round (a b : All2AllGossipNode H D) (c : Cache H) (g : G)
    (t t1 t2 : Z) (weights : W) :
  Cache_wf c ->
  a2a_local_cache b = [] ->
  GossipNode_timed_out (a2a_base b) t2 = Ok true ->
  exists (msg : Message) (c1 : Cache H),
    All2AllGossipNode_send t (idx (a2a_base b)) AntiEntropyProtocol.PUSH
        (mkWorld a c g)
      = (Ok msg, mkWorld a c1 g) /\
    GossipNode_send t (idx (a2a_base b)) AntiEntropyProtocol.PUSH
        (mkWorld (a2a_base a) c g)
      = (Ok msg, mkWorld (a2a_base a) c1 g) /\
    All2AllGossipNode_receive t1 msg (mkWorld b c1 g)
      = (Ok None,
         mkWorld (a2a_set_local_cache [(idx (a2a_base a), KeyV (next_key c))] b)
                 c1 g) /\
    All2AllGossipNode_timed_out t2 weights
        (mkWorld (a2a_set_local_cache [(idx (a2a_base a), KeyV (next_key c))] b)
                 c1 g)
      = (Ok true,
         mkWorld (mkAll2AllGossipNode
                    (set_model_handler
                       (wtmh_call (model_handler (a2a_base b))
                          [model_handler (a2a_base a)]
                          (data (a2a_base b)).1 weights)
                       (a2a_base b))
                    [])
                 (mkCache (store c) (next_key c + 1)%N) g).
Proof.
  intros Hwf Hlc Htout. eexists _, _. split.
  { unfold All2AllGossipNode_send, super. simpl. py_run. by destruct a. }
  split; [reflexivity|]. split.
  { unfold All2AllGossipNode_receive. py_run. rewrite Hlc. simpl. by rewrite Hlc. }
  unfold All2AllGossipNode_timed_out. py_run. rewrite Htout. simpl. py_run.
  unfold CACHE_pop. simpl.
  pose proof (Cache_put_pop (model_handler (a2a_base a)) c Hwf) as Hpop.
  simpl in Hpop. rewrite Hpop. reflexivity.
Qed.
End PushRound.

Lemma chord_relay_round_witness :
  exists (msg : ChordMessage) (c1 : Cache Z),
    ChordNode_send 3 2 1 AntiEntropyProtocol.PUSH 3
        (mkWorld chord_a cache2 ([] : list Q))
      = (Ok msg, mkWorld chord_a c1 []) /\
    sender (chord_msg msg) = 2 /\
    ChordNode_timed_out 16 [1; 1]
        (mkWorld (chord_set_local_cache [(2, KeyV 2%N)] chord_b) c1 ([] : list Q))
      = (Ok true,
         mkWorld (mkChordNode (mkGossipNode 1 (9, None) 10 36 true 6 net4)
                    [1; 3; 2] [])
                 (mkCache (store cache2) 3%N) []).
Proof.
  destruct (chord_relay_round chord_a chord_b cache2 ([] : list Q) 3 4 16 2 3
              [1; 1] cache2_wf eq_refl eq_refl)
    as (msg & c1 & Hsend & Hs & _ & _ & _ & Hfire).
  exists msg, c1. split; [exact Hsend|]. split; [exact Hs | exact Hfire].
Defined.

Lemma all2all_push_round_witness :
  exists (msg : Message) (c1 : Cache Z),
    All2AllGossipNode_send 3 1 AntiEntropyProtocol.PUSH
        (mkWorld a2a_a cache2 ([] : list Q))
      = (Ok msg, mkWorld a2a_a c1 []) /\
    All2AllGossipNode_timed_out 16 [1; 1]
        (mkWorld (a2a_set_local_cache [(0, KeyV 2%N)] a2a_b) c1 ([] : list Q))
      = (Ok true,
         mkWorld (mkAll2AllGossipNode
                    (mkGossipNode 1 (9, None) 10 36 true 6 net4) [])
                 (mkCache (store cache2) 3%N) []).
Proof.
  destruct (all2all_push_round a2a_a a2a_b cache2 ([] : list Q) 3 4 16 [1; 1]
              cache2_wf eq_refl eq_refl)
    as (msg & c1 & Hsend & _ & _ & Hfire).
  exists msg, c1. split; [exact Hsend | exact Hfire].
Defined.

Section MergeOrder.
Context {H D G : Type}.

Lemma add_new_elem (acc : list NodeId) (x y : NodeId) :
  y ∈ add_new acc x <-> y = x \/ y ∈ acc.
Proof.
  unfold add_new. case_decide as Hx.
  - split; [by right|]. by intros [->|?].
  - rewrite elem_of_app, list_elem_of_singleton. tauto.
Qed.

Lemma foldl_add_new_elem (l acc : list NodeId) (y : NodeId) :
  y ∈ foldl add_new acc l <-> y ∈ acc \/ y ∈ l.
Proof.
  revert acc. induction l as [|x l IH]; intros acc; simpl.
  - rewrite elem_of_nil. tauto.
  - rewrite IH, add_new_elem, elem_of_cons. tauto.
Qed.

(** Inserting each element unless it is present keeps first occurrences. *)
Lemma foldl_add_new_first (l : list NodeId) :
  foldl add_new [] l = first_occurrences l.
Proof.
  unfold first_occurrences. induction l as [|x l IH] using rev_ind; [done|].
  rewrite foldl_app, reverse_app. simpl. rewrite IH.
  change (reverse [x]) with [x]. simpl. unfold add_new.
  destruct (decide_rel elem_of x (reverse l)) as [Hin|Hnin].
  - rewrite decide_True; [done|].
    by apply elem_of_reverse, elem_of_remove_dups.
  - rewrite decide_False; [by rewrite reverse_cons|].
    by rewrite elem_of_reverse, elem_of_remove_dups.
Qed.

Lemma lc_step_keys (lc : dict PyVal) (ms : list Message) :
  dict_keys (foldl lc_step lc ms) = foldl add_new (dict_keys lc) (push_senders ms).
Proof.
  revert lc. induction ms as [|m ms IH]; intros lc; [done|].
  simpl. rewrite IH, push_senders_cons. unfold lc_step.
  case_decide as Hty; [|done]. simpl. f_equal.
  rewrite dict_keys_set. unfold add_new.
  destruct (dict_get (sender m) lc) as [v|] eqn:Hg.
  - rewrite decide_True; [done|]. by eapply dict_get_Some_keys.
  - rewrite decide_False; [done|]. by apply dict_get_None_keys.
Qed.

Lemma last_key_of_cons (s : NodeId) (m : Message) (ms : list Message) :
  last_key_of s (m :: ms) =
    match last_key_of s ms with
    | Some k => Some k
    | None => if decide (type m = MessageType.PUSH /\ sender m = s)
              then Some (value0 (value m)) else None
    end.
Proof.
  unfold last_key_of. rewrite filter_cons. case_decide; [|by destruct (last _)].
  rewrite fmap_cons, last_cons. by destruct (last _).
Qed.

Lemma lc_step_get (s : NodeId) (ms : list Message) :
  forall lc : dict PyVal,
    dict_get s (foldl lc_step lc ms) =
      match last_key_of s ms with
      | Some k => Some k
      | None => dict_get s lc
      end.
Proof.
  induction ms as [|m ms IH]; intros lc; [done|].
  simpl. rewrite IH, last_key_of_cons.
  destruct (last_key_of s ms) as [k|]; [done|].
  unfold lc_step. destruct (decide (type m = MessageType.PUSH)) as [Hty|Hty].
  - destruct (decide (sender m = s)) as [<-|Hne].
    + rewrite decide_True by done. apply dict_get_set_eq.
    + rewrite decide_False by tauto. by apply dict_get_set_ne.
  - rewrite decide_False by tauto. done.
Qed.

Lemma All2AllGossipNode_run_cache (tms : list (Z * Message)) :
  forall (w w' : World H (All2AllGossipNode H D) G),
    forM_ (fun p => All2AllGossipNode_receive p.1 p.2) tms w = (Ok tt, w') ->
    a2a_local_cache (self w') = foldl lc_step (a2a_local_cache (self w)) tms.*2.
Proof.
  induction tms as [|[t m] tms IH]; intros w w'.
  - simpl. py_run. by intros [= <-].
  - simpl. unfold bind at 1.
    destruct (All2AllGossipNode_receive t m w) as [[r|e] w1] eqn:Hstep; [|done].
    intros Hrun. rewrite (IH _ _ Hrun).
    by rewrite (All2AllGossipNode_receive_cache _ _ _ _ _ Hstep).
Qed.

Lemma ChordNode_run_cache (tms : list (Z * ChordMessage)) :
  forall (w w' : World H (ChordNode H D) G),
    forM_ (fun p => ChordNode_receive p.1 p.2) tms w = (Ok tt, w') ->
    chord_local_cache (self w')
      = foldl lc_step (chord_local_cache (self w)) (chord_msg <$> tms.*2).
Proof.
  induction tms as [|[t m] tms IH]; intros w w'.
  - simpl. py_run. by intros [= <-].
  - simpl. unfold bind at 1.
    destruct (ChordNode_receive t m w) as [[r|e] w1] eqn:Hstep; [|done].
    intros Hrun. rewrite (IH _ _ Hrun).
    by rewrite (ChordNode_receive_cache _ _ _ _ _ Hstep).
Qed.

(** What a firing will merge, and in which order: after a run of receives
    that started with an empty local cache, the senders are held in the
    order in which each pushed for the first time, and the key held for a
    sender is the one of its last push (a later push takes the place of an
    earlier one without moving it). *)
Theorem local_cache_order_and_last_push :
  (forall (tms : list (Z * Message)) (w w' : World H (All2AllGossipNode H D) G),
     a2a_local_cache (self w) = [] ->
     forM_ (fun p => All2AllGossipNode_receive p.1 p.2) tms w = (Ok tt, w') ->
     dict_keys (a2a_local_cache (self w')) = first_occurrences (push_senders tms.*2) /\
     (forall s, dict_get s (a2a_local_cache (self w')) = last_key_of s tms.*2)) /\
  (forall (tms : list (Z * ChordMessage)) (w w' : World H (ChordNode H D) G),
     chord_local_cache (self w) = [] ->
     forM_ (fun p => ChordNode_receive p.1 p.2) tms w = (Ok tt, w') ->
     dict_keys (chord_local_cache (self w'))
       = first_occurrences (push_senders (chord_msg <$> tms.*2)) /\
     (forall s, dict_get s (chord_local_cache (self w'))
                = last_key_of s (chord_msg <$> tms.*2))).
Proof.
  split; intros tms w w' Hempty Hrun.
  - rewrite (All2AllGossipNode_run_cache _ _ _ Hrun), Hempty. split.
    + by rewrite lc_step_keys, foldl_add_new_first.
    + intros s. rewrite lc_step_get. by destruct (last_key_of s tms.*2).
  - rewrite (ChordNode_run_cache _ _ _ Hrun), Hempty. split.
    + by rewrite lc_step_keys, foldl_add_new_first.
    + intros s. rewrite lc_step_get. by destruct (last_key_of s _).
Qed.
End MergeOrder.

Lemma local_cache_order_and_last_push_witness :
  exists w' : World Z (All2AllGossipNode Z Z) (list Q),
    forM_ (fun p => All2AllGossipNode_receive p.1 p.2) run3
          (mkWorld a2a_a cache3 []) = (Ok tt, w') /\
    dict_keys (a2a_local_cache (self w')) = [2; 1] /\
    dict_get 2 (a2a_local_cache (self w')) = Some (KeyV 2%N).
Proof.
  eexists. split; [reflexivity|].
  destruct (proj1 (local_cache_order_and_last_push (H := Z) (D := Z) (G := list Q))
              run3 (mkWorld a2a_a cache3 []) _ eq_refl eq_refl) as [Hkeys Hget].
  split; [exact Hkeys | exact (Hget 2)].
Defined.

(** ** Assigning the examples to the clients *)

Section Uniform.
Context {G : Type} `{NumpyPermutation G}.

Lemma py_getitem_lookup {A : Type} (l : list A) (i : nat) (x : A) :
  l !! i = Some x -> py_getitem l (Z.of_nat i) = Done x.
Proof.
  intros Hl. pose proof (lookup_lt_Some _ _ _ Hl) as Hlt.
  unfold py_getitem. destruct (Z.ltb_spec (Z.of_nat i) 0); [lia|].
  destruct (Z.leb_spec 0 (Z.of_nat i)); [|lia].
  destruct (Z.ltb_spec (Z.of_nat i) (Z.of_nat (length l))); [|lia].
  simpl. by rewrite Nat2Z.id, Hl.
Qed.

Lemma py_getitem_lookup_Z {A : Type} (l : list A) (j : Z) (x : A) :
  0 <= j -> l !! Z.to_nat j = Some x -> py_getitem l j = Done x.
Proof.
  intros Hj Hl. rewrite <- (Z2Nat.id j Hj). by apply py_getitem_lookup.
Qed.

Lemma py_getitem_out_of_range {A : Type} (l : list A) (j : Z) :
  Z.of_nat (length l) <= j -> py_getitem l j = Fail IndexError.
Proof.
  intros Hj. unfold py_getitem. destruct (Z.ltb_spec j 0); [lia|].
  destruct (Z.ltb_spec j (Z.of_nat (length l))); [lia|].
  by rewrite andb_false_r.
Qed.

(** Indexing an array by a range that lies within it is slicing. *)
Lemma np_take_range (a : list Z) (len : nat) :
  forall lo : nat,
    (lo + len <= length a)%nat ->
    np_take a (seqZ (Z.of_nat lo) (Z.of_nat len)) = Done (take len (drop lo a)).
Proof.
  unfold np_take. induction len as [|len IH]; intros lo Hlen; [done|].
  rewrite seqZ_cons by lia. simpl mapO.
  destruct (a !! lo) as [x|] eqn:Hx;
    [|apply lookup_ge_None in Hx; lia].
  rewrite (py_getitem_lookup _ _ _ Hx). simpl.
  replace (Z.succ (Z.of_nat lo)) with (Z.of_nat (S lo)) by lia.
  replace (Z.pred (Z.of_nat (S len))) with (Z.of_nat len) by lia.
  rewrite IH by lia. simpl.
  rewrite (drop_S _ _ _ Hx). done.
Qed.

Lemma mapO_seqZ {B : Type} (f : Z -> Outcome B) (h : nat -> B) (n : nat) :
  forall s : nat,
    (forall i : nat, (s <= i < s + n)%nat -> f (Z.of_nat i) = Done (h i)) ->
    mapO f (seqZ (Z.of_nat s) (Z.of_nat n)) = Done (h <$> seq s n).
Proof.
  induction n as [|n IH]; intros s Hf; [done|].
  rewrite seqZ_cons by lia. simpl. rewrite Hf by lia. simpl.
  replace (Z.succ (Z.of_nat s)) with (Z.of_nat (S s)) by lia.
  replace (Z.pred (Z.of_nat (S n))) with (Z.of_nat n) by lia.
  rewrite IH; [done|]. intros i Hi. apply Hf. lia.
Qed.

(** The parts cut out of a permutation: consecutive blocks of [ex] elements. *)
Lemma concat_blocks (l : list Z) (ex n : nat) :
  concat ((fun i : nat => take ex (drop (ex * i) l)) <$> seq 0 n) = take (ex * n) l.
Proof.
  induction n as [|n IH].
  - by rewrite Nat.mul_0_r.
  - rewrite seq_S, fmap_app, concat_app, IH. simpl. rewrite app_nil_r.
    rewrite take_take_drop. f_equal. lia.
Qed.

(** What [uniform] returns for at least one client. *)
Lemma AssignmentHandler_uniform_ok (ylen n : Z) (g : G) :
  1 <= n -> 0 <= ylen ->
  let ex := Z.to_nat (ylen / n) in
  let idx := (permutation_draw ylen g).1 in
  AssignmentHandler_uniform ylen n g =
    (Done ((fun i : nat => take ex (drop (ex * i) idx)) <$> seq 0 (Z.to_nat n)),
     (permutation_draw ylen g).2).
Proof.
  intros Hn Hy ex idx. unfold AssignmentHandler_uniform, bindX, liftO, py_floordiv.
  destruct (Z.eqb_spec n 0); [lia|]. unfold permutation.
  destruct (Z.ltb_spec ylen 0); [lia|].
  destruct (permutation_draw ylen g) as [p g'] eqn:Hp. simpl in idx. subst idx.
  f_equal. unfold py_range. rewrite Z.sub_0_r.
  replace n with (Z.of_nat (Z.to_nat n)) at 1 by lia.
  change 0 with (Z.of_nat 0). apply mapO_seqZ. intros i Hi.
  assert (Hex : 0 <= ylen / n) by (apply Z.div_pos; lia).
  assert (Hlen : length p = Z.to_nat ylen).
  { pose proof (permutation_draw_perm ylen g Hy) as Hperm. rewrite Hp in Hperm.
    simpl in Hperm. by rewrite Hperm, length_seqZ. }
  replace (ylen / n * Z.of_nat i) with (Z.of_nat (ex * i)) by (subst ex; lia).
  replace (ylen / n * (Z.of_nat i + 1) - Z.of_nat (ex * i)) with (Z.of_nat ex)
    by (subst ex; lia).
  apply np_take_range. rewrite Hlen.
  pose proof (Z.mul_div_le ylen n ltac:(lia)).
  assert (Z.of_nat (ex * i + ex) <= ylen); [|lia].
  subst ex. rewrite Nat2Z.inj_add, Nat2Z.inj_mul, Z2Nat.id by lia. nia.
Qed.

(** uniform(y, n) with n >= 1 gives each of the n clients floor(len / n)
    example ids; no id is given twice, to the same client or to two
    clients, and every id is an index of an example. *)
Theorem uniform_assigns_disjoint_blocks (ylen n : Z) (g : G) :
  1 <= n -> 0 <= ylen ->
  exists (parts : list (list Z)) (g' : G),
    AssignmentHandler_uniform ylen n g = (Done parts, g') /\
    Z.of_nat (length parts) = n /\
    Forall (fun p => Z.of_nat (length p) = ylen / n) parts /\
    NoDup (concat parts) /\
    (forall x, x ∈ concat parts -> 0 <= x < ylen).
Proof.
  intros Hn Hy. rewrite AssignmentHandler_uniform_ok by done.
  set (ex := Z.to_nat (ylen / n)). set (idx := (permutation_draw ylen g).1).
  pose proof (permutation_draw_perm ylen g Hy) as Hperm. fold idx in Hperm.
  assert (Hlen : length idx = Z.to_nat ylen) by (by rewrite Hperm, length_seqZ).
  assert (Hex : 0 <= ylen / n) by (apply Z.div_pos; lia).
  pose proof (Z.mul_div_le ylen n ltac:(lia)) as Hle.
  eexists _, _. split; [reflexivity|]. split; [|split; [|split]].
  - rewrite length_fmap, length_seq. lia.
  - apply Forall_fmap, Forall_forall. intros i Hi%elem_of_seq. simpl.
    rewrite length_take_le; [subst ex; lia|]. rewrite length_drop, Hlen.
    assert (Z.of_nat (ex * i + ex) <= ylen); [|lia].
    subst ex. rewrite Nat2Z.inj_add, Nat2Z.inj_mul, Z2Nat.id by lia. nia.
  - rewrite concat_blocks.
    assert (Hnd : NoDup idx) by (rewrite Hperm; apply NoDup_seqZ).
    eauto using sublist_NoDup, sublist_take.
  - intros x Hx. rewrite concat_blocks in Hx.
    apply subseteq_take in Hx. rewrite Hperm in Hx.
    apply elem_of_seqZ in Hx. lia.
Qed.

(** uniform(y, n) leaves len mod n examples out: the clients together hold
    len - len mod n ids, and they hold every example exactly once when n
    divides len. *)
Theorem uniform_leaves_remainder_out (ylen n : Z) (g : G) :
  1 <= n -> 0 <= ylen ->
  exists (parts : list (list Z)) (g' : G),
    AssignmentHandler_uniform ylen n g = (Done parts, g') /\
    Z.of_nat (length (concat parts)) = ylen - ylen mod n /\
    (ylen mod n = 0 -> concat parts ≡ₚ seqZ 0 ylen).
Proof.
  intros Hn Hy. rewrite AssignmentHandler_uniform_ok by done.
  set (ex := Z.to_nat (ylen / n)). set (idx := (permutation_draw ylen g).1).
  pose proof (permutation_draw_perm ylen g Hy) as Hperm. fold idx in Hperm.
  assert (Hlen : length idx = Z.to_nat ylen) by (by rewrite Hperm, length_seqZ).
  assert (Hex : 0 <= ylen / n) by (apply Z.div_pos; lia).
  pose proof (Z.div_mod ylen n ltac:(lia)) as Hdm.
  pose proof (Z.mod_pos_bound ylen n ltac:(lia)) as Hmb.
  assert (Hprod : Z.of_nat (ex * Z.to_nat n) = ylen - ylen mod n).
  { subst ex. rewrite Nat2Z.inj_mul, !Z2Nat.id by lia. lia. }
  eexists _, _. split; [reflexivity|]. rewrite concat_blocks. split.
  - rewrite length_take_le by lia. done.
  - intros Hmod. rewrite take_ge by lia. done.
Qed.
End Uniform.

Lemma uniform_assigns_disjoint_blocks_witness :
  exists (parts : list (list Z)) (g' : list Q),
    AssignmentHandler_uniform 7 3 [] = (Done parts, g') /\
    Z.of_nat (length parts) = 3 /\
    NoDup (concat parts).
Proof.
  destruct (uniform_assigns_disjoint_blocks (G := list Q) 7 3 [] ltac:(lia)
              ltac:(lia)) as (parts & g' & Hrun & Hlen & _ & Hnd & _).
  exists parts, g'. split; [exact Hrun|]. split; [exact Hlen | exact Hnd].
Defined.

Lemma uniform_leaves_remainder_out_witness :
  exists (parts : list (list Z)) (g' : list Q),
    AssignmentHandler_uniform 7 3 [] = (Done parts, g') /\
    Z.of_nat (length (concat parts)) = 7 - 7 mod 3.
Proof.
  destruct (uniform_leaves_remainder_out (G := list Q) 7 3 [] ltac:(lia)
              ltac:(lia)) as (parts & g' & Hrun & Hlen & _).
  exists parts, g'. split; [exact Hrun | exact Hlen].
Defined.

Example uniform_seven_over_three :
  (AssignmentHandler_uniform 7 3 ([] : list Q)).1 = Done [[6; 5]; [4; 3]; [2; 1]].
Proof. reflexivity. Qed.

(** ** The dispatcher *)

Section Dispatcher.
Context {DH D G : Type} `{DataHandler DH D} `{NumpyPermutation G}.

Lemma blocks_lookup (l : list Z) (ex n i : nat) :
  (i < n)%nat ->
  ((fun i : nat => take ex (drop (ex * i) l)) <$> seq 0 n) !! i
    = Some (take ex (drop (ex * i) l)).
Proof. intros Hi. by rewrite list_lookup_fmap, lookup_seq_lt. Qed.

Lemma blocks_length (l : list Z) (ex n i : nat) :
  (ex * n <= length l)%nat -> (i < n)%nat ->
  length (take ex (drop (ex * i) l)) = ex.
Proof.
  intros Hl Hi. rewrite length_take_le; [done|]. rewrite length_drop. nia.
Qed.

Lemma empty_assignments_lookup (n : Z) (i : nat) :
  Z.of_nat i < n -> empty_assignments n !! i = Some [].
Proof.
  intros Hi. unfold empty_assignments, py_range.
  by rewrite list_lookup_fmap, lookup_seqZ_lt by lia.
Qed.

Lemma elem_of_concat_2 (ls : list (list Z)) (l : list Z) (x : Z) :
  l ∈ ls -> x ∈ l -> x ∈ concat ls.
Proof.
  induction ls as [|l0 ls IH]; intros Hl Hx; [by apply elem_of_nil in Hl|].
  simpl. apply elem_of_app. apply elem_of_cons in Hl as [->|Hl]; [by left|].
  right. by apply IH.
Qed.

(** Lists whose concatenation has no duplicate are pairwise disjoint. *)
Lemma concat_NoDup_disjoint (ls : list (list Z)) :
  NoDup (concat ls) ->
  forall (i j : nat) (a b : list Z),
    i <> j -> ls !! i = Some a -> ls !! j = Some b ->
    forall x, x ∈ a -> x ∉ b.
Proof.
  induction ls as [|l ls IH]; intros Hnd i j a b Hij Ha Hb x Hxa Hxb; [done|].
  simpl in Hnd. apply NoDup_app in Hnd as (_ & Hdisj & Hnd).
  destruct i as [|i], j as [|j]; simpl in *; try done.
  - injection Ha as <-. apply (Hdisj x Hxa).
    apply list_elem_of_lookup_2 in Hb. by eapply elem_of_concat_2.
  - injection Hb as <-. apply (Hdisj x Hxb).
    apply list_elem_of_lookup_2 in Ha. by eapply elem_of_concat_2.
  - apply (IH Hnd i j a b ltac:(congruence) Ha Hb x Hxa Hxb).
Qed.

(** The dispatcher that [DataDispatcher.__init__] builds when it assigns. *)
Lemma DataDispatcher_init_ok (dh : DH) (n : Z) (eval : bool) (g : G) :
  n <= dh_size dh ->
  let n' := if n <=? 1 then dh_size dh else n in
  1 <= n' -> 0 <= dh_ytr_len dh -> 0 <= dh_yte_len dh ->
  let d1 := permutation_draw (dh_ytr_len dh) (seed_state 42) in
  let d2 := permutation_draw (dh_yte_len dh) d1.2 in
  let tr := (fun i : nat => take (Z.to_nat (dh_ytr_len dh / n'))
                              (drop (Z.to_nat (dh_ytr_len dh / n') * i) d1.1))
            <$> seq 0 (Z.to_nat n') in
  let te := (fun i : nat => take (Z.to_nat (dh_yte_len dh / n'))
                              (drop (Z.to_nat (dh_yte_len dh / n') * i) d2.1))
            <$> seq 0 (Z.to_nat n') in
  DataDispatcher_init dh n eval true g =
    if eval then (Done (mkDataDispatcher dh n' true (Some tr) (Some te)), d2.2)
    else (Done (mkDataDispatcher dh n' false (Some tr)
                  (Some (empty_assignments n'))), d1.2).
Proof.
  intros Hn n' Hn' Hytr Hyte d1 d2 tr te.
  unfold DataDispatcher_init, bindX, liftO, py_assert.
  destruct (Z.leb_spec n (dh_size dh)); [|lia]. fold n'.
  unfold DataDispatcher_assign, bindX. simpl.
  rewrite AssignmentHandler_uniform_ok by done. fold d1.
  destruct eval; [|done].
  rewrite AssignmentHandler_uniform_ok by done. done.
Qed.

Lemma blocks_fit (ylen n : Z) (l : list Z) :
  1 <= n -> 0 <= ylen -> length l = Z.to_nat ylen ->
  (Z.to_nat (ylen / n) * Z.to_nat n <= length l)%nat.
Proof.
  intros Hn Hy Hl. rewrite Hl.
  assert (0 <= ylen / n) by (apply Z.div_pos; lia).
  pose proof (Z.mul_div_le ylen n ltac:(lia)). nia.
Qed.

Lemma permutation_draw_length (k : Z) (g : G) :
  0 <= k -> length (permutation_draw k g).1 = Z.to_nat k.
Proof.
  intros Hk. by rewrite (permutation_draw_perm k g Hk), length_seqZ.
Qed.

(** A dispatcher built with automatic assignment serves every client and
    no one else.  The number of clients is n, except that n <= 1 stands for
    one client per example; every client index in range gets the data of
    floor(len / n) training ids, and of as many evaluation ids when
    eval_on_user is set and of none otherwise; an index out of range fails
    the assertion. *)
Theorem dispatcher_serves_every_client (dh : DH) (n : Z) (eval : bool) (g : G) :
  n <= dh_size dh ->
  let n' := if n <=? 1 then dh_size dh else n in
  1 <= n' -> 0 <= dh_ytr_len dh -> 0 <= dh_yte_len dh ->
  exists (dd : DataDispatcher DH) (g' : G),
    DataDispatcher_init dh n eval true g = (Done dd, g') /\
    DataDispatcher_size dd = n' /\
    (forall idx : Z, 0 <= idx < n' ->
       exists tr te : list Z,
         DataDispatcher_getitem dd idx = Done (dh_at dh tr, dh_at_eval dh te) /\
         Z.of_nat (length tr) = dh_ytr_len dh / n' /\
         Z.of_nat (length te) = if eval then dh_yte_len dh / n' else 0) /\
    (forall idx : Z, ~ (0 <= idx < n') ->
       DataDispatcher_getitem dd idx = Fail (AssertionError "Index out of range.")).
Proof.
  intros Hn n' Hn' Hytr Hyte.
  rewrite DataDispatcher_init_ok by done. fold n'.
  set (d1 := permutation_draw (dh_ytr_len dh) (seed_state 42)).
  set (d2 := permutation_draw (dh_yte_len dh) d1.2).
  assert (Hex1 : 0 <= dh_ytr_len dh / n') by (apply Z.div_pos; lia).
  assert (Hex2 : 0 <= dh_yte_len dh / n') by (apply Z.div_pos; lia).
  pose proof (blocks_fit _ n' d1.1 Hn' Hytr (permutation_draw_length _ _ Hytr)) as Hf1.
  pose proof (blocks_fit _ n' d2.1 Hn' Hyte (permutation_draw_length _ _ Hyte)) as Hf2.
  destruct eval.
  - eexists _, _. split; [reflexivity|]. split; [done|]. split.
    + intros idx Hidx. eexists _, _. unfold DataDispatcher_getitem, py_assert. simpl.
      destruct (Z.leb_spec 0 idx); [|lia]. destruct (Z.ltb_spec idx n'); [|lia].
      simpl. assert (Hi : (Z.to_nat idx < Z.to_nat n')%nat) by lia.
      rewrite (py_getitem_lookup_Z _ idx _ ltac:(lia) (blocks_lookup _ _ _ _ Hi)).
      simpl.
      rewrite (py_getitem_lookup_Z _ idx _ ltac:(lia) (blocks_lookup _ _ _ _ Hi)).
      simpl.
      split; [reflexivity|].
      rewrite !(blocks_length _ _ (Z.to_nat n')) by (done || lia). lia.
    + intros idx Hidx. unfold DataDispatcher_getitem, py_assert. simpl.
      destruct (Z.leb_spec 0 idx), (Z.ltb_spec idx n'); simpl; done || lia.
  - eexists _, _. split; [reflexivity|]. split; [done|]. split.
    + intros idx Hidx. eexists _, _. unfold DataDispatcher_getitem, py_assert. simpl.
      destruct (Z.leb_spec 0 idx); [|lia]. destruct (Z.ltb_spec idx n'); [|lia].
      simpl. assert (Hi : (Z.to_nat idx < Z.to_nat n')%nat) by lia.
      assert (Hi' : Z.of_nat (Z.to_nat idx) < n') by lia.
      rewrite (py_getitem_lookup_Z _ idx _ ltac:(lia) (blocks_lookup _ _ _ _ Hi)).
      simpl.
      rewrite (py_getitem_lookup_Z _ idx _ ltac:(lia)
                 (empty_assignments_lookup n' _ Hi')).
      simpl. split; [reflexivity|].
      rewrite (blocks_length _ _ (Z.to_nat n')) by (done || lia). simpl. lia.
    + intros idx Hidx. unfold DataDispatcher_getitem, py_assert. simpl.
      destruct (Z.leb_spec 0 idx), (Z.ltb_spec idx n'); simpl; done || lia.
Qed.

(** No training example goes to two clients: the training ids that a
    dispatcher built with automatic assignment holds for two different
    clients have no id in common. *)
Theorem dispatcher_clients_disjoint (dh : DH) (n : Z) (eval : bool) (g : G) :
  n <= dh_size dh ->
  let n' := if n <=? 1 then dh_size dh else n in
  1 <= n' -> 0 <= dh_ytr_len dh -> 0 <= dh_yte_len dh ->
  exists (dd : DataDispatcher DH) (g' : G) (parts : list (list Z)),
    DataDispatcher_init dh n eval true g = (Done dd, g') /\
    dd_tr_assignments dd = Some parts /\
    Z.of_nat (length parts) = n' /\
    (forall (i j : nat) (a b : list Z),
       i <> j -> parts !! i = Some a -> parts !! j = Some b ->
       forall x, x ∈ a -> x ∉ b).
Proof.
  intros Hn n' Hn' Hytr Hyte.
  rewrite DataDispatcher_init_ok by done. fold n'.
  set (d1 := permutation_draw (dh_ytr_len dh) (seed_state 42)).
  assert (Hnd : NoDup (concat ((fun i : nat =>
              take (Z.to_nat (dh_ytr_len dh / n'))
                   (drop (Z.to_nat (dh_ytr_len dh / n') * i) d1.1))
              <$> seq 0 (Z.to_nat n')))).
  { rewrite concat_blocks.
    assert (NoDup d1.1)
      by (subst d1; rewrite permutation_draw_perm by done; apply NoDup_seqZ).
    eauto using sublist_NoDup, sublist_take. }
  destruct eval; eexists _, _, _; (split; [reflexivity|]); (split; [reflexivity|]);
    (split; [rewrite length_fmap, length_seq; lia|]);
    by apply concat_NoDup_disjoint.
Qed.

(** How the construction and the lookup fail: more clients than the data
    handler has examples fail the assertion; a data handler without
    examples divides by zero in the assignment; and a dispatcher built
    without assignment raises TypeError on every client index. *)
Theorem dispatcher_failure_modes (dh : DH) (n : Z) (eval : bool) (g : G) :
  (dh_size dh < n ->
   forall auto : bool,
     DataDispatcher_init dh n eval auto g = (Fail (AssertionError ""), g)) /\
  (n <= dh_size dh -> dh_size dh = 0 ->
   DataDispatcher_init dh n eval true g
     = (Fail (EngineExn ZeroDivisionError), seed_state 42)) /\
  (n <= dh_size dh ->
   exists dd : DataDispatcher DH,
     DataDispatcher_init dh n eval false g = (Done dd, g) /\
     forall idx : Z, 0 <= idx < DataDispatcher_size dd ->
                     DataDispatcher_getitem dd idx = Fail (EngineExn TypeError)).
Proof.
  split; [|split].
  - intros Hn auto. unfold DataDispatcher_init, bindX, liftO, py_assert.
    by destruct (Z.leb_spec n (dh_size dh)); [lia|].
  - intros Hn Hs. unfold DataDispatcher_init, bindX, liftO, py_assert.
    destruct (Z.leb_spec n (dh_size dh)); [|lia].
    destruct (Z.leb_spec n 1); [|lia]. rewrite Hs.
    unfold DataDispatcher_assign, AssignmentHandler_uniform, bindX, liftO. simpl.
    done.
  - intros Hn. eexists. unfold DataDispatcher_init, bindX, liftO, py_assert.
    destruct (Z.leb_spec n (dh_size dh)); [|lia]. split; [reflexivity|].
    intros idx Hidx. unfold DataDispatcher_size in Hidx. simpl in Hidx.
    unfold DataDispatcher_getitem, py_assert. simpl.
    destruct (Z.leb_spec 0 idx); [|lia].
    destruct (Z.ltb_spec idx (if n <=? 1 then dh_size dh else n)); [|lia].
    done.
Qed.

(** Assignments set by hand are the ones served: set_assignments accepts a
    training assignment with one entry per client, and an evaluation
    assignment that is absent, empty or has one entry per client; after it,
    client idx gets the data of the idx-th training entry, and of the idx-th
    evaluation entry, or of no evaluation id when none was given.  A
    training assignment of another length fails the assertion. *)
Theorem set_assignments_round_trip (dd : DataDispatcher DH)
    (tr : list (list Z)) (te : option (list (list Z))) :
  (Z.of_nat (length tr) <> dd_n dd ->
   DataDispatcher_set_assignments dd tr te = Fail (AssertionError "")) /\
  (Z.of_nat (length tr) = dd_n dd ->
   te = None \/ te = Some [] \/
     (exists tel, te = Some tel /\ Z.of_nat (length tel) = dd_n dd) ->
   exists dd' : DataDispatcher DH,
     DataDispatcher_set_assignments dd tr te = Done dd' /\
     DataDispatcher_size dd' = DataDispatcher_size dd /\
     forall (i : nat) (ids : list Z),
       tr !! i = Some ids ->
       DataDispatcher_getitem dd' (Z.of_nat i) =
         Done (dh_at (dd_data_handler dd) ids,
               dh_at_eval (dd_data_handler dd)
                 (default [] (default [] te !! i)))).
Proof.
  split.
  - intros Hlen. unfold DataDispatcher_set_assignments, py_assert.
    by destruct (Z.eqb_spec (Z.of_nat (length tr)) (dd_n dd)).
  - intros Hlen Hte. unfold DataDispatcher_set_assignments, py_assert.
    destruct (Z.eqb_spec (Z.of_nat (length tr)) (dd_n dd)); [|done]. simpl.
    assert (Hget : forall (tes : list (list Z)) (i : nat) (ids : list Z),
              tr !! i = Some ids ->
              (forall j : nat, (j < length tr)%nat ->
                               exists e, tes !! j = Some e) ->
              DataDispatcher_getitem
                (mkDataDispatcher (dd_data_handler dd) (dd_n dd)
                   (dd_eval_on_user dd) (Some tr) (Some tes)) (Z.of_nat i)
              = Done (dh_at (dd_data_handler dd) ids,
                      dh_at_eval (dd_data_handler dd) (default [] (tes !! i)))).
    { intros tes i ids Hi Htes. pose proof (lookup_lt_Some _ _ _ Hi) as Hlt.
      unfold DataDispatcher_getitem, py_assert. simpl.
      destruct (Z.leb_spec 0 (Z.of_nat i)); [|lia].
      destruct (Z.ltb_spec (Z.of_nat i) (dd_n dd)); [|lia]. simpl.
      rewrite (py_getitem_lookup _ _ _ Hi). simpl.
      destruct (Htes i Hlt) as [e' He']. rewrite (py_getitem_lookup _ _ _ He').
      simpl. by rewrite He'. }
    destruct Hte as [->|[->|(tel & -> & Htel)]].
    + eexists. split; [reflexivity|]. split; [done|]. intros i ids Hi.
      rewrite (Hget _ i ids Hi).
      * pose proof (lookup_lt_Some _ _ _ Hi).
        by rewrite empty_assignments_lookup by lia.
      * intros j Hj. exists []. apply empty_assignments_lookup. lia.
    + eexists. split; [reflexivity|]. split; [done|]. intros i ids Hi.
      rewrite (Hget _ i ids Hi).
      * pose proof (lookup_lt_Some _ _ _ Hi).
        by rewrite empty_assignments_lookup by lia.
      * intros j Hj. exists []. apply empty_assignments_lookup. lia.
    + destruct tel as [|e0 tel'].
      * eexists. split; [reflexivity|]. split; [done|]. intros i ids Hi.
        rewrite (Hget _ i ids Hi).
        -- pose proof (lookup_lt_Some _ _ _ Hi).
           by rewrite empty_assignments_lookup by lia.
        -- intros j Hj. exists []. apply empty_assignments_lookup. lia.
      * simpl default.
        destruct (Z.eqb_spec (Z.of_nat (length (e0 :: tel'))) (dd_n dd)); [|done].
        simpl. eexists. split; [reflexivity|]. split; [done|]. intros i ids Hi.
        apply (Hget (e0 :: tel') i ids Hi). intros j Hj.
        apply lookup_lt_is_Some. lia.
Qed.
End Dispatcher.

Lemma dispatcher_serves_every_client_witness :
  exists (dd : DataDispatcher (Z * Z)) (g' : list Q),
    DataDispatcher_init sizes_10_4 5 true true [] = (Done dd, g') /\
    DataDispatcher_size dd = 5 /\
    DataDispatcher_getitem dd 7 = Fail (AssertionError "Index out of range.").
Proof.
  destruct (dispatcher_serves_every_client (D := list Z) sizes_10_4 5 true
              ([] : list Q))
    as (dd & g' & Hinit & Hsize & _ & Hout); [simpl; lia ..|].
  exists dd, g'. split; [exact Hinit|]. split; [exact Hsize|].
  apply Hout. simpl. lia.
Defined.

Lemma dispatcher_clients_disjoint_witness :
  exists (dd : DataDispatcher (Z * Z)) (g' : list Q) (parts : list (list Z)),
    DataDispatcher_init sizes_10_4 5 true true [] = (Done dd, g') /\
    dd_tr_assignments dd = Some parts /\
    Z.of_nat (length parts) = 5.
Proof.
  destruct (dispatcher_clients_disjoint (D := list Z) sizes_10_4 5 true
              ([] : list Q))
    as (dd & g' & parts & Hinit & Hparts & Hlen & _); [simpl; lia ..|].
  exists dd, g', parts. split; [exact Hinit|]. split; [exact Hparts | exact Hlen].
Defined.

Lemma dispatcher_failure_modes_witness :
  DataDispatcher_init sizes_10_4 11 true true ([] : list Q)
    = (Fail (AssertionError ""), []) /\
  DataDispatcher_init ((0, 0) : Z * Z) 0 true true ([] : list Q)
    = (Fail (EngineExn ZeroDivisionError), seed_state 42).
Proof.
  split.
  - apply (proj1 (dispatcher_failure_modes (D := list Z) sizes_10_4 11 true
                    ([] : list Q))). simpl. lia.
  - apply (proj1 (proj2 (dispatcher_failure_modes (D := list Z) ((0, 0) : Z * Z)
                           0 true ([] : list Q)))); simpl; lia.
Defined.

Lemma set_assignments_round_trip_witness :
  exists dd' : DataDispatcher (Z * Z),
    DataDispatcher_set_assignments dd_unassigned [[0; 1; 2]; [3; 4]] None = Done dd' /\
    DataDispatcher_getitem dd' 1 = Done ([3; 4], Some []).
Proof.
  destruct (proj2 (set_assignments_round_trip (D := list Z) dd_unassigned
                     [[0; 1; 2]; [3; 4]] None) eq_refl (or_introl eq_refl))
    as (dd' & Hset & _ & Hget).
  exists dd'. split; [exact Hset|]. exact (Hget 1%nat [3; 4] eq_refl).
Defined.

(** ** Generating the nodes *)

Section Generate.
Context {H D DH G : Type} `{DataHandler DH D} `{ModelHandlerCopy H}
  `{NumpyRandom G}.

Lemma generate_loop_app {N : Type}
    (cls : NodeId -> D * option D -> Z -> H -> P2PNetwork -> bool -> Py G N)
    (dd : DataDispatcher DH) (net : P2PNetwork) (proto : H) (R : Z) (s : bool)
    (l1 l2 : list Z) :
  forall (nodes : dict N) (g : G),
    generate_loop cls dd net proto R s (l1 ++ l2) nodes g =
      bindX (generate_loop cls dd net proto R s l1 nodes)
            (fun nodes' => generate_loop cls dd net proto R s l2 nodes') g.
Proof.
  induction l1 as [|i l1 IH]; intros nodes g; [reflexivity|].
  simpl. unfold bindX, liftO.
  destruct (DataDispatcher_getitem dd i) as [d|e]; [|reflexivity].
  destruct (liftPy (cls i d R (mh_copy proto) net s) g) as [[node|e] g1];
    [|reflexivity].
  apply IH.
Qed.

Lemma generate_loop_ok (dd : DataDispatcher DH) (net : P2PNetwork) (proto : H)
    (R : Z) (s : bool) (len : nat) :
  1 <= R ->
  forall (lo : nat) (nodes : dict (GossipNode H D)) (g : G),
    (forall i : Z, Z.of_nat lo <= i < Z.of_nat (lo + len) ->
                   exists d, DataDispatcher_getitem dd i = Done d) ->
    dict_keys nodes = seqZ 0 (Z.of_nat lo) ->
    (forall i node, dict_get i nodes = Some node ->
                    generated_for dd net proto R s i node) ->
    exists (nodes' : dict (GossipNode H D)) (g' : G),
      generate_loop GossipNode_init dd net proto R s
        (seqZ (Z.of_nat lo) (Z.of_nat len)) nodes g = (Done nodes', g') /\
      dict_keys nodes' = seqZ 0 (Z.of_nat (lo + len)) /\
      (forall i node, dict_get i nodes' = Some node ->
                      generated_for dd net proto R s i node).
Proof.
  intros HR. induction len as [|len IH]; intros lo nodes g Hdd Hkeys Hnodes.
  - exists nodes, g. rewrite Nat.add_0_r. done.
  - rewrite seqZ_cons by lia. simpl generate_loop. unfold bindX at 1. unfold liftO.
    destruct (Hdd (Z.of_nat lo) ltac:(lia)) as [d Hd]. rewrite Hd.
    unfold bindX at 1. unfold liftPy.
    set (node := mkGossipNode (Z.of_nat lo) d R (mh_copy proto) s
                   (if s then (randint_draw 0 R g).1
                    else py_int (normal_draw (inject_Z R) (R # 10) g).1) net).
    set (g1 := if s then (randint_draw 0 R g).2
               else (normal_draw (inject_Z R) (R # 10) g).2).
    assert (Hinit : GossipNode_init (Z.of_nat lo) d R (mh_copy proto) net s g
                    = (Ok node, g1))
      by (rewrite GossipNode_init_ok by done; subst node g1; by destruct s).
    rewrite Hinit.
    replace (Z.succ (Z.of_nat lo)) with (Z.of_nat (S lo)) by lia.
    replace (Z.pred (Z.of_nat (S len))) with (Z.of_nat len) by lia.
    assert (Hfresh : dict_get (Z.of_nat lo) nodes = None).
    { apply dict_get_None_keys. rewrite Hkeys, elem_of_seqZ. lia. }
    destruct (IH (S lo) (dict_set (Z.of_nat lo) node nodes) g1)
      as (nodes' & g' & Hrun & Hkeys' & Hnodes').
    + intros i Hi. apply Hdd. lia.
    + rewrite dict_keys_set, Hfresh, Hkeys.
      replace (Z.of_nat (S lo)) with (Z.of_nat lo + 1) by lia.
      rewrite seqZ_app by lia. simpl. done.
    + intros i n0. destruct (Z.eq_dec (Z.of_nat lo) i) as [<-|Hne].
      * rewrite dict_get_set_eq. intros [= <-]. subst node.
        unfold generated_for. simpl. do 6 (split; [done|]).
        intros ->. apply randint_draw_range. lia.
      * rewrite dict_get_set_ne by done. apply Hnodes.
    + exists nodes', g'. split; [exact Hrun|].
      replace (lo + S len)%nat with (S lo + len)%nat by lia. done.
Qed.

(** generate builds one node for each index of the network, in order: the
    node stored under i has idx i, the round length and the mode asked for,
    a copy of the prototype handler and the data that the dispatcher serves
    for i, and a synchronous node has its delta in [0, R). *)
Theorem generate_builds_one_node_per_index (dd : DataDispatcher DH)
    (net : P2PNetwork) (proto : H) (R : Z) (s : bool) (g : G) :
  1 <= R ->
  (forall i : Z, 0 <= i < P2PNetwork_size net ->
                 exists d, DataDispatcher_getitem dd i = Done d) ->
  exists (nodes : dict (GossipNode H D)) (g' : G),
    generate GossipNode_init dd net proto R s g = (Done nodes, g') /\
    dict_keys nodes = py_range 0 (P2PNetwork_size net) /\
    (forall i node, dict_get i nodes = Some node ->
       idx node = i /\ round_len node = R /\ sync node = s /\
       model_handler node = mh_copy proto /\ p2p_net node = net /\
       DataDispatcher_getitem dd i = Done (data node) /\
       (s = true -> 0 <= delta node < R)).
Proof.
  intros HR Hdd. unfold generate, py_range. rewrite Z.sub_0_r.
  set (N := P2PNetwork_size net) in *.
  destruct (Z.le_gt_cases N 0) as [HN|HN].
  - rewrite seqZ_nil by done. by eexists _, _.
  - destruct (generate_loop_ok dd net proto R s (Z.to_nat N) HR 0 [] g)
      as (nodes & g' & Hrun & Hkeys & Hnodes); [|done|done|].
    { intros i Hi. apply Hdd. lia. }
    simpl in Hrun, Hkeys. rewrite Z2Nat.id in Hrun, Hkeys by lia.
    exists nodes, g'. done.
Qed.

(** A network with more nodes than the dispatcher has clients cannot be
    populated: generate builds the nodes that the dispatcher can serve and
    then fails the range assertion of the dispatcher, returning no node. *)
Theorem generate_fails_beyond_dispatcher (dd : DataDispatcher DH)
    (net : P2PNetwork) (proto : H) (R : Z) (s : bool) (g : G) :
  1 <= R ->
  0 <= dd_n dd < P2PNetwork_size net ->
  (forall i : Z, 0 <= i < dd_n dd ->
                 exists d, DataDispatcher_getitem dd i = Done d) ->
  exists g' : G,
    generate GossipNode_init dd net proto R s g
      = (Fail (AssertionError "Index out of range."), g').
Proof.
  intros HR Hn Hdd. unfold generate, py_range. rewrite Z.sub_0_r.
  set (N := P2PNetwork_size net) in *.
  replace N with (dd_n dd + (N - dd_n dd)) by lia.
  rewrite seqZ_app by lia. rewrite generate_loop_app. unfold bindX.
  destruct (generate_loop_ok dd net proto R s (Z.to_nat (dd_n dd)) HR 0 [] g)
    as (nodes & g' & Hrun & _ & _); [|done|done|].
  { intros i Hi. apply Hdd. lia. }
  change (Z.of_nat 0) with 0 in Hrun. rewrite Z2Nat.id in Hrun by lia.
  rewrite Hrun.
  exists g'. rewrite seqZ_cons by lia. simpl. unfold bindX, liftO.
  unfold DataDispatcher_getitem, py_assert. simpl.
  replace (0 + dd_n dd) with (dd_n dd) by lia.
  destruct (Z.ltb_spec (dd_n dd) (dd_n dd)); [lia|].
  by rewrite andb_false_r.
Qed.
End Generate.

Lemma dd_by_hand_serves (i : Z) :
  0 <= i < 2 -> exists d : list Z * option (list Z),
                  DataDispatcher_getitem dd_by_hand i = Done d.
Proof.
  intros Hi. assert (i = 0 \/ i = 1) as [-> | ->] by lia; by eexists.
Qed.

Lemma generate_builds_one_node_per_index_witness :
  exists (nodes : dict (GossipNode Z (list Z))) (g' : list Q),
    generate GossipNode_init dd_by_hand net2 7 10 true [3 # 1; 8 # 1]%Q
      = (Done nodes, g') /\
    dict_keys nodes = [0; 1].
Proof.
  destruct (generate_builds_one_node_per_index (H := Z) dd_by_hand net2 7 10 true
              [3 # 1; 8 # 1]%Q ltac:(lia) dd_by_hand_serves)
    as (nodes & g' & Hrun & Hkeys & _).
  exists nodes, g'. split; [exact Hrun | exact Hkeys].
Defined.

Lemma generate_fails_beyond_dispatcher_witness :
  exists g' : list Q,
    generate (H := Z) GossipNode_init dd_by_hand net4 7 10 true [3 # 1; 8 # 1]%Q
      = (Fail (AssertionError "Index out of range."), g').
Proof.
  apply (generate_fails_beyond_dispatcher (H := Z) dd_by_hand net4 7 10 true
           [3 # 1; 8 # 1]%Q ltac:(lia)); [simpl; lia | exact dd_by_hand_serves].
Defined.

Example generate_two_nodes :
  match (generate GossipNode_init dd_by_hand net2 7 10 true [3 # 1; 8 # 1]%Q).1 with
  | Done nodes =>
      (fun p : NodeId * GossipNode Z (list Z) => (p.1, data p.2, delta p.2)) <$> nodes
      = [(0, ([0; 1; 2], Some []), 3); (1, ([3; 4], Some [0]), 8)]
  | Fail _ => False
  end.
Proof. reflexivity. Qed.

(** ** The assignments of get_FEMNIST *)

Lemma get_FEMNIST_loop (ids_tr ids_te : list Z) (len : nat) :
  forall (lo : nat) (tr te : list (list Z)),
    (lo + len <= length ids_tr)%nat ->
    (lo + len <= length ids_te)%nat ->
    foldO (get_FEMNIST_step ids_tr ids_te) (seqZ (Z.of_nat lo) (Z.of_nat len))
          (0, 0, tr, te)
    = Done (0, 0,
            tr ++ (seqZ 0 <$> take len (drop lo ids_tr)),
            te ++ (seqZ 0 <$> take len (drop lo ids_te))).
Proof.
  induction len as [|len IH]; intros lo tr te Htr Hte.
  - simpl. by rewrite !app_nil_r.
  - rewrite seqZ_cons by lia. simpl foldO. unfold get_FEMNIST_step at 1.
    destruct (ids_tr !! lo) as [ntr|] eqn:Hntr;
      [|apply lookup_ge_None in Hntr; lia].
    destruct (ids_te !! lo) as [nte|] eqn:Hnte;
      [|apply lookup_ge_None in Hnte; lia].
    rewrite (py_getitem_lookup _ _ _ Hntr), (py_getitem_lookup _ _ _ Hnte).
    simpl bindO.
    replace (Z.succ (Z.of_nat lo)) with (Z.of_nat (S lo)) by lia.
    replace (Z.pred (Z.of_nat (S len))) with (Z.of_nat len) by lia.
    rewrite IH by lia. unfold py_range. rewrite !Z.add_0_l, !Z.sub_0_r.
    rewrite (drop_S _ _ _ Hntr), (drop_S _ _ _ Hnte). simpl.
    by rewrite <- !app_assoc.
Qed.

(** get_FEMNIST never advances its running sums: the assignment of every
    client starts again at example 0, client i being given the ids 0 ..
    ids_tr[i] - 1 (and 0 .. ids_te[i] - 1 for evaluation), so that any two
    clients with at least one example share example 0.  With fewer
    evaluation counts than training counts the loop raises IndexError. *)
Theorem get_FEMNIST_assignments_overlap (ids_tr ids_te : list Z) :
  ((length ids_tr <= length ids_te)%nat ->
   get_FEMNIST_assignments ids_tr ids_te
     = Done (seqZ 0 <$> ids_tr, seqZ 0 <$> take (length ids_tr) ids_te) /\
   (forall (i j : nat) (ni nj : Z),
      ids_tr !! i = Some ni -> ids_tr !! j = Some nj -> 0 < ni -> 0 < nj ->
      exists a b : list Z,
        (seqZ 0 <$> ids_tr) !! i = Some a /\ (seqZ 0 <$> ids_tr) !! j = Some b /\
        0 ∈ a /\ 0 ∈ b)) /\
  ((length ids_te < length ids_tr)%nat ->
   get_FEMNIST_assignments ids_tr ids_te = Fail IndexError).
Proof.
  split.
  - intros Hlen. split.
    + unfold get_FEMNIST_assignments, py_range. rewrite Z.sub_0_r.
      change 0 with (Z.of_nat 0) at 1.
      rewrite (get_FEMNIST_loop ids_tr ids_te (length ids_tr) 0 [] []) by lia.
      simpl. by rewrite firstn_all.
    + intros i j ni nj Hi Hj Hni Hnj. exists (seqZ 0 ni), (seqZ 0 nj).
      rewrite !list_lookup_fmap, Hi, Hj. simpl.
      rewrite !elem_of_seqZ. repeat split; lia.
  - intros Hlen. unfold get_FEMNIST_assignments, py_range. rewrite Z.sub_0_r.
    replace (Z.of_nat (length ids_tr))
      with (Z.of_nat (length ids_te) + Z.of_nat (length ids_tr - length ids_te))
      by lia.
    rewrite seqZ_app by lia. rewrite Z.add_0_l.
    assert (Hfold : forall (l1 l2 : list Z) st,
              foldO (get_FEMNIST_step ids_tr ids_te) (l1 ++ l2) st
              = bindO (foldO (get_FEMNIST_step ids_tr ids_te) l1 st)
                      (foldO (get_FEMNIST_step ids_tr ids_te) l2)).
    { induction l1 as [|x l1 IH]; intros l2 st; [done|]. simpl.
      destruct (get_FEMNIST_step ids_tr ids_te st x); [apply IH | done]. }
    rewrite Hfold. change 0 with (Z.of_nat 0) at 1.
    rewrite (get_FEMNIST_loop ids_tr ids_te (length ids_te) 0 [] []) by lia.
    simpl bindO. rewrite seqZ_cons by lia. simpl foldO.
    unfold get_FEMNIST_step at 1.
    destruct (ids_tr !! length ids_te) as [ntr|] eqn:Hntr;
      [|apply lookup_ge_None in Hntr; lia].
    rewrite (py_getitem_lookup _ _ _ Hntr). simpl bindO.
    rewrite py_getitem_out_of_range by lia. done.
Qed.

Lemma get_FEMNIST_assignments_overlap_witness :
  get_FEMNIST_assignments [3; 2] [1; 1]
    = Done ([[0; 1; 2]; [0; 1]], [[0]; [0]]) /\
  get_FEMNIST_assignments [3; 2] [1] = Fail IndexError.
Proof.
  split.
  - apply (proj1 (get_FEMNIST_assignments_overlap [3; 2] [1; 1])). simpl. lia.
  - apply (proj2 (get_FEMNIST_assignments_overlap [3; 2] [1])). simpl. lia.
Defined.

(** ** The renumbering of load_recsys_dataset *)

Section RecSysLoop.
Context {R : Type}.

Lemma dict_get_of_key {V : Type} (d : dict V) (k : Z) :
  k ∈ dict_keys d -> exists v, dict_get k d = Some v.
Proof.
  intros Hk. destruct (dict_get k d) as [v|] eqn:Hg; [by exists v|].
  by apply dict_get_None_keys in Hg.
Qed.

Lemma dict_length_keys {V : Type} (d : dict V) : length (dict_keys d) = length d.
Proof. unfold dict_keys. apply length_fmap. Qed.

Lemma n_ratings_cons (k : Z) (l : list (Z * R)) (d : dict (list (Z * R))) :
  n_ratings ((k, l) :: d) = (length l + n_ratings d)%nat.
Proof. reflexivity. Qed.

Lemma n_ratings_set_new (d : dict (list (Z * R))) (k : Z) :
  dict_get k d = None -> n_ratings (dict_set k [] d) = n_ratings d.
Proof.
  induction d as [|[k' l] d IH]; [done|]. cbn [dict_get dict_set].
  destruct (Z.eqb_spec k k'); [done|]. intros Hg.
  by rewrite !n_ratings_cons, IH.
Qed.

Lemma n_ratings_set_append (d : dict (list (Z * R))) (k : Z) (l : list (Z * R))
    (x : Z * R) :
  dict_get k d = Some l -> n_ratings (dict_set k (l ++ [x]) d) = S (n_ratings d).
Proof.
  induction d as [|[k' l'] d IH]; [done|]. cbn [dict_get dict_set].
  destruct (Z.eqb_spec k k').
  - intros [= ->]. rewrite !n_ratings_cons, length_app. simpl. lia.
  - intros Hg. rewrite !n_ratings_cons, IH by done. lia.
Qed.

(** Giving the next number to an id unless it has one. *)
Lemma renumber_step (m : dict Z) (cnt : Z) (seen : list Z) (x : Z) :
  NoDup (dict_keys m) ->
  (forall k, k ∈ dict_keys m <-> k ∈ seen) ->
  Z.of_nat (length m) = cnt ->
  (forall k v, dict_get k m = Some v -> 0 <= v < cnt) ->
  let m' := match dict_get x m with Some _ => m | None => dict_set x cnt m end in
  let cnt' := match dict_get x m with Some _ => cnt | None => cnt + 1 end in
  NoDup (dict_keys m') /\
  (forall k, k ∈ dict_keys m' <-> k ∈ seen ++ [x]) /\
  Z.of_nat (length m') = cnt' /\
  (forall k v, dict_get k m' = Some v -> 0 <= v < cnt') /\
  (exists v, dict_get x m' = Some v /\ 0 <= v < cnt') /\
  cnt <= cnt'.
Proof.
  intros Hnd Hin Hlen Hval. destruct (dict_get x m) as [v|] eqn:Hg; simpl.
  - split; [done|]. split.
    { intros k. rewrite elem_of_app, list_elem_of_singleton, <- Hin.
      split; [by left|]. intros [?| ->]; [done|]. by eapply dict_get_Some_keys. }
    split; [done|]. split; [done|]. split; [|lia]. exists v. split; [done|eauto].
  - assert (Hcnt : 0 <= cnt) by lia.
    split; [by apply dict_set_NoDup|]. split.
    { intros k. rewrite dict_keys_set_elem, elem_of_app, list_elem_of_singleton,
        <- Hin. tauto. }
    split.
    { rewrite <- (dict_length_keys (dict_set x cnt m)), dict_keys_set, Hg.
      rewrite length_app, dict_length_keys. simpl. lia. }
    split.
    { intros k v. destruct (Z.eq_dec x k) as [<-|Hne].
      - rewrite dict_get_set_eq. intros [= <-]. lia.
      - rewrite dict_get_set_ne by done. intros Hk. specialize (Hval _ _ Hk). lia. }
    split; [|lia]. exists cnt. split; [apply dict_get_set_eq | lia].
Qed.

Lemma load_recsys_line_inv (st : RecSys R) (ls : list (Z * Z * R))
    (line : Z * Z * R) :
  recsys_inv st ls ->
  exists st' : RecSys R,
    load_recsys_line st line = Done st' /\ recsys_inv st' (ls ++ [line]).
Proof.
  destruct line as [[u i] r].
  intros ((Hund & Huin & Hulen & Huval) & (Hind & Hiin & Hilen & Hival) &
          Hkeys & Htot & Hitems).
  pose proof (renumber_step _ _ _ u Hund Huin Hulen Huval)
    as (Hund' & Huin' & Hulen' & Huval' & (uu & Huu & Huur) & Hule).
  pose proof (renumber_step _ _ _ i Hind Hiin Hilen Hival)
    as (Hind' & Hiin' & Hilen' & Hival' & (ii & Hii & Hiir) & Hile).
  unfold load_recsys_line.
  (* the user *)
  set (st1 := match dict_get u (umap st) with
              | Some _ => st
              | None => mkRecSys (dict_set (ucnt st) [] (ratings st))
                          (dict_set u (ucnt st) (umap st)) (imap st)
                          (ucnt st + 1) (icnt st)
              end).
  assert (Hphase1 :
    match dict_get u (umap st) with
    | Some _ => Done st
    | None =>
        bindO (py_dict_get (dict_set u (ucnt st) (umap st)) u) (fun uu0 =>
        Done (mkRecSys (dict_set uu0 [] (ratings st))
                (dict_set u (ucnt st) (umap st)) (imap st) (ucnt st + 1) (icnt st)))
    end = Done st1).
  { subst st1. destruct (dict_get u (umap st)); [done|].
    unfold py_dict_get. by rewrite dict_get_set_eq. }
  rewrite Hphase1. simpl bindO.
  assert (Humap1 : umap st1 = match dict_get u (umap st) with
                              | Some _ => umap st
                              | None => dict_set u (ucnt st) (umap st)
                              end)
    by (subst st1; by destruct (dict_get u (umap st))).
  assert (Hucnt1 : ucnt st1 = match dict_get u (umap st) with
                              | Some _ => ucnt st
                              | None => ucnt st + 1
                              end)
    by (subst st1; by destruct (dict_get u (umap st))).
  assert (Himap1 : imap st1 = imap st /\ icnt st1 = icnt st)
    by (subst st1; by destruct (dict_get u (umap st))).
  destruct Himap1 as [Himap1 Hicnt1].
  assert (Hkeys1 : dict_keys (ratings st1) = seqZ 0 (ucnt st1)).
  { subst st1. destruct (dict_get u (umap st)); [done|]. simpl.
    assert (Hnew : dict_get (ucnt st) (ratings st) = None).
    { apply dict_get_None_keys. rewrite Hkeys, elem_of_seqZ. lia. }
    rewrite dict_keys_set, Hnew, Hkeys. rewrite seqZ_app by lia. done. }
  assert (Htot1 : n_ratings (ratings st1) = length ls).
  { subst st1. destruct (dict_get u (umap st)); [done|]. simpl.
    rewrite n_ratings_set_new; [done|].
    apply dict_get_None_keys. rewrite Hkeys, elem_of_seqZ. lia. }
  assert (Hitems1 : forall k l it r0, dict_get k (ratings st1) = Some l ->
                                      (it, r0) ∈ l -> 0 <= it < icnt st).
  { subst st1. destruct (dict_get u (umap st)); [done|]. simpl.
    intros k l it r0. destruct (Z.eq_dec (ucnt st) k) as [<-|Hne].
    - rewrite dict_get_set_eq. intros [= <-] Hin. by apply elem_of_nil in Hin.
    - rewrite dict_get_set_ne by done. apply Hitems. }
  rewrite <- Humap1 in Hund', Huin', Hulen', Huval', Huu.
  rewrite <- Hucnt1 in Hulen', Huval', Huur.
  clearbody st1. clear Hphase1 Humap1 Hucnt1.
  (* the item *)
  set (st2 := match dict_get i (imap st1) with
              | Some _ => st1
              | None => mkRecSys (ratings st1) (umap st1)
                          (dict_set i (icnt st1) (imap st1)) (ucnt st1)
                          (icnt st1 + 1)
              end).
  assert (Hst2 : ratings st2 = ratings st1 /\ umap st2 = umap st1 /\
                 ucnt st2 = ucnt st1 /\
                 imap st2 = match dict_get i (imap st) with
                            | Some _ => imap st
                            | None => dict_set i (icnt st) (imap st)
                            end /\
                 icnt st2 = match dict_get i (imap st) with
                            | Some _ => icnt st
                            | None => icnt st + 1
                            end).
  { subst st2. rewrite Himap1, Hicnt1.
    destruct (dict_get i (imap st)); simpl; by rewrite ?Himap1, ?Hicnt1. }
  destruct Hst2 as (Hr2 & Hu2 & Huc2 & Him2 & Hic2).
  rewrite <- Him2 in Hind', Hiin', Hilen', Hival', Hii.
  rewrite <- Hic2 in Hilen', Hival', Hiir, Hile.
  clearbody st2.
  (* the rating *)
  unfold py_dict_get. rewrite Hu2, Huu. simpl bindO.
  destruct (dict_get_of_key (ratings st1) uu) as [l Hl].
  { rewrite Hkeys1, elem_of_seqZ. lia. }
  rewrite Hr2, Hl. simpl bindO. rewrite Hii. simpl bindO.
  eexists. split; [reflexivity|]. unfold recsys_inv. simpl.
  rewrite !fmap_app. simpl.
  split; [rewrite <- Huc2 in Hulen', Huval'; done|]. split; [done|].
  split; [by rewrite dict_keys_set, Hl, Huc2|].
  split; [rewrite (n_ratings_set_append _ _ _ _ Hl), Htot1, length_app; simpl; lia|].
  intros k l0 it r0. destruct (Z.eq_dec uu k) as [<-|Hne].
  - rewrite dict_get_set_eq. intros [= <-] [Hin|Hin]%elem_of_app.
    + specialize (Hitems1 _ _ _ _ Hl Hin). lia.
    + apply list_elem_of_singleton in Hin as [= -> ->]. done.
  - rewrite dict_get_set_ne by done. intros Hk Hin.
    specialize (Hitems1 _ _ _ _ Hk Hin). lia.
Qed.

Lemma load_recsys_loop_inv (lines : list (Z * Z * R)) :
  forall (st : RecSys R) (ls : list (Z * Z * R)),
    recsys_inv st ls ->
    exists st' : RecSys R,
      foldO load_recsys_line lines st = Done st' /\ recsys_inv st' (ls ++ lines).
Proof.
  induction lines as [|line lines IH]; intros st ls Hinv.
  - exists st. by rewrite app_nil_r.
  - destruct (load_recsys_line_inv st ls line Hinv) as (st1 & Hstep & Hinv1).
    destruct (IH st1 _ Hinv1) as (st' & Hrun & Hinv').
    exists st'. simpl. rewrite Hstep. simpl. split; [done|].
    by rewrite <- app_assoc in Hinv'.
Qed.

Lemma recsys_inv_init : recsys_inv (R := R) (mkRecSys [] [] [] 0 0) [].
Proof.
  unfold recsys_inv. simpl.
  repeat split; try apply NoDup_nil_2; try done;
    try (intros ? Hx; by apply elem_of_nil in Hx).
Qed.

Lemma count_distinct (keys seen : list Z) :
  NoDup keys -> (forall k, k ∈ keys <-> k ∈ seen) ->
  length keys = length (remove_dups seen).
Proof.
  intros Hnd Hin. apply Permutation_length, NoDup_Permutation;
    [done | apply NoDup_remove_dups |].
  intros k. by rewrite Hin, elem_of_remove_dups.
Qed.

(** load_recsys_dataset renumbers users and items densely: for a known
    dataset and any ratings file the loop completes (no key is ever
    missing), the number of users and of items returned are the numbers of
    distinct user and item ids in the file, the table of ratings has exactly
    the keys 0 .. ucnt - 1, holds one rating per line, and every item id it
    stores lies below icnt.  An unknown dataset name raises ValueError. *)
Theorem recsys_dense_renumbering (name : string) (lines : list (Z * Z * R)) :
  (name ∈ ["ml-100k"; "ml-1m"; "ml-10m"; "ml-20m"] ->
   exists (rt : dict (list (Z * R))) (uc ic : Z),
     load_recsys_dataset name lines = Done (rt, uc, ic) /\
     uc = Z.of_nat (length (remove_dups ((fun l : Z * Z * R => l.1.1) <$> lines))) /\
     ic = Z.of_nat (length (remove_dups ((fun l : Z * Z * R => l.1.2) <$> lines))) /\
     dict_keys rt = seqZ 0 uc /\
     n_ratings rt = length lines /\
     (forall k l it r, dict_get k rt = Some l -> (it, r) ∈ l -> 0 <= it < ic)) /\
  (name ∉ ["ml-100k"; "ml-1m"; "ml-10m"; "ml-20m"] ->
   load_recsys_dataset name lines = Fail (EngineExn (ValueError "Unknown dataset"))).
Proof.
  split; intros Hname; unfold load_recsys_dataset.
  - rewrite bool_decide_eq_true_2 by done.
    destruct (load_recsys_loop_inv lines _ [] recsys_inv_init)
      as (st' & Hrun & (Hund & Huin & Hulen & _) & (Hind & Hiin & Hilen & _) &
          Hkeys & Htot & Hitems).
    simpl in *. rewrite Hrun. simpl. eexists _, _, _. split; [reflexivity|].
    split; [|split; [|done]].
    + rewrite <- Hulen, <- dict_length_keys. f_equal. by apply count_distinct.
    + rewrite <- Hilen, <- dict_length_keys. f_equal. by apply count_distinct.
  - by rewrite bool_decide_eq_false_2.
Qed.
End RecSysLoop.

Lemma recsys_dense_renumbering_witness :
  load_recsys_dataset "ml-1m" [(7, 30, 5); (9, 30, 3); (7, 12, 4)]
    = Done ([(0, [(0, 5); (1, 4)]); (1, [(0, 3)])], 2, 2) /\
  load_recsys_dataset "netflix" [(7, 30, 5)]
    = Fail (EngineExn (ValueError "Unknown dataset")).
Proof.
  split; [reflexivity|].
  apply (proj2 (recsys_dense_renumbering "netflix" [(7, 30, 5)])).
  apply (bool_decide_unpack _). by vm_compute.
Defined.
